(** * Onlook sandbox core: virtual adapter, poll watcher, session start,
      undo/redo and snapshots

    A shallow embedding of the TypeScript sources
    - [SandpackAdapter] (in-memory provider adapter),
    - [SandpackFileWatcher] (poll-based watcher),
    - [SessionManager.start] (connection with retries),
    - [UndoRedoManager] (heads stacks over an Automerge document),
    - [SandboxManager] snapshot operations,
    - [PseudoTerminal] (emulated shell of the browser sandbox),
    - [DependencyPolyfill] (the virtual [package.json]),
    followed by the properties stated about them, and by further
    properties of the same programs.

    Conventions.  A JavaScript string is a [string] of code units below 256
    (Latin-1).  A plain JavaScript object used as a dictionary is a
    [JsObj.t]: an association list in own-property order; its keys are file
    paths, package names or JSON member names, and the names every object
    inherits from [Object.prototype] are not among them.  A map inside an
    Automerge document is a [gmap].  State is passed explicitly; a thrown
    exception is the [Throw] completion. *)

From Stdlib Require Import ZArith NArith String Ascii List Bool Lia DecimalString.
From stdpp Require Import gmap strings list fin_maps.
Import ListNotations.

Set Warnings "-register-all".

Open Scope string_scope.
Open Scope nat_scope.
Open Scope list_scope.

(* ===================================================================== *)
(** * Part I: the programs                                                *)
(* ===================================================================== *)

(** ** JavaScript strings *)

Module Js.

Definition code (c : ascii) : nat := nat_of_ascii c.

(** [WhiteSpace] and [LineTerminator] code units: what [\s] matches and
    what [trim] strips. *)
Definition isWhiteSpace (c : ascii) : bool :=
  let n := code c in
  (n =? 9) || (n =? 10) || (n =? 11) || (n =? 12) || (n =? 13)
  || (n =? 32) || (n =? 160).

Definition isLineTerminator (c : ascii) : bool :=
  let n := code c in (n =? 10) || (n =? 13).

Definition toLowerChar (c : ascii) : ascii :=
  let n := code c in
  if ((65 <=? n) && (n <=? 90))
     || ((192 <=? n) && (n <=? 222) && negb (n =? 215))
  then ascii_of_nat (n + 32) else c.

Fixpoint toLowerCase (s : string) : string :=
  match s with
  | EmptyString => EmptyString
  | String c s' => String (toLowerChar c) (toLowerCase s')
  end.

(** [s.startsWith(p)] and [s.endsWith(p)]. *)
Definition startsWith (s p : string) : bool := String.prefix p s.

Fixpoint drop (n : nat) (s : string) : string :=
  match n, s with
  | 0, _ => s
  | S n', String _ s' => drop n' s'
  | S _, EmptyString => EmptyString
  end.

Definition take (n : nat) (s : string) : string := substring 0 n s.

Definition endsWith (s p : string) : bool :=
  (String.length p <=? String.length s)
  && String.eqb (drop (String.length s - String.length p) s) p.

(** [s.slice(i)] and [s.slice(i, j)], negative indices counting from the
    end. *)
Definition clampIndex (len i : Z) : Z :=
  if (i <? 0)%Z then Z.max (len + i) 0 else Z.min i len.

Definition sliceFrom (i : Z) (s : string) : string :=
  drop (Z.to_nat (clampIndex (Z.of_nat (String.length s)) i)) s.

Definition slice (i j : Z) (s : string) : string :=
  let len := Z.of_nat (String.length s) in
  let from := clampIndex len i in
  let to := clampIndex len j in
  take (Z.to_nat (to - from)) (drop (Z.to_nat from) s).

(** [s.lastIndexOf(c)] for a one-character needle; [-1] when absent. *)
Fixpoint lastIndexOfFrom (c : ascii) (s : string) (pos found : Z) : Z :=
  match s with
  | EmptyString => found
  | String c' s' =>
      lastIndexOfFrom c s' (pos + 1) (if Ascii.eqb c' c then pos else found)
  end.

Definition lastIndexOf (s : string) (c : ascii) : Z :=
  lastIndexOfFrom c s 0 (-1).

(** [s.trim()]. *)
Fixpoint trimStart (s : string) : string :=
  match s with
  | EmptyString => EmptyString
  | String c s' => if isWhiteSpace c then trimStart s' else s
  end.

Fixpoint trimEnd (s : string) : string :=
  match s with
  | EmptyString => EmptyString
  | String c s' =>
      let t := trimEnd s' in
      if String.eqb t EmptyString && isWhiteSpace c
      then EmptyString else String c t
  end.

Definition trim (s : string) : string := trimEnd (trimStart s).

(** [s.split(/\s+/)]: [cur] is the piece being read, [inWs] tells that the
    previous code unit belonged to a separator. *)
Fixpoint splitWsFrom (s cur : string) (inWs : bool) : list string :=
  match s with
  | EmptyString => [cur]
  | String c s' =>
      if isWhiteSpace c
      then (if inWs then splitWsFrom s' EmptyString true
            else cur :: splitWsFrom s' EmptyString true)
      else splitWsFrom s' (cur +:+ String c EmptyString) false
  end.

Definition splitWs (s : string) : list string :=
  splitWsFrom s EmptyString false.

(** [s.split(sep)] for a one-character separator. *)
Fixpoint splitCharFrom (sep : ascii) (s cur : string) : list string :=
  match s with
  | EmptyString => [cur]
  | String c s' =>
      if Ascii.eqb c sep then cur :: splitCharFrom sep s' EmptyString
      else splitCharFrom sep s' (cur +:+ String c EmptyString)
  end.

Definition splitChar (sep : ascii) (s : string) : list string :=
  splitCharFrom sep s EmptyString.

(** [filter(Boolean)] on strings keeps the non-empty ones. *)
Definition truthyStr (s : string) : bool := negb (String.eqb s EmptyString).

(** [arr.join(sep)]. *)
Fixpoint join (sep : string) (l : list string) : string :=
  match l with
  | [] => EmptyString
  | [x] => x
  | x :: l' => x +:+ sep +:+ join sep l'
  end.

(** Decimal rendering of a length. *)
Definition natToString (n : nat) : string :=
  NilZero.string_of_uint (Nat.to_uint n).

(** [arr.sort()] on strings: ascending code-unit order. *)
Fixpoint insertSorted (x : string) (l : list string) : list string :=
  match l with
  | [] => [x]
  | y :: l' => if String.leb x y then x :: l else y :: insertSorted x l'
  end.

Definition sort (l : list string) : list string :=
  fold_right insertSorted [] l.

Definition LF : string := String (ascii_of_nat 10) EmptyString.

End Js.

(** ** Plain objects used as dictionaries *)

Module JsObj.

(** An array index is a canonical numeric string below [2^32 - 1]; such
    keys are enumerated first, in ascending order. *)
Definition digitOf (c : ascii) : option N :=
  let n := Js.code c in
  if (48 <=? n) && (n <=? 57) then Some (N.of_nat (n - 48)) else None.

Fixpoint digitsFrom (s : string) (acc : N) : option N :=
  match s with
  | EmptyString => Some acc
  | String c s' =>
      match digitOf c with
      | Some d => digitsFrom s' (10 * acc + d)%N
      | None => None
      end
  end.

Definition arrayIndex (k : string) : option N :=
  match k with
  | EmptyString => None
  | String c rest =>
      if Ascii.eqb c "0"%char && negb (String.eqb rest EmptyString) then None
      else match digitsFrom k 0%N with
           | Some n => if (n <? 4294967295)%N then Some n else None
           | None => None
           end
  end.

Section Obj.
Context {V : Type}.

Definition t := list (string * V).

Definition empty : t := [].

(** [o[k]]; [None] is [undefined]. *)
Fixpoint get (k : string) (o : t) : option V :=
  match o with
  | [] => None
  | (k', v) :: o' => if String.eqb k' k then Some v else get k o'
  end.

(** [k in o]. *)
Definition has (k : string) (o : t) : bool :=
  match get k o with Some _ => true | None => false end.

(** [Object.keys(o)] and [Object.entries(o)]. *)
Definition keys (o : t) : list string := List.map fst o.
Definition entries (o : t) : list (string * V) := o.

Fixpoint replace (k : string) (v : V) (o : t) : t :=
  match o with
  | [] => []
  | (k', v') :: o' =>
      if String.eqb k' k then (k', v) :: o' else (k', v') :: replace k v o'
  end.

Fixpoint insertIndex (i : N) (k : string) (v : V) (o : t) : t :=
  match o with
  | [] => [(k, v)]
  | (k', v') :: o' =>
      match arrayIndex k' with
      | Some j =>
          if (i <? j)%N then (k, v) :: o
          else (k', v') :: insertIndex i k v o'
      | None => (k, v) :: o
      end
  end.

(** [o[k] = v]: an existing key keeps its place, a new one is placed in
    own-property order. *)
Definition set (k : string) (v : V) (o : t) : t :=
  if has k o then replace k v o
  else match arrayIndex k with
       | Some i => insertIndex i k v o
       | None => o ++ [(k, v)]
       end.

(** [delete o[k]]. *)
Definition delete (k : string) (o : t) : t :=
  List.filter (fun kv => negb (String.eqb (fst kv) k)) o.

(** [{ ...o }]. *)
Definition copy (o : t) : t := o.

End Obj.

Arguments t : clear implicits.

End JsObj.

(** ** Regular expressions

    The fragment of ECMAScript regular expressions the sources use, with
    the backtracking order of the language: alternatives left to right,
    [?] and [+] greedy.  [+] is only ever applied to a character class.
    There is one capturing group. *)

Module Regex.

Inductive re : Type :=
| Eps
| Lit (c : ascii)
| Class (p : ascii -> bool)
| Seq (r1 r2 : re)
| Alt (r1 r2 : re)
| Opt (r : re)
| PlusClass (p : ascii -> bool)
| Group (r : re).

Fixpoint word (s : string) : re :=
  match s with
  | EmptyString => Eps
  | String c s' => Seq (Lit c) (word s')
  end.

Section Matcher.
Context {A : Type}.

(** A continuation receives the rest of the input and the capture. *)
Definition K : Type := string -> option string -> option A.

Fixpoint plus (p : ascii -> bool) (s : string) (cap : option string)
         (k : K) : option A :=
  match s with
  | EmptyString => None
  | String c s' =>
      if p c then
        match plus p s' cap k with
        | Some x => Some x
        | None => k s' cap
        end
      else None
  end.

Fixpoint run (r : re) (s : string) (cap : option string) (k : K)
  : option A :=
  match r with
  | Eps => k s cap
  | Lit c =>
      match s with
      | String c' s' => if Ascii.eqb c' c then k s' cap else None
      | EmptyString => None
      end
  | Class p =>
      match s with
      | String c' s' => if p c' then k s' cap else None
      | EmptyString => None
      end
  | Seq r1 r2 => run r1 s cap (fun s1 cap1 => run r2 s1 cap1 k)
  | Alt r1 r2 =>
      match run r1 s cap k with
      | Some x => Some x
      | None => run r2 s cap k
      end
  | Opt r1 =>
      match run r1 s cap k with
      | Some x => Some x
      | None => k s cap
      end
  | PlusClass p => plus p s cap k
  | Group r1 =>
      run r1 s cap
        (fun s1 _ =>
           k s1 (Some (Js.take (String.length s - String.length s1) s)))
  end.

End Matcher.

(** [s.match(r)] for a regular expression without the [g] flag: the
    leftmost match; the result is the capture ([None] inside [Some] when
    the group did not take part). *)
Fixpoint exec (r : re) (s : string) : option (option string) :=
  match run r s None (fun _ cap => Some cap) with
  | Some cap => Some cap
  | None =>
      match s with
      | EmptyString => None
      | String _ s' => exec r s'
      end
  end.

End Regex.

(** ** JSON values *)

Module Json.

(** A number is [mantissa * 10 ^ exponent]. *)
Inductive value : Type :=
| Null
| Bool (b : bool)
| Number (mantissa exponent : Z)
| Str (s : string)
| Arr (l : list value)
| Obj (o : list (string * value)).

(** [ToBoolean]. *)
Definition truthy (v : value) : bool :=
  match v with
  | Null => false
  | Bool b => b
  | Number m _ => negb (m =? 0)%Z
  | Str s => Js.truthyStr s
  | Arr _ | Obj _ => true
  end.

End Json.

(** ** Completions *)

(** [OutOfModel] marks a run that leaves the modelled fragment of
    JavaScript (property writes on arrays and primitives, [undefined]
    passed where a string is expected). *)
Inductive Completion (A : Type) : Type :=
| Return (a : A)
| Throw (e : string)
| OutOfModel.

Arguments Return {A} a.
Arguments Throw {A} e.
Arguments OutOfModel {A}.

(** ** SandpackAdapter *)

Module SandpackAdapter.

(** [string | Uint8Array]. *)
Inductive Content : Type :=
| Text (s : string)
| Binary (bytes : list N).

(** [SandpackAdapterCallbacks], over a host state [S].  [getFiles] hands out
    a reference [R] to the host's file object; [filesAt r s] is what that
    object holds when the host is in state [s], so that a host which
    mutates the object in place and a host which replaces it can both be
    described. *)
Record SandpackAdapterCallbacks (S R : Type) : Type := {
  getFiles : S -> R;
  filesAt : R -> S -> JsObj.t string;
  onFileUpdate : string -> string -> S -> S;
  onFileDelete : string -> S -> S;
  onDependenciesChanged : option (JsObj.t Json.value -> S -> S)
}.

Arguments getFiles {S R} _ _.
Arguments filesAt {S R} _ _ _.
Arguments onFileUpdate {S R} _ _ _ _.
Arguments onFileDelete {S R} _ _ _.
Arguments onDependenciesChanged {S R} _.

Definition BINARY_EXTENSIONS : list string :=
  [ ".png"; ".jpg"; ".jpeg"; ".gif"; ".bmp"; ".ico"; ".svg";
    ".webp"; ".avif"; ".mp3"; ".mp4"; ".wav"; ".ogg"; ".webm";
    ".woff"; ".woff2"; ".ttf"; ".eot"; ".otf";
    ".zip"; ".tar"; ".gz"; ".7z"; ".rar";
    ".pdf"; ".exe"; ".dll"; ".so"; ".dylib" ].

Definition isBinaryPath (path : string) : bool :=
  let ext := Js.toLowerCase (Js.sliceFrom (Js.lastIndexOf path ".") path) in
  existsb (String.eqb ext) BINARY_EXTENSIONS.

Definition normalizePath (p : string) : string :=
  if negb (Js.startsWith p "/") then "/" +:+ p else p.

(** [p.endsWith('/') ? p : p + '/']. *)
Definition withTrailingSlash (p : string) : string :=
  if Js.endsWith p "/" then p else p +:+ "/".

(** [/npm\s+(?:install|i|add)\s+(?:--save\s+|--save-dev\s+|-[SD]\s+)?(.+)/] *)
Definition npmInstallRegex : Regex.re :=
  let ws := Regex.PlusClass Js.isWhiteSpace in
  let dot := fun c => negb (Js.isLineTerminator c) in
  let SD := fun c => Ascii.eqb c "S" || Ascii.eqb c "D" in
  Regex.Seq (Regex.word "npm")
   (Regex.Seq ws
    (Regex.Seq (Regex.Alt (Regex.word "install")
                 (Regex.Alt (Regex.word "i") (Regex.word "add")))
     (Regex.Seq ws
      (Regex.Seq
        (Regex.Opt
          (Regex.Alt (Regex.Seq (Regex.word "--save") ws)
            (Regex.Alt (Regex.Seq (Regex.word "--save-dev") ws)
                       (Regex.Seq (Regex.Lit "-")
                                  (Regex.Seq (Regex.Class SD) ws)))))
        (Regex.Group (Regex.PlusClass dot)))))).

(** One [name[@version]] token. *)
Definition parsePackageSpec (pkg : string) : string * string :=
  let atIndex := Js.lastIndexOf pkg "@" in
  if (atIndex >? 0)%Z
  then (Js.slice 0 atIndex pkg, Js.sliceFrom (atIndex + 1) pkg)
  else (pkg, "latest").

(** The loop over the tokens: flags are skipped, every other token is
    written into the dependency table and reported. *)
Fixpoint installPackages (packages : list string)
         (deps : JsObj.t Json.value) (installed : list string)
  : JsObj.t Json.value * list string :=
  match packages with
  | [] => (deps, installed)
  | pkg :: rest =>
      if Js.startsWith pkg "-" then installPackages rest deps installed
      else
        let (name, version) := parsePackageSpec pkg in
        installPackages rest
          (JsObj.set name (Json.Str version) deps)
          (installed ++ [name +:+ "@" +:+ version])
  end.

Definition defaultPackageJson : Json.value :=
  Json.Obj [ ("name", Json.Str "sandbox"); ("version", Json.Str "1.0.0");
             ("dependencies", Json.Obj []) ].

(** [if (!packageJson.dependencies) packageJson.dependencies = {}]: the
    members of the manifest afterwards and its dependency table. *)
Definition ensureDependencies (packageJson : Json.value)
  : Completion (JsObj.t Json.value * JsObj.t Json.value) :=
  match packageJson with
  | Json.Obj o =>
      match JsObj.get "dependencies" o with
      | Some d =>
          if Json.truthy d then
            match d with
            | Json.Obj deps => Return (o, deps)
            | _ => OutOfModel
            end
          else Return (JsObj.set "dependencies" (Json.Obj []) o, [])
      | None => Return (JsObj.set "dependencies" (Json.Obj []) o, [])
      end
  | Json.Null => Throw "TypeError"
  | _ => OutOfModel
  end.

Definition isQuote (c : ascii) : bool :=
  (Js.code c =? 34) || (Js.code c =? 39).

(** [s.replace(/^["']|["']$/g, '')]. *)
Definition stripQuotes (s : string) : string :=
  let s1 := match s with
            | String c s' => if isQuote c then s' else s
            | EmptyString => s
            end in
  match Js.sliceFrom (-1) s1 with
  | String c EmptyString =>
      if isQuote c then Js.take (String.length s1 - 1) s1 else s1
  | _ => s1
  end.

(** [Set.add]. *)
Definition setAdd (x : string) (l : list string) : list string :=
  if existsb (String.eqb x) l then l else l ++ [x].

Definition firstSegment (relative : string) : string :=
  hd EmptyString (Js.splitChar "/" relative).

Section Adapter.

Variables S R : Type.
Variable callbacks : SandpackAdapterCallbacks S R.

(** [JSON.parse] ([None] when it throws) and [JSON.stringify(_, null, 2)]
    of the runtime. *)
Variable JSON_parse : string -> option Json.value.
Variable JSON_stringify : Json.value -> string.

Definition readFile (path : string) (s : S) : Completion string :=
  let normalized := normalizePath path in
  let files := filesAt callbacks (getFiles callbacks s) s in
  match JsObj.get normalized files with
  | Some content => Return content
  | None =>
      let withoutSlash :=
        if Js.startsWith normalized "/" then Js.sliceFrom 1 normalized
        else normalized in
      match JsObj.get withoutSlash files with
      | Some content => Return content
      | None => Throw ("[SandpackAdapter] File not found: " +:+ path)
      end
  end.

Definition writeFile (path : string) (content : Content) (s : S)
  : S * Completion unit :=
  let normalized := normalizePath path in
  match content with
  | Binary _ => (s, Return tt)
  | Text text =>
      if isBinaryPath normalized then (s, Return tt)
      else (onFileUpdate callbacks normalized text s, Return tt)
  end.

(** The [try] block of [handleNpmInstall]. *)
Definition loadPackageJson (files : JsObj.t string) : Json.value :=
  let existing :=
    match JsObj.get "/package.json" files with
    | Some text => Some text
    | None => JsObj.get "package.json" files
    end in
  match existing with
  | Some text =>
      if Js.truthyStr text then
        match JSON_parse text with
        | Some v => v
        | None => defaultPackageJson
        end
      else defaultPackageJson
  | None => defaultPackageJson
  end.

Definition installOutput (installed : list string) : string :=
  Js.join Js.LF (List.map (fun p => "+ " +:+ p) installed)
  +:+ Js.LF +:+ Js.LF +:+ "added "
  +:+ Js.natToString (List.length installed) +:+ " package(s)" +:+ Js.LF.

Definition handleNpmInstall (packagesStr : string) (s : S)
  : S * Completion string :=
  let files := filesAt callbacks (getFiles callbacks s) s in
  let pkgJsonPath := "/package.json" in
  match ensureDependencies (loadPackageJson files) with
  | Return (members, deps) =>
      let packages := List.filter Js.truthyStr (Js.splitWs packagesStr) in
      let (deps', installed) := installPackages packages deps [] in
      let packageJson := Json.Obj (JsObj.set "dependencies" (Json.Obj deps') members) in
      let updatedContent := JSON_stringify packageJson in
      let s1 := onFileUpdate callbacks pkgJsonPath updatedContent s in
      let s2 := match onDependenciesChanged callbacks with
                | Some notify => notify (JsObj.copy deps') s1
                | None => s1
                end in
      (s2, Return (installOutput installed))
  | Throw e => (s, Throw e)
  | OutOfModel => (s, OutOfModel)
  end.

Fixpoint lsEntries (dir : string) (paths : list string) (entries : list string)
  : list string :=
  match paths with
  | [] => entries
  | filePath :: rest =>
      let normalized := normalizePath filePath in
      if Js.startsWith normalized dir then
        let seg := firstSegment
                     (Js.sliceFrom (Z.of_nat (String.length dir)) normalized) in
        lsEntries dir rest (if Js.truthyStr seg then setAdd seg entries else entries)
      else lsEntries dir rest entries
  end.

Fixpoint lsRootEntries (paths : list string) (entries : list string)
  : list string :=
  match paths with
  | [] => entries
  | filePath :: rest =>
      let seg := firstSegment (Js.sliceFrom 1 (normalizePath filePath)) in
      lsRootEntries rest (if Js.truthyStr seg then setAdd seg entries else entries)
  end.

Definition handleLs (command : string) (s : S) : string :=
  let files := filesAt callbacks (getFiles callbacks s) s in
  let parts := Js.splitWs command in
  let targetDir := normalizePath (nth 1 parts "/") in
  let entries := lsEntries (withTrailingSlash targetDir) (JsObj.keys files) [] in
  let entries :=
    match entries with
    | [] => if String.eqb targetDir "/" then lsRootEntries (JsObj.keys files) []
            else entries
    | _ => entries
    end in
  Js.join Js.LF (Js.sort entries) +:+ Js.LF.

Definition runCommand (command : string) (s : S) : S * Completion string :=
  match Regex.exec npmInstallRegex command with
  | Some (Some packagesStr) => handleNpmInstall (Js.trim packagesStr) s
  | Some None => (s, Throw "TypeError")
  | None =>
      let trimmed := Js.trim command in
      if String.eqb trimmed "pwd" then (s, Return ("/project/sandbox" +:+ Js.LF))
      else if Js.startsWith trimmed "echo " then
        (s, Return (stripQuotes (Js.sliceFrom 5 trimmed) +:+ Js.LF))
      else if String.eqb trimmed "ls" || Js.startsWith trimmed "ls " then
        (s, Return (handleLs trimmed s))
      else if Js.startsWith trimmed "cat " then
        let filePath := Js.trim (Js.sliceFrom 4 trimmed) in
        match readFile filePath s with
        | Return content => (s, Return content)
        | _ => (s, Return ("cat: " +:+ filePath +:+ ": No such file or directory" +:+ Js.LF))
        end
      else
        (s, Return ("[sandbox] Command executed (browser polyfill): "
                    +:+ trimmed +:+ Js.LF))
  end.

Fixpoint deleteChildren (dirPrefix : string) (paths : list string) (s : S) : S :=
  match paths with
  | [] => s
  | filePath :: rest =>
      deleteChildren dirPrefix rest
        (if Js.startsWith filePath dirPrefix
         then onFileDelete callbacks filePath s else s)
  end.

Definition deleteFiles (path : string) (s : S) : S * Completion unit :=
  let normalized := normalizePath path in
  let files := getFiles callbacks s in
  if JsObj.has normalized (filesAt callbacks files s)
  then (onFileDelete callbacks normalized s, Return tt)
  else
    (deleteChildren (withTrailingSlash normalized)
       (JsObj.keys (filesAt callbacks files s)) s, Return tt).

(** The loop of the directory branch of [renameFile].  [files] is the
    reference obtained before the loop; [files[filePath]] is read when the
    iteration runs. *)
Fixpoint renameChildren (files : R) (dirPrefix newDirPrefix : string)
         (paths : list string) (s : S) : S * Completion unit :=
  match paths with
  | [] => (s, Return tt)
  | filePath :: rest =>
      if Js.startsWith filePath dirPrefix then
        let newFilePath :=
          newDirPrefix
          +:+ Js.sliceFrom (Z.of_nat (String.length dirPrefix)) filePath in
        match JsObj.get filePath (filesAt callbacks files s) with
        | Some content =>
            renameChildren files dirPrefix newDirPrefix rest
              (onFileDelete callbacks filePath
                 (onFileUpdate callbacks newFilePath content s))
        | None => (s, OutOfModel)
        end
      else renameChildren files dirPrefix newDirPrefix rest s
  end.

Definition renameFile (oldPath newPath : string) (s : S)
  : S * Completion unit :=
  let normalizedOld := normalizePath oldPath in
  let normalizedNew := normalizePath newPath in
  let files := getFiles callbacks s in
  match JsObj.get normalizedOld (filesAt callbacks files s) with
  | Some content =>
      (onFileDelete callbacks normalizedOld
         (onFileUpdate callbacks normalizedNew content s), Return tt)
  | None =>
      renameChildren files
        (withTrailingSlash normalizedOld) (withTrailingSlash normalizedNew)
        (JsObj.keys (filesAt callbacks files s)) s
  end.

End Adapter.

Arguments readFile {S R} _ _ _.
Arguments writeFile {S R} _ _ _ _.
Arguments loadPackageJson _ _ : clear implicits.
Arguments handleNpmInstall {S R} _ _ _ _ _.
Arguments handleLs {S R} _ _ _.
Arguments runCommand {S R} _ _ _ _ _.
Arguments deleteFiles {S R} _ _ _.
Arguments renameChildren {S R} _ _ _ _ _ _.
Arguments renameFile {S R} _ _ _ _.

(** The host of the adapter's test-suite ([createTestAdapter]), which is
    also how [SandboxManager] wires [this.files]: one file object, mutated
    in place.  Every notification of a dependency change is recorded. *)
Record MapHost : Type := {
  files : JsObj.t string;
  deletedPaths : list string;
  depsNotified : list (JsObj.t Json.value)
}.

Definition mapCallbacks : SandpackAdapterCallbacks MapHost unit := {|
  getFiles := fun _ => tt;
  filesAt := fun _ s => files s;
  onFileUpdate := fun path content s =>
    {| files := JsObj.set path content (files s);
       deletedPaths := deletedPaths s;
       depsNotified := depsNotified s |};
  onFileDelete := fun path s =>
    {| files := JsObj.delete path (files s);
       deletedPaths := deletedPaths s ++ [path];
       depsNotified := depsNotified s |};
  onDependenciesChanged := Some (fun deps s =>
    {| files := files s;
       deletedPaths := deletedPaths s;
       depsNotified := depsNotified s ++ [deps] |})
|}.

Definition hostOf (fs : JsObj.t string) : MapHost :=
  {| files := fs; deletedPaths := []; depsNotified := [] |}.

(** A host that replaces its file object at every update, as
    [SandboxManager] does once the document handle exists (its change
    listener assigns a fresh copy to [this.files] before the entry is
    written): a reference handed out earlier keeps showing the files as they
    were. *)
Definition replacingCallbacks : SandpackAdapterCallbacks MapHost (JsObj.t string) := {|
  getFiles := files;
  filesAt := fun reference _ => reference;
  onFileUpdate := onFileUpdate mapCallbacks;
  onFileDelete := onFileDelete mapCallbacks;
  onDependenciesChanged := onDependenciesChanged mapCallbacks
|}.

(** *** Directories and listings *)

(** ['file' | 'directory']. *)
Inductive FileType : Type := file | directory.

Record ListFilesOutputFile : Type := {
  name : string;
  type : FileType;
  isSymlink : bool
}.

(** The inner loop of [getDirectories], over [parts[1 .. length - 2]]:
    [current] grows by one segment at each turn and is added to the set. *)
Fixpoint addParents (parts : list string) (current : string) (dirs : list string)
  : list string :=
  match parts with
  | [] => dirs
  | part :: rest =>
      match rest with
      | [] => dirs
      | _ :: _ =>
          let current' := current +:+ "/" +:+ part in
          addParents rest current' (setAdd current' dirs)
      end
  end.

(** [getDirectories]: the set of implicit directories, in insertion order;
    the root is always a member. *)
Definition getDirectories (files : JsObj.t string) : list string :=
  fold_left
    (fun dirs filePath =>
       addParents (tl (Js.splitChar "/" filePath)) EmptyString dirs)
    (JsObj.keys files) ["/"].

(** The loop of [listFiles]; [entries] is the [Map] keyed by the name of
    its values, in insertion order. *)
Fixpoint listEntries (dir : string) (allDirs : list string) (paths : list string)
         (entries : list ListFilesOutputFile) : list ListFilesOutputFile :=
  match paths with
  | [] => entries
  | filePath :: rest =>
      let normalizedFile := normalizePath filePath in
      if negb (Js.startsWith normalizedFile dir)
      then listEntries dir allDirs rest entries
      else
        let seg := firstSegment
                     (Js.sliceFrom (Z.of_nat (String.length dir)) normalizedFile) in
        if negb (Js.truthyStr seg) then listEntries dir allDirs rest entries
        else if existsb (fun e => String.eqb (name e) seg) entries
        then listEntries dir allDirs rest entries
        else
          let fullChildPath := dir +:+ seg in
          let isDirectory := existsb (String.eqb fullChildPath) allDirs in
          listEntries dir allDirs rest
            (entries ++ [ {| name := seg;
                             type := if isDirectory then directory else file;
                             isSymlink := false |} ])
  end.

Section Queries.

Variables S R : Type.
Variable callbacks : SandpackAdapterCallbacks S R.

Definition listFiles (path : string) (s : S) : list ListFilesOutputFile :=
  let files := filesAt callbacks (getFiles callbacks s) s in
  let dir := withTrailingSlash (normalizePath path) in
  listEntries dir (getDirectories files) (JsObj.keys files) [].

(** [statFile]; the result is the [type] member of what it resolves to. *)
Definition statFile (path : string) (s : S) : Completion FileType :=
  let normalized := normalizePath path in
  let files := filesAt callbacks (getFiles callbacks s) s in
  if JsObj.has normalized files then Return file
  else
    let dirPrefix := withTrailingSlash normalized in
    if existsb (fun filePath => Js.startsWith filePath dirPrefix) (JsObj.keys files)
    then Return directory
    else Throw ("[SandpackAdapter] Path not found: " +:+ path).

End Queries.

Arguments listFiles {S R} _ _ _.
Arguments statFile {S R} _ _ _.

End SandpackAdapter.

(** ** SandpackFileWatcher *)

Module SandpackFileWatcher.

Inductive EventType : Type := add | change | remove.

Record WatchEvent : Type := { type : EventType; paths : list string }.

(** A registered callback function and an interval handle ([setInterval]
    returns an integer greater than zero). *)
Definition Callback : Type := nat.
Definition TimerId : Type := positive.

Record Watcher : Type := {
  callbacks : list Callback;
  intervalId : option TimerId;
  previousSnapshot : JsObj.t string
}.

Definition pollIntervalMs : nat := 500.

Definition create : Watcher :=
  {| callbacks := []; intervalId := None; previousSnapshot := JsObj.empty |}.

(** The watcher together with its surroundings: the intervals that are
    armed, the next handle [setInterval] will return, and every call made
    to a callback so far. *)
Record World : Type := {
  watcher : Watcher;
  timers : list TimerId;
  nextTimer : TimerId;
  delivered : list (Callback * WatchEvent)
}.

(** [a !== b] on the values of two lookups. *)
Definition differ (a b : option string) : bool :=
  match a, b with
  | Some x, Some y => negb (String.eqb x y)
  | None, None => false
  | _, _ => true
  end.

(** First loop of [detectChanges]. *)
Fixpoint scanCurrent (previous current : JsObj.t string)
         (pathsToVisit added changed : list string)
  : list string * list string :=
  match pathsToVisit with
  | [] => (added, changed)
  | path :: rest =>
      if negb (JsObj.has path previous)
      then scanCurrent previous current rest (added ++ [path]) changed
      else if differ (JsObj.get path current) (JsObj.get path previous)
      then scanCurrent previous current rest added (changed ++ [path])
      else scanCurrent previous current rest added changed
  end.

(** Second loop of [detectChanges]. *)
Fixpoint scanPrevious (current : JsObj.t string)
         (pathsToVisit removed : list string) : list string :=
  match pathsToVisit with
  | [] => removed
  | path :: rest =>
      if negb (JsObj.has path current)
      then scanPrevious current rest (removed ++ [path])
      else scanPrevious current rest removed
  end.

Definition addedPaths (previous current : JsObj.t string) : list string :=
  fst (scanCurrent previous current (JsObj.keys current) [] []).

Definition changedPaths (previous current : JsObj.t string) : list string :=
  snd (scanCurrent previous current (JsObj.keys current) [] []).

Definition removedPaths (previous current : JsObj.t string) : list string :=
  scanPrevious current (JsObj.keys previous) [].

(** [if (xs.length > 0) this.emit({ type, paths: xs })], as the list of
    events handed to [emit]. *)
Definition eventIfAny (ty : EventType) (xs : list string) : list WatchEvent :=
  match xs with
  | [] => []
  | _ :: _ => [ {| type := ty; paths := xs |} ]
  end.

Definition emitted (previous current : JsObj.t string) : list WatchEvent :=
  eventIfAny add (addedPaths previous current)
  ++ eventIfAny change (changedPaths previous current)
  ++ eventIfAny remove (removedPaths previous current).

(** [emit]: each registered callback is called with the event. *)
Definition emit (w : Watcher) (event : WatchEvent) : list (Callback * WatchEvent) :=
  List.map (fun callback => (callback, event)) (callbacks w).

(** [detectChanges], with [currentFiles] the answer of [getFiles()]. *)
Definition detectChanges (currentFiles : JsObj.t string) (w : Watcher)
  : Watcher * list (Callback * WatchEvent) :=
  let calls := List.concat (List.map (emit w) (emitted (previousSnapshot w) currentFiles)) in
  ({| callbacks := callbacks w;
      intervalId := intervalId w;
      previousSnapshot := JsObj.copy currentFiles |}, calls).

Definition registerEventCallback (callback : Callback) (w : Watcher) : Watcher :=
  {| callbacks := callbacks w ++ [callback];
     intervalId := intervalId w;
     previousSnapshot := previousSnapshot w |}.

(** [start]: take the first snapshot and arm an interval. *)
Definition start (currentFiles : JsObj.t string) (x : World) : World :=
  {| watcher := {| callbacks := callbacks (watcher x);
                   intervalId := Some (nextTimer x);
                   previousSnapshot := JsObj.copy currentFiles |};
     timers := nextTimer x :: timers x;
     nextTimer := Pos.succ (nextTimer x);
     delivered := delivered x |}.

(** [stop]: clear the interval the watcher holds and forget the
    callbacks. *)
Definition stop (x : World) : World :=
  {| watcher := {| callbacks := [];
                   intervalId := None;
                   previousSnapshot := previousSnapshot (watcher x) |};
     timers := match intervalId (watcher x) with
               | Some t => List.filter (fun t' => negb (Pos.eqb t' t)) (timers x)
               | None => timers x
               end;
     nextTimer := nextTimer x;
     delivered := delivered x |}.

(** What can happen to a watcher: calls of its methods, and an armed
    interval elapsing while the host's file map is [currentFiles].  Each of
    them runs to its end before the next one starts: a callback is an
    asynchronous function that [emit] calls and leaves to itself, and it is
    not taken to call the watcher back from inside that call. *)
Inductive Action : Type :=
| CallStart (currentFiles : JsObj.t string)
| CallStop
| CallRegister (callback : Callback)
| TimerFires (t : TimerId) (currentFiles : JsObj.t string).

Definition step (x : World) (a : Action) : World :=
  match a with
  | CallStart currentFiles => start currentFiles x
  | CallStop => stop x
  | CallRegister callback =>
      {| watcher := registerEventCallback callback (watcher x);
         timers := timers x;
         nextTimer := nextTimer x;
         delivered := delivered x |}
  | TimerFires t currentFiles =>
      if existsb (Pos.eqb t) (timers x) then
        let (w', calls) := detectChanges currentFiles (watcher x) in
        {| watcher := w';
           timers := timers x;
           nextTimer := nextTimer x;
           delivered := delivered x ++ calls |}
      else x
  end.

Definition run (x : World) (actions : list Action) : World :=
  fold_left step actions x.

(** The callbacks registered by a sequence of actions. *)
Definition registeredBy (actions : list Action) : list Callback :=
  List.concat (List.map (fun a => match a with
                                  | CallRegister callback => [callback]
                                  | _ => []
                                  end) actions).

End SandpackFileWatcher.

(** ** SessionManager.start *)

Module SessionManager.

Definition MAX_RETRIES : nat := 3.
Definition RETRY_DELAY_MS : nat := 2000.

Definition Provider : Type := nat.

Inductive Adapter : Type :=
| LegacySandboxAdapter (provider : Provider)
| SandpackAdapter.

(** What a rejected promise carries: an [Error] or some other value. *)
Inductive Thrown : Type :=
| ErrorObject (message : string)
| OtherValue (rendering : string).

(** [error instanceof Error ? error : new Error(String(error))], as the
    message of the resulting [Error]. *)
Definition asError (t : Thrown) : string :=
  match t with
  | ErrorObject message => message
  | OtherValue rendering => rendering
  end.

(** How one call of [attemptConnection] ends: it resolves with a provider;
    [createCodeProviderClient] rejects; or [createTerminalSessions] rejects
    after the provider and the adapter have been stored. *)
Inductive AttemptOutcome : Type :=
| Connected (provider : Provider)
| ClientFailed (error : Thrown)
| TerminalsFailed (provider : Provider) (error : Thrown).

Record Session : Type := {
  provider : option Provider;
  adapter : option Adapter;
  isConnecting : bool
}.

Inductive Event : Type :=
| Attempt (attempt : nat)
| Wait (ms : nat).

Definition isSome {A : Type} (o : option A) : bool :=
  match o with Some _ => true | None => false end.

(** The [for] loop of [start]; [remaining] is the number of iterations it
    still allows, [MAX_RETRIES + 1 - attempt].  The environment [outcome]
    tells how the attempt with a given number ends. *)
Fixpoint connectLoop (outcome : nat -> AttemptOutcome)
         (remaining attempt : nat) (lastError : option string)
         (s : Session) (trace : list Event)
  : Session * Completion unit * list Event :=
  match remaining with
  | 0 =>
      ({| provider := provider s; adapter := adapter s; isConnecting := false |},
       Throw (match lastError with Some e => e | None => "null" end),
       trace)
  | S remaining' =>
      let trace1 := trace ++ [Attempt attempt] in
      match outcome attempt with
      | Connected p =>
          ({| provider := Some p;
              adapter := Some (LegacySandboxAdapter p);
              isConnecting := false |}, Return tt, trace1)
      | ClientFailed error =>
          let s1 := {| provider := None; adapter := adapter s;
                       isConnecting := isConnecting s |} in
          let trace2 := if attempt <? MAX_RETRIES
                        then trace1 ++ [Wait RETRY_DELAY_MS] else trace1 in
          connectLoop outcome remaining' (S attempt) (Some (asError error)) s1 trace2
      | TerminalsFailed p error =>
          let s1 := {| provider := None;
                       adapter := Some (LegacySandboxAdapter p);
                       isConnecting := isConnecting s |} in
          let trace2 := if attempt <? MAX_RETRIES
                        then trace1 ++ [Wait RETRY_DELAY_MS] else trace1 in
          connectLoop outcome remaining' (S attempt) (Some (asError error)) s1 trace2
      end
  end.

Definition start (outcome : nat -> AttemptOutcome) (s : Session)
  : Session * Completion unit * list Event :=
  if isConnecting s || isSome (provider s) then (s, Return tt, [])
  else
    connectLoop outcome (MAX_RETRIES + 1) 0 None
      {| provider := provider s; adapter := adapter s; isConnecting := true |} [].

Definition attempts (trace : list Event) : nat :=
  List.length (List.filter (fun e => match e with Attempt _ => true | _ => false end) trace).

Definition waits (trace : list Event) : list nat :=
  List.concat (List.map (fun e => match e with Wait ms => [ms] | _ => [] end) trace).

End SessionManager.

(** ** Automerge documents, as the undo/redo manager sees them *)

Module Automerge.

Definition Hash : Type := nat.
Definition Heads : Type := list Hash.

(** What a document holds.  A text is read back as a string primitive; a
    map enumerates its keys in ascending order. *)
Inductive Value : Type :=
| VNull
| VBool (b : bool)
| VNum (n : Z)
| VStr (s : string)
| VCounter (n : Z)
| VMap (o : list (string * Value))
| VList (l : list Value).

(** [Prop = string | number]. *)
Inductive PathProp : Type :=
| Key (k : string)
| Index (i : nat).

(** [Patch]; [OtherPatch] stands for [mark], [unmark] and [conflict]. *)
Inductive Patch : Type :=
| PutPatch (path : list PathProp) (value : Value)
| DelPatch (path : list PathProp) (length : option nat)
| InsertPatch (path : list PathProp) (values : list Value)
| SpliceTextPatch (path : list PathProp) (value : string)
| IncPatch (path : list PathProp) (value : Z)
| OtherPatch (path : list PathProp).

(** A document with a linear history: [changes] lists the value after
    each change, oldest first, and the state after [i] changes is named by
    the heads [[i]]. *)
Record Doc : Type := { base : Value; changes : list Value }.

Definition valueOf (d : Doc) : Value := List.last (changes d) (base d).

Definition getHeads (d : Doc) : Heads := [List.length (changes d)].

Definition view (d : Doc) (heads : Heads) : option Value :=
  match heads with
  | [i] => nth_error (base d :: changes d) i
  | _ => None
  end.

Definition commit (v : Value) (d : Doc) : Doc :=
  {| base := base d; changes := changes d ++ [v] |}.

Definition propName (p : PathProp) : string :=
  match p with
  | Key k => k
  | Index i => Js.natToString i
  end.

(** [Number(p)] when it is an index. *)
Definition toIndex (p : PathProp) : option nat :=
  match p with
  | Index i => Some i
  | Key k => option_map N.to_nat (JsObj.arrayIndex k)
  end.

Fixpoint mapSet (k : string) (v : Value) (o : list (string * Value))
  : list (string * Value) :=
  match o with
  | [] => [(k, v)]
  | (k', v') :: o' =>
      match String.compare k k' with
      | Eq => (k, v) :: o'
      | Lt => (k, v) :: o
      | Gt => (k', v') :: mapSet k v o'
      end
  end.

Fixpoint listSet (i : nat) (v : Value) (l : list Value) : list Value :=
  match l, i with
  | [], _ => []
  | _ :: l', 0 => v :: l'
  | x :: l', S i' => x :: listSet i' v l'
  end.

(** [current[p]] as a read; [None] is [undefined]. *)
Definition getProp (current : Value) (p : PathProp) : Completion (option Value) :=
  match current with
  | VNull => Throw "TypeError"
  | VMap o => Return (JsObj.get (propName p) o)
  | VList l =>
      match toIndex p with
      | Some i => Return (nth_error l i)
      | None => OutOfModel
      end
  | VStr s =>
      match toIndex p with
      | Some i =>
          Return (match String.get i s with
                  | Some c => Some (VStr (String c EmptyString))
                  | None => None
                  end)
      | None => OutOfModel
      end
  | VBool _ | VNum _ => Return None
  | VCounter _ => OutOfModel
  end.

(** The container [current] with its member [p] replaced. *)
Definition setProp (current : Value) (p : PathProp) (child : Value) : Value :=
  match current with
  | VMap o => VMap (mapSet (propName p) child o)
  | VList l =>
      match toIndex p with
      | Some i => VList (listSet i child l)
      | None => current
      end
  | _ => current
  end.

(** The navigation loop of [applyPatch]: [current = current[path[i]]] for
    every element of [parents], then [act] on what has been reached.  The
    result of [act] is the new value of what it was given when it changed
    it, and the change is carried back to the root. *)
Fixpoint atParent (parents : list PathProp) (current : Value)
         (act : option Value -> Completion (option Value))
  : Completion (option Value) :=
  match parents with
  | [] => act (Some current)
  | p :: rest =>
      match getProp current p with
      | Return (Some child) =>
          match atParent rest child act with
          | Return (Some child') => Return (Some (setProp current p child'))
          | r => r
          end
      | Return None =>
          match rest with
          | [] => act None
          | _ :: _ => Throw "TypeError"
          end
      | Throw e => Throw e
      | OutOfModel => OutOfModel
      end
  end.

(** [current[key] = value]. *)
Definition putAct (key : PathProp) (value : Value) (current : option Value)
  : Completion (option Value) :=
  match current with
  | None | Some VNull => Throw "TypeError"
  | Some (VMap o) => Return (Some (VMap (mapSet (propName key) value o)))
  | Some (VList l) =>
      match toIndex key with
      | Some i => if i <? List.length l
                  then Return (Some (VList (listSet i value l)))
                  else OutOfModel
      | None => OutOfModel
      end
  | Some (VBool _) | Some (VNum _) | Some (VStr _) => Throw "TypeError"
  | Some (VCounter _) => OutOfModel
  end.

(** The [del] branch: [current.splice(Number(key), len)] on an array,
    [delete current[key]] on any other object, nothing otherwise. *)
Definition delAct (key : PathProp) (length : option nat) (current : option Value)
  : Completion (option Value) :=
  match current with
  | Some (VList l) =>
      match toIndex key with
      | Some i =>
          let len := match length with Some n => n | None => 1 end in
          if (i <? List.length l) && (0 <? len)
          then Return (Some (VList (firstn i l ++ skipn (i + len) l)))
          else Return None
      | None => OutOfModel
      end
  | Some (VMap o) =>
      if JsObj.has (propName key) o
      then Return (Some (VMap (JsObj.delete (propName key) o)))
      else Return None
  | _ => Return None
  end.

(** The [insert] branch. *)
Definition insertAct (key : PathProp) (values : list Value) (current : option Value)
  : Completion (option Value) :=
  match current with
  | Some (VList l) =>
      match toIndex key, values with
      | Some i, _ :: _ => Return (Some (VList (firstn i l ++ values ++ skipn i l)))
      | Some _, [] => Return None
      | None, _ => OutOfModel
      end
  | _ => Return None
  end.

(** The [inc] branch. *)
Definition incAct (key : PathProp) (delta : Z) (current : option Value)
  : Completion (option Value) :=
  match current with
  | None | Some VNull => Throw "TypeError"
  | Some cur =>
      match getProp cur key with
      | Return (Some (VNum n)) => putAct key (VNum (n + delta)) current
      | Return (Some (VCounter n)) => Return (Some (setProp cur key (VCounter (n + delta))))
      | Return (Some VNull) => Throw "TypeError"
      | Return (Some (VMap _)) | Return (Some (VList _)) => OutOfModel
      | Return _ => Return None
      | Throw e => Throw e
      | OutOfModel => OutOfModel
      end
  end.

Definition insertAt (i : nat) (text s : string) : string :=
  Js.take i s +:+ text +:+ Js.drop i s.

(** [Automerge.splice(doc, propPath, index, 0, text)]: the object at
    [propPath] has to be a text and [index] within it. *)
Fixpoint splice (propPath : list PathProp) (index : option nat) (text : string)
         (current : Value) : Completion (option Value) :=
  match propPath with
  | [] =>
      match current, index with
      | VStr s, Some i =>
          if i <=? String.length s then Return (Some (VStr (insertAt i text s)))
          else Throw "RangeError"
      | _, _ => Throw "RangeError"
      end
  | p :: rest =>
      match current with
      | VMap _ | VList _ =>
          match getProp current p with
          | Return (Some child) =>
              match splice rest index text child with
              | Return (Some child') => Return (Some (setProp current p child'))
              | r => r
              end
          | Return None => Throw "RangeError"
          | Throw e => Throw e
          | OutOfModel => OutOfModel
          end
      | _ => Throw "RangeError"
      end
  end.

End Automerge.

(** ** UndoRedoManager *)

Module UndoRedoManager.

Import Automerge.

(** The two stacks have their top at the head of the list. *)
Record Manager : Type := {
  undoStack : list Heads;
  redoStack : list Heads;
  currentHeads : option Heads;
  isUndoingOrRedoing : bool
}.

(** The manager and [handle.docSync()] ([None] while the handle has no
    document). *)
Record System : Type := { manager : Manager; handle : option Doc }.

Definition areHeadsEqual (heads1 heads2 : Heads) : bool :=
  if negb (List.length heads1 =? List.length heads2) then false
  else forallb (fun h => existsb (Nat.eqb h) heads1) heads2.

Definition create (handle : option Doc) : System :=
  {| manager := {| undoStack := []; redoStack := [];
                   currentHeads := option_map getHeads handle;
                   isUndoingOrRedoing := false |};
     handle := handle |}.

Definition onChange (doc : Doc) (m : Manager) : Manager :=
  if isUndoingOrRedoing m then m
  else
    let newHeads := getHeads doc in
    let recorded :=
      match currentHeads m with
      | Some current =>
          if negb (areHeadsEqual current newHeads)
          then (current :: undoStack m, [])
          else (undoStack m, redoStack m)
      | None => (undoStack m, redoStack m)
      end in
    {| undoStack := fst recorded; redoStack := snd recorded;
       currentHeads := Some newHeads;
       isUndoingOrRedoing := false |}.

(** A change made to the document by anyone but the manager: the document
    gets a new state and the [change] event reaches [onChange]. *)
Definition edit (v : Value) (x : System) : System :=
  match handle x with
  | Some doc =>
      let doc' := commit v doc in
      {| manager := onChange doc' (manager x); handle := Some doc' |}
  | None => x
  end.

Definition applyPatch (doc : Value) (patch : Patch) : Completion (option Value) :=
  match patch with
  | SpliceTextPatch path value =>
      match path with
      | [] => Throw "RangeError"
      | _ :: _ =>
          splice (removelast path) (toIndex (List.last path (Index 0))) value doc
      end
  | PutPatch [] _ | DelPatch [] _ | InsertPatch [] _ | IncPatch [] _
  | OtherPatch [] => OutOfModel
  | PutPatch path value =>
      atParent (removelast path) doc (putAct (List.last path (Index 0)) value)
  | DelPatch path length =>
      atParent (removelast path) doc (delAct (List.last path (Index 0)) length)
  | InsertPatch path values =>
      atParent (removelast path) doc (insertAct (List.last path (Index 0)) values)
  | IncPatch path value =>
      atParent (removelast path) doc (incAct (List.last path (Index 0)) value)
  | OtherPatch path =>
      atParent (removelast path) doc (fun _ => Return None)
  end.

(** [applyPatches], counting the operations the callback performs. *)
Fixpoint applyPatches (doc : Value) (patches : list Patch) (ops : nat)
  : Completion (Value * nat) :=
  match patches with
  | [] => Return (doc, ops)
  | patch :: rest =>
      match applyPatch doc patch with
      | Return (Some doc') => applyPatches doc' rest (S ops)
      | Return None => applyPatches doc rest ops
      | Throw e => Throw e
      | OutOfModel => OutOfModel
      end
  end.

Section Manager.

(** [Automerge.diff(doc, from, to)]. *)
Variable diff : Doc -> Heads -> Heads -> list Patch.

(** [handle.change(callback)]: a callback that performs no operation
    leaves the document as it is; otherwise the document gets a new state
    and the [change] event is delivered before [change] returns. *)
Definition handleChange (callback : Value -> Completion (Value * nat))
           (x : System) : Completion System :=
  match handle x with
  | None => Throw "DocHandle is not ready"
  | Some doc =>
      match callback (valueOf doc) with
      | Return (v, ops) =>
          if ops =? 0 then Return x
          else
            let doc' := commit v doc in
            Return {| manager := onChange doc' (manager x); handle := Some doc' |}
      | Throw e => Throw e
      | OutOfModel => OutOfModel
      end
  end.

Definition setFlag (b : bool) (m : Manager) : Manager :=
  {| undoStack := undoStack m; redoStack := redoStack m;
     currentHeads := currentHeads m; isUndoingOrRedoing := b |}.

Definition applyHeads (heads : Heads) (x : System) : Completion System :=
  let x1 := {| manager := setFlag true (manager x); handle := handle x |} in
  match handle x1 with
  | None => Return {| manager := setFlag false (manager x1); handle := handle x1 |}
  | Some doc =>
      let patches := diff doc (getHeads doc) heads in
      let changed :=
        if 0 <? List.length patches
        then handleChange (fun d => applyPatches d patches 0) x1
        else Return x1 in
      match changed with
      | Return x2 =>
          Return {| manager := {| undoStack := undoStack (manager x2);
                                  redoStack := redoStack (manager x2);
                                  currentHeads := Some heads;
                                  isUndoingOrRedoing := false |};
                    handle := handle x2 |}
      | Throw _ =>
          Return {| manager := setFlag false (manager x1); handle := handle x1 |}
      | OutOfModel => OutOfModel
      end
  end.

Definition undo (x : System) : Completion System :=
  match undoStack (manager x) with
  | [] => Return x
  | previousHeads :: rest =>
      let m1 := {| undoStack := rest; redoStack := redoStack (manager x);
                   currentHeads := currentHeads (manager x);
                   isUndoingOrRedoing := isUndoingOrRedoing (manager x) |} in
      match handle x, currentHeads m1 with
      | Some _, Some current =>
          applyHeads previousHeads
            {| manager := {| undoStack := undoStack m1;
                             redoStack := current :: redoStack m1;
                             currentHeads := currentHeads m1;
                             isUndoingOrRedoing := isUndoingOrRedoing m1 |};
               handle := handle x |}
      | _, _ => Return {| manager := m1; handle := handle x |}
      end
  end.

Definition redo (x : System) : Completion System :=
  match redoStack (manager x) with
  | [] => Return x
  | nextHeads :: rest =>
      let m1 := {| undoStack := undoStack (manager x); redoStack := rest;
                   currentHeads := currentHeads (manager x);
                   isUndoingOrRedoing := isUndoingOrRedoing (manager x) |} in
      match currentHeads m1 with
      | Some current =>
          applyHeads nextHeads
            {| manager := {| undoStack := current :: undoStack m1;
                             redoStack := redoStack m1;
                             currentHeads := currentHeads m1;
                             isUndoingOrRedoing := isUndoingOrRedoing m1 |};
               handle := handle x |}
      | None => Return {| manager := m1; handle := handle x |}
      end
  end.

(** [undo()] called [n] times. *)
Fixpoint undoTimes (n : nat) (x : System) : Completion System :=
  match n with
  | 0 => Return x
  | S n' =>
      match undo x with
      | Return x' => undoTimes n' x'
      | r => r
      end
  end.

End Manager.

(** The [files] projection of a document value. *)
Definition filesOf (v : Value) : option Value :=
  match v with
  | VMap o => JsObj.get "files" o
  | _ => None
  end.

Definition documentValue (x : System) : option Value :=
  option_map valueOf (handle x).

End UndoRedoManager.

(** ** SandboxManager: snapshots *)

Module SandboxManager.

(** The document schema: [files] and [metadata.lastSnapshot]. *)
Record OnlookDoc : Type := {
  files : gmap string string;
  lastSnapshot : option Z
}.

Definition emptyDoc : OnlookDoc := {| files := ∅; lastSnapshot := None |}.

(** One element of [Automerge.getHistory(doc)]. *)
Record Change : Type := { hash : string; message : option string; time : Z }.
Record HistoryState : Type := { change : Change; snapshot : OnlookDoc }.

(** The document: its changes, oldest first. *)
Definition Doc : Type := list HistoryState.

Definition currentDoc (doc : Doc) : OnlookDoc :=
  List.last (List.map snapshot doc) emptyDoc.

(** [handle.change(callback, { message })].  The callback returns the new
    content together with the number of operations it performed; without
    operations no change is made.  [newHash] and [now] are the hash and the
    time the change gets. *)
Definition handleChange (callback : OnlookDoc -> OnlookDoc * nat)
           (message : option string) (newHash : string) (now : Z) (doc : Doc)
  : Doc :=
  let (d, ops) := callback (currentDoc doc) in
  if ops =? 0 then doc
  else doc ++ [ {| change := {| hash := newHash; message := message; time := now |};
                   snapshot := d |} ].

(** [this.handle] ([None] is [null]) with the document its [doc()]
    resolves to ([None] is [undefined]), and [this.files]. *)
Record Manager : Type := {
  handle : option (option Doc);
  memoryFiles : gmap string string
}.

(** The listener [initSandpackMode] puts on the handle. *)
Definition onDocChange (doc : Doc) (m : Manager) : Manager :=
  {| handle := Some (Some doc); memoryFiles := files (currentDoc doc) |}.

Definition afterChange (before after : Doc) (m : Manager) : Manager :=
  if List.length before =? List.length after
  then {| handle := Some (Some after); memoryFiles := memoryFiles m |}
  else onDocChange after m.

Definition stampSnapshot (now : Z) (d : OnlookDoc) : OnlookDoc * nat :=
  ({| files := files d; lastSnapshot := Some now |},
   match lastSnapshot d with Some _ => 1 | None => 2 end).

Definition createSnapshot (message : string) (newHash : string) (now : Z)
           (m : Manager) : Completion Manager :=
  match handle m with
  | None => Return m
  | Some None => Throw "DocHandle is not ready"
  | Some (Some doc) =>
      Return (afterChange doc
                (handleChange (stampSnapshot now) (Some message) newHash now doc) m)
  end.

(** [!snapshotFiles[path]]. *)
Definition missingIn (snapshotFiles : gmap string string) (path : string) : bool :=
  match snapshotFiles !! path with
  | Some content => negb (Js.truthyStr content)
  | None => true
  end.

(** First loop of the callback of [restoreSnapshot]. *)
Definition removeStep (snapshotFiles : gmap string string)
           (acc : gmap string string * nat) (path : string)
  : gmap string string * nat :=
  if missingIn snapshotFiles path then (delete path (fst acc), S (snd acc)) else acc.

(** Second loop. *)
Definition updateStep (acc : gmap string string * nat) (entry : string * string)
  : gmap string string * nat :=
  match fst acc !! fst entry with
  | Some content =>
      if String.eqb content (snd entry) then acc
      else (<[fst entry := snd entry]> (fst acc), S (snd acc))
  | None => (<[fst entry := snd entry]> (fst acc), S (snd acc))
  end.

Definition revertTo (snapshotFiles : gmap string string) (d : OnlookDoc)
  : OnlookDoc * nat :=
  let removed :=
    fold_left (removeStep snapshotFiles) (map_to_list (files d)).*1
              (files d, 0) in
  let updated := fold_left updateStep (map_to_list snapshotFiles) removed in
  ({| files := fst updated; lastSnapshot := lastSnapshot d |}, snd updated).

Definition findSnapshot (target : string) (history : list HistoryState)
  : option HistoryState :=
  List.find (fun h => String.eqb (hash (change h)) target) history.

Definition restoreSnapshot (target : string) (newHash : string) (now : Z)
           (m : Manager) : Completion Manager :=
  match handle m with
  | None => Return m
  | Some None => Return m
  | Some (Some doc) =>
      match findSnapshot target doc with
      | None => Return m
      | Some found =>
          let snapshotFiles := files (snapshot found) in
          let doc' := handleChange (revertTo snapshotFiles)
                        (Some ("Revert to " +:+ target)) newHash now doc in
          let m1 := afterChange doc doc' m in
          Return {| handle := handle m1; memoryFiles := snapshotFiles |}
      end
  end.

(** [checkoutAndSave]; the two changes get the hashes and times
    [(hash1, now1)] and [(hash2, now2)]. *)
Definition checkoutAndSave (target saveMessage : string)
           (hash1 : string) (now1 : Z) (hash2 : string) (now2 : Z)
           (m : Manager) : Completion Manager :=
  match createSnapshot saveMessage hash1 now1 m with
  | Return m1 => restoreSnapshot target hash2 now2 m1
  | r => r
  end.

Record HistoryEntry : Type := {
  oid : string;
  entryMessage : string;
  timestamp : Z;
  author : string;
  entryFiles : gmap string string
}.

Definition getHistory (m : Manager) : list HistoryEntry :=
  match handle m with
  | Some (Some doc) =>
      List.map (fun state =>
                  {| oid := hash (change state);
                     entryMessage :=
                       match message (change state) with
                       | Some text => if Js.truthyStr text then text else "No message"
                       | None => "No message"
                       end;
                     timestamp := time (change state);
                     author := "Onlook User";
                     entryFiles := files (snapshot state) |}) doc
  | _ => []
  end.

End SandboxManager.

(** ** A JSON codec

    [JSON.parse] and [JSON.stringify(_, null, 2)] are parameters of the
    adapter.  This codec instantiates them where a run is evaluated: text
    of code units below 256, numbers printed as [mantissa] followed by
    [e exponent] when the exponent is not zero. *)

Module JsonText.

Import Json.

Definition dq : ascii := ascii_of_nat 34.
Definition quote : string := String dq EmptyString.

Definition hexDigit (n : nat) : ascii :=
  if n <? 10 then ascii_of_nat (48 + n) else ascii_of_nat (87 + n).

Definition escapeChar (c : ascii) : string :=
  let n := Js.code c in
  if n =? 34 then "\" +:+ quote
  else if n =? 92 then "\\"
  else if n =? 8 then "\b"
  else if n =? 12 then "\f"
  else if n =? 10 then "\n"
  else if n =? 13 then "\r"
  else if n =? 9 then "\t"
  else if n <? 32 then
    "\u00" +:+ String (hexDigit (n / 16)) (String (hexDigit (n mod 16)) EmptyString)
  else String c EmptyString.

Fixpoint escape (s : string) : string :=
  match s with
  | EmptyString => EmptyString
  | String c s' => escapeChar c +:+ escape s'
  end.

Definition quoted (s : string) : string := quote +:+ escape s +:+ quote.

Definition intToString (z : Z) : string :=
  match z with
  | Z0 => "0"
  | Zpos p => Js.natToString (Pos.to_nat p)
  | Zneg p => "-" +:+ Js.natToString (Pos.to_nat p)
  end.

Fixpoint stringifyAt (indent : string) (v : value) : string :=
  match v with
  | Null => "null"
  | Bool true => "true"
  | Bool false => "false"
  | Number m e =>
      if (e =? 0)%Z then intToString m
      else intToString m +:+ "e" +:+ intToString e
  | Str s => quoted s
  | Arr [] => "[]"
  | Arr l =>
      let inner := indent +:+ "  " in
      "[" +:+ Js.LF
      +:+ Js.join ("," +:+ Js.LF)
            (List.map (fun x => inner +:+ stringifyAt inner x) l)
      +:+ Js.LF +:+ indent +:+ "]"
  | Obj [] => "{}"
  | Obj o =>
      let inner := indent +:+ "  " in
      "{" +:+ Js.LF
      +:+ Js.join ("," +:+ Js.LF)
            (List.map (fun kv => inner +:+ quoted (fst kv) +:+ ": "
                                 +:+ stringifyAt inner (snd kv)) o)
      +:+ Js.LF +:+ indent +:+ "}"
  end.

(** [JSON.stringify(v, null, 2)]. *)
Definition stringify (v : value) : string := stringifyAt EmptyString v.

Definition isJsonSpace (c : ascii) : bool :=
  let n := Js.code c in (n =? 32) || (n =? 9) || (n =? 10) || (n =? 13).

Fixpoint skipSpace (s : string) : string :=
  match s with
  | String c s' => if isJsonSpace c then skipSpace s' else s
  | EmptyString => s
  end.

Definition hexValue (c : ascii) : option nat :=
  let n := Js.code c in
  if (48 <=? n) && (n <=? 57) then Some (n - 48)
  else if (97 <=? n) && (n <=? 102) then Some (n - 87)
  else if (65 <=? n) && (n <=? 70) then Some (n - 55)
  else None.

(** The characters of a string literal after its opening quote. *)
Fixpoint parseChars (s : string) (acc : string) : option (string * string) :=
  match s with
  | EmptyString => None
  | String c s' =>
      let n := Js.code c in
      if n =? 34 then Some (acc, s')
      else if n <? 32 then None
      else if n =? 92 then
        match s' with
        | String e s'' =>
            let m := Js.code e in
            let simple (x : nat) := parseChars s'' (acc +:+ String (ascii_of_nat x) EmptyString) in
            if m =? 34 then simple 34
            else if m =? 92 then simple 92
            else if m =? 47 then simple 47
            else if m =? 98 then simple 8
            else if m =? 102 then simple 12
            else if m =? 110 then simple 10
            else if m =? 114 then simple 13
            else if m =? 116 then simple 9
            else if m =? 117 then
              match s'' with
              | String h1 (String h2 (String h3 (String h4 s3))) =>
                  match hexValue h1, hexValue h2, hexValue h3, hexValue h4 with
                  | Some 0, Some 0, Some a, Some b =>
                      parseChars s3 (acc +:+ String (ascii_of_nat (16 * a + b)) EmptyString)
                  | _, _, _, _ => None
                  end
              | _ => None
              end
            else None
        | EmptyString => None
        end
      else parseChars s' (acc +:+ String c EmptyString)
  end.

(** A run of decimal digits: its value, its length and the rest. *)
Fixpoint parseDigits (s : string) (acc : Z) (count : nat) : Z * nat * string :=
  match s with
  | String c s' =>
      match JsObj.digitOf c with
      | Some d => parseDigits s' (10 * acc + Z.of_N d)%Z (S count)
      | None => (acc, count, s)
      end
  | EmptyString => (acc, count, s)
  end.

Definition parseNumber (s : string) : option (value * string) :=
  let (negative, s1) :=
    match s with
    | String "-" s' => (true, s')
    | _ => (false, s)
    end in
  let '(int, n, s2) := parseDigits s1 0%Z 0 in
  let leadingZero := match s1 with String "0" _ => true | _ => false end in
  if (n =? 0) || (leadingZero && (1 <? n)) then None
  else
    let '(frac, k, s3, okFrac) :=
      match s2 with
      | String "." s' =>
          let '(f, k, r) := parseDigits s' int 0 in (f, k, r, 0 <? k)
      | _ => (int, 0, s2, true)
      end in
    let '(ex, s4, okExp) :=
      match s3 with
      | String c s' =>
          if (Js.code c =? 101) || (Js.code c =? 69) then
            let (sign, s'') :=
              match s' with
              | String "-" r => ((-1)%Z, r)
              | String "+" r => (1%Z, r)
              | _ => (1%Z, s')
              end in
            let '(x, j, r) := parseDigits s'' 0%Z 0 in ((sign * x)%Z, r, 0 <? j)
          else (0%Z, s3, true)
      | EmptyString => (0%Z, s3, true)
      end in
    if okFrac && okExp then
      Some (Number (if negative then - frac else frac)%Z (ex - Z.of_nat k)%Z, s4)
    else None.

Definition expect (word : string) (v : value) (s : string) : option (value * string) :=
  if Js.startsWith s word then Some (v, Js.drop (String.length word) s) else None.

(** A value at the head of [s]; every call consumes input, so a fuel of
    the length of the text is never exhausted. *)
Fixpoint parseValue (fuel : nat) (s : string) : option (value * string) :=
  match fuel with
  | 0 => None
  | S fuel' =>
      let fix elements (n : nat) (s : string) (acc : list value)
        : option (list value * string) :=
        match n with
        | 0 => None
        | S n' =>
            match parseValue fuel' (skipSpace s) with
            | Some (v, rest) =>
                match skipSpace rest with
                | String "," rest' => elements n' rest' (acc ++ [v])
                | String "]" rest' => Some (acc ++ [v], rest')
                | _ => None
                end
            | None => None
            end
        end in
      let fix members (n : nat) (s : string) (acc : list (string * value))
        : option (list (string * value) * string) :=
        match n with
        | 0 => None
        | S n' =>
            match skipSpace s with
            | String c afterQuote =>
                if Js.code c =? 34 then
                  match parseChars afterQuote EmptyString with
                  | Some (key, rest) =>
                      match skipSpace rest with
                      | String ":" rest1 =>
                          match parseValue fuel' (skipSpace rest1) with
                          | Some (v, rest2) =>
                              match skipSpace rest2 with
                              | String "," rest3 => members n' rest3 (JsObj.set key v acc)
                              | String "}" rest3 => Some (JsObj.set key v acc, rest3)
                              | _ => None
                              end
                          | None => None
                          end
                      | _ => None
                      end
                  | None => None
                  end
                else None
            | EmptyString => None
            end
        end in
      match s with
      | EmptyString => None
      | String c s' =>
          let n := Js.code c in
          if n =? 34 then
            match parseChars s' EmptyString with
            | Some (text, rest) => Some (Str text, rest)
            | None => None
            end
          else if n =? 91 then
            match skipSpace s' with
            | String "]" rest => Some (Arr [], rest)
            | _ =>
                match elements fuel' s' [] with
                | Some (l, rest) => Some (Arr l, rest)
                | None => None
                end
            end
          else if n =? 123 then
            match skipSpace s' with
            | String "}" rest => Some (Obj [], rest)
            | _ =>
                match members fuel' s' [] with
                | Some (o, rest) => Some (Obj o, rest)
                | None => None
                end
            end
          else if n =? 116 then expect "true" (Bool true) s
          else if n =? 102 then expect "false" (Bool false) s
          else if n =? 110 then expect "null" Null s
          else parseNumber s
      end
  end.

(** [JSON.parse(text)]; [None] when it throws. *)
Definition parse (text : string) : option value :=
  match parseValue (S (String.length text)) (skipSpace text) with
  | Some (v, rest) =>
      match skipSpace rest with
      | EmptyString => Some v
      | _ => None
      end
  | None => None
  end.

End JsonText.

(** ** PseudoTerminal *)

Module PseudoTerminal.

(** A function registered with [onOutput]; two registrations of the same
    function carry the same number. *)
Definition Callback : Type := nat.

Record Terminal : Type := {
  outputCallbacks : list Callback;
  cwd : string
}.

Definition create : Terminal :=
  {| outputCallbacks := []; cwd := "/project/sandbox" |}.

Definition CRLF : string :=
  String (ascii_of_nat 13) (String (ascii_of_nat 10) EmptyString).

Definition ESC : string := String (ascii_of_nat 27) EmptyString.

(** [p.startsWith('/') ? p : '/' + p]. *)
Definition rooted (p : string) : string :=
  if Js.startsWith p "/" then p else "/" +:+ p.

(** The loop of [handleLs]. *)
Fixpoint lsEntries (dir dirPrefix : string) (paths entries : list string)
  : list string :=
  match paths with
  | [] => entries
  | filePath :: rest =>
      let normalized := rooted filePath in
      if Js.startsWith normalized dirPrefix then
        let seg := SandpackAdapter.firstSegment
                     (Js.sliceFrom (Z.of_nat (String.length dirPrefix)) normalized) in
        lsEntries dir dirPrefix rest
          (if Js.truthyStr seg then SandpackAdapter.setAdd seg entries else entries)
      else if String.eqb dir "/" || String.eqb dir EmptyString then
        let seg := SandpackAdapter.firstSegment (Js.sliceFrom 1 normalized) in
        lsEntries dir dirPrefix rest
          (if Js.truthyStr seg then SandpackAdapter.setAdd seg entries else entries)
      else lsEntries dir dirPrefix rest entries
  end.

(** [handleLs(targetDir)], [None] being [undefined]. *)
Definition handleLs (files : JsObj.t string) (targetDir : option string) : string :=
  let dir :=
    match targetDir with
    | Some target => if Js.truthyStr target then rooted target else "/"
    | None => "/"
    end in
  let dirPrefix := if Js.endsWith dir "/" then dir else dir +:+ "/" in
  match lsEntries dir dirPrefix (JsObj.keys files) [] with
  | [] =>
      "ls: cannot access '"
      +:+ match targetDir with Some target => target | None => "/" end
      +:+ "': No such file or directory"
  | entries => Js.join "  " (Js.sort entries)
  end.

Definition handleCat (files : JsObj.t string) (path : string) : string :=
  match JsObj.get (rooted path) files with
  | Some content => content
  | None =>
      match JsObj.get path files with
      | Some content => content
      | None => "cat: " +:+ path +:+ ": No such file or directory"
      end
  end.

Definition helpText : string :=
  Js.join CRLF
    [ "Available commands:";
      "  ls [path]     - List files";
      "  pwd           - Print working directory";
      "  cat <file>    - Display file contents";
      "  echo <text>   - Echo text";
      "  cd <dir>      - Change directory";
      "  clear         - Clear terminal";
      "  help          - Show this help";
      "" ].

(** [executeCommand]: the terminal afterwards and the output. *)
Definition executeCommand (files : JsObj.t string) (command : string) (t : Terminal)
  : Terminal * string :=
  let parts := Js.splitWs command in
  let cmd := Js.toLowerCase (hd EmptyString parts) in
  if String.eqb cmd "pwd" then (t, cwd t +:+ CRLF)
  else if String.eqb cmd "ls" then (t, handleLs files (nth_error parts 1) +:+ CRLF)
  else if String.eqb cmd "cat" then
    match nth_error parts 1 with
    | Some path =>
        if Js.truthyStr path then (t, handleCat files path +:+ CRLF)
        else (t, "cat: missing operand" +:+ CRLF)
    | None => (t, "cat: missing operand" +:+ CRLF)
    end
  else if String.eqb cmd "echo" then
    (t, SandpackAdapter.stripQuotes (Js.join " " (tl parts)) +:+ CRLF)
  else if String.eqb cmd "cd" then
    let target := match nth_error parts 1 with Some p => p | None => "/" end in
    ({| outputCallbacks := outputCallbacks t;
        cwd := if Js.startsWith target "/" then target
               else cwd t +:+ "/" +:+ target |}, EmptyString)
  else if String.eqb cmd "clear" then (t, ESC +:+ "[2J" +:+ ESC +:+ "[H")
  else if String.eqb cmd "help" then (t, helpText)
  else
    (t, ESC +:+ "[33m[sandbox]" +:+ ESC
        +:+ "[0m Command not available in browser sandbox: " +:+ command +:+ CRLF).

(** [emitOutput]: every registered callback is called with the data, in
    the order of registration. *)
Definition emitOutput (t : Terminal) (data : string) : list (Callback * string) :=
  List.map (fun callback => (callback, data)) (outputCallbacks t).

(** [write] (and [run], which awaits it): the terminal afterwards and the
    calls made to the callbacks. *)
Definition write (files : JsObj.t string) (input : string) (t : Terminal)
  : Terminal * list (Callback * string) :=
  let command := Js.trim input in
  if negb (Js.truthyStr command) then (t, [])
  else
    let (t', output) := executeCommand files command t in
    (t', emitOutput t' output).

Definition kill (t : Terminal) : Terminal :=
  {| outputCallbacks := []; cwd := cwd t |}.

Definition onOutput (callback : Callback) (t : Terminal) : Terminal :=
  {| outputCallbacks := outputCallbacks t ++ [callback]; cwd := cwd t |}.

(** The function [onOutput(callback)] returns. *)
Definition unsubscribe (callback : Callback) (t : Terminal) : Terminal :=
  {| outputCallbacks :=
       List.filter (fun cb => negb (Nat.eqb cb callback)) (outputCallbacks t);
     cwd := cwd t |}.

Definition pushConsoleOutput (message : string) (t : Terminal)
  : list (Callback * string) :=
  emitOutput t (ESC +:+ "[90m[console]" +:+ ESC +:+ "[0m " +:+ message +:+ CRLF).

(** What can happen to a terminal, one call after the other; [files] is
    what [getFiles()] answers during the call. *)
Inductive Action : Type :=
| CallWrite (files : JsObj.t string) (input : string)
| CallKill
| CallOnOutput (callback : Callback)
| CallUnsubscribe (callback : Callback)
| CallPushConsoleOutput (message : string).

(** The terminal with every call made to a callback so far. *)
Record World : Type := {
  terminal : Terminal;
  delivered : list (Callback * string)
}.

Definition step (x : World) (a : Action) : World :=
  match a with
  | CallWrite files input =>
      let (t', calls) := write files input (terminal x) in
      {| terminal := t'; delivered := delivered x ++ calls |}
  | CallKill => {| terminal := kill (terminal x); delivered := delivered x |}
  | CallOnOutput callback =>
      {| terminal := onOutput callback (terminal x); delivered := delivered x |}
  | CallUnsubscribe callback =>
      {| terminal := unsubscribe callback (terminal x); delivered := delivered x |}
  | CallPushConsoleOutput message =>
      {| terminal := terminal x;
         delivered := delivered x ++ pushConsoleOutput message (terminal x) |}
  end.

Definition run (x : World) (actions : list Action) : World :=
  fold_left step actions x.

Definition registeredBy (actions : list Action) : list Callback :=
  List.concat (List.map (fun a => match a with
                                  | CallOnOutput callback => [callback]
                                  | _ => []
                                  end) actions).

End PseudoTerminal.

(** ** DependencyPolyfill *)

Module DependencyPolyfill.

(** The own enumerable properties [{ ...v }] copies. *)
Definition indexed (l : list Json.value) : JsObj.t Json.value :=
  List.combine (List.map Js.natToString (List.seq 0 (List.length l))) l.

Fixpoint codeUnits (s : string) : list Json.value :=
  match s with
  | EmptyString => []
  | String c s' => Json.Str (String c EmptyString) :: codeUnits s'
  end.

Definition spread (v : Json.value) : JsObj.t Json.value :=
  match v with
  | Json.Obj o => JsObj.copy o
  | Json.Arr l => indexed l
  | Json.Str s => indexed (codeUnits s)
  | Json.Null | Json.Bool _ | Json.Number _ _ => []
  end.

(** [{ ...(parsed[k] ?? {}) }]. *)
Definition tableOf (k : string) (parsed : Json.value)
  : Completion (JsObj.t Json.value) :=
  match parsed with
  | Json.Null => Throw "TypeError"
  | Json.Obj o =>
      match JsObj.get k o with
      | Some Json.Null | None => Return []
      | Some v => Return (spread v)
      end
  | Json.Bool _ | Json.Number _ _ | Json.Str _ | Json.Arr _ => Return []
  end.

Definition defaultPackageJson : Json.value :=
  Json.Obj [ ("name", Json.Str "sandbox"); ("version", Json.Str "1.0.0") ].

Definition defaultPath (pkgJsonPath : option string) : string :=
  match pkgJsonPath with Some p => p | None => "/package.json" end.

Definition defaultVersion (version : option string) : string :=
  match version with Some v => v | None => "latest" end.

Section Polyfill.

(** [JSON.parse] ([None] when it throws) and [JSON.stringify(_, null, 2)]
    of the runtime. *)
Variable JSON_parse : string -> option Json.value.
Variable JSON_stringify : Json.value -> string.

Definition parseDependencies (packageJsonContent : string) : JsObj.t Json.value :=
  match JSON_parse packageJsonContent with
  | Some parsed =>
      match tableOf "dependencies" parsed with
      | Return deps => deps
      | _ => []
      end
  | None => []
  end.

Definition parseAllDependencies (packageJsonContent : string)
  : JsObj.t Json.value * JsObj.t Json.value :=
  match JSON_parse packageJsonContent with
  | Some parsed =>
      match tableOf "dependencies" parsed, tableOf "devDependencies" parsed with
      | Return deps, Return devDeps => (deps, devDeps)
      | _, _ => ([], [])
      end
  | None => ([], [])
  end.

(** The [try] block of [addDependency]. *)
Definition loadPackageJson (files : JsObj.t string) (path : string) : Json.value :=
  match JsObj.get path files with
  | Some existing =>
      if Js.truthyStr existing then
        match JSON_parse existing with
        | Some v => v
        | None => defaultPackageJson
        end
      else defaultPackageJson
  | None => defaultPackageJson
  end.

(** [addDependency(files, name, version, pkgJsonPath)], an omitted
    argument being [None]: the file map afterwards and the table
    returned. *)
Definition addDependency (files : JsObj.t string) (name : string)
           (version pkgJsonPath : option string)
  : JsObj.t string * Completion (JsObj.t Json.value) :=
  let path := defaultPath pkgJsonPath in
  match SandpackAdapter.ensureDependencies (loadPackageJson files path) with
  | Return (members, deps) =>
      let deps' := JsObj.set name (Json.Str (defaultVersion version)) deps in
      let packageJson := Json.Obj (JsObj.set "dependencies" (Json.Obj deps') members) in
      (JsObj.set path (JSON_stringify packageJson) files, Return (JsObj.copy deps'))
  | Throw e => (files, Throw e)
  | OutOfModel => (files, OutOfModel)
  end.

(** [removeDependency(files, name, pkgJsonPath)]. *)
Definition removeDependency (files : JsObj.t string) (name : string)
           (pkgJsonPath : option string)
  : JsObj.t string * Completion (JsObj.t Json.value) :=
  let path := defaultPath pkgJsonPath in
  match JsObj.get path files with
  | None => (files, Return [])
  | Some existing =>
      if negb (Js.truthyStr existing) then (files, Return [])
      else
        match JSON_parse existing with
        | None => (files, Return [])
        | Some packageJson =>
            let unchanged :=
              (JsObj.set path (JSON_stringify packageJson) files, Return []) in
            match packageJson with
            | Json.Null => (files, Throw "TypeError")
            | Json.Obj o =>
                match JsObj.get "dependencies" o with
                | Some d =>
                    if Json.truthy d then
                      match d with
                      | Json.Obj deps =>
                          let deps' := JsObj.delete name deps in
                          (JsObj.set path
                             (JSON_stringify
                                (Json.Obj (JsObj.set "dependencies" (Json.Obj deps') o)))
                             files,
                           Return (JsObj.copy deps'))
                      | _ => (files, OutOfModel)
                      end
                    else unchanged
                | None => unchanged
                end
            | Json.Bool _ | Json.Number _ _ | Json.Str _ | Json.Arr _ => unchanged
            end
        end
  end.

End Polyfill.

End DependencyPolyfill.

(* ===================================================================== *)
(** * Part II: properties                                                 *)
(* ===================================================================== *)

(** ** Dictionaries *)

Section JsObjFacts.

Context {V : Type}.
Implicit Types (o : JsObj.t V) (k : string) (v : V).

Lemma get_app_None o o' k :
  JsObj.get k o = None -> JsObj.get k (o ++ o') = JsObj.get k o'.
Proof.
  induction o as [|[k0 v0] o IH]; simpl; [reflexivity|].
  destruct (String.eqb k0 k); [discriminate | exact IH].
Qed.

Lemma get_replace_eq o k v :
  JsObj.has k o = true -> JsObj.get k (JsObj.replace k v o) = Some v.
Proof.
  unfold JsObj.has.
  induction o as [|[k0 v0] o IH]; simpl; [discriminate|].
  destruct (String.eqb k0 k) eqn:E; simpl; rewrite E; [reflexivity | exact IH].
Qed.

Lemma get_replace_ne o k k' v :
  k <> k' -> JsObj.get k' (JsObj.replace k v o) = JsObj.get k' o.
Proof.
  intros Hne.
  induction o as [|[k0 v0] o IH]; simpl; [reflexivity|].
  destruct (String.eqb k0 k) eqn:E; simpl.
  - apply String.eqb_eq in E; subst k0.
    destruct (String.eqb_spec k k'); [contradiction | reflexivity].
  - destruct (String.eqb k0 k'); [reflexivity | exact IH].
Qed.

Lemma get_insertIndex_eq o i k v :
  JsObj.get k o = None -> JsObj.get k (JsObj.insertIndex i k v o) = Some v.
Proof.
  induction o as [|[k0 v0] o IH]; simpl; intros Hk.
  - rewrite String.eqb_refl; reflexivity.
  - destruct (String.eqb k0 k) eqn:E; [discriminate|].
    destruct (JsObj.arrayIndex k0) as [j|]; simpl.
    + destruct (i <? j)%N; simpl.
      * rewrite String.eqb_refl; reflexivity.
      * rewrite E; auto.
    + rewrite String.eqb_refl; reflexivity.
Qed.

Lemma get_insertIndex_ne o i k k' v :
  k <> k' -> JsObj.get k' (JsObj.insertIndex i k v o) = JsObj.get k' o.
Proof.
  intros Hne.
  assert (Hkk : String.eqb k k' = false) by (apply String.eqb_neq; exact Hne).
  induction o as [|[k0 v0] o IH]; simpl.
  - rewrite Hkk; reflexivity.
  - destruct (JsObj.arrayIndex k0) as [j|]; simpl.
    + destruct (i <? j)%N; simpl.
      * rewrite Hkk; reflexivity.
      * destruct (String.eqb k0 k'); [reflexivity | exact IH].
    + rewrite Hkk; reflexivity.
Qed.

Lemma has_get o k : JsObj.has k o = true <-> exists v, JsObj.get k o = Some v.
Proof.
  unfold JsObj.has; destruct (JsObj.get k o); split; intros H; eauto;
    try discriminate; destruct H; discriminate.
Qed.

Lemma has_false_get o k : JsObj.has k o = false <-> JsObj.get k o = None.
Proof.
  unfold JsObj.has; destruct (JsObj.get k o); split; intros H;
    auto; discriminate.
Qed.

(** Reading back what was written. *)
Lemma get_set_eq o k v : JsObj.get k (JsObj.set k v o) = Some v.
Proof.
  unfold JsObj.set.
  destruct (JsObj.has k o) eqn:E.
  - apply get_replace_eq; exact E.
  - apply has_false_get in E.
    destruct (JsObj.arrayIndex k).
    + apply get_insertIndex_eq; exact E.
    + rewrite get_app_None by exact E. simpl.
      rewrite String.eqb_refl; reflexivity.
Qed.

(** A write leaves the other keys alone. *)
Lemma get_set_ne o k k' v :
  k <> k' -> JsObj.get k' (JsObj.set k v o) = JsObj.get k' o.
Proof.
  intros Hne. unfold JsObj.set.
  destruct (JsObj.has k o).
  - apply get_replace_ne; exact Hne.
  - destruct (JsObj.arrayIndex k).
    + apply get_insertIndex_ne; exact Hne.
    + induction o as [|[k0 v0] o IH]; simpl.
      * apply String.eqb_neq in Hne; rewrite Hne; reflexivity.
      * destruct (String.eqb k0 k'); [reflexivity | exact IH].
Qed.

Lemma get_delete_eq o k : JsObj.get k (JsObj.delete k o) = None.
Proof.
  unfold JsObj.delete.
  induction o as [|[k0 v0] o IH]; simpl; [reflexivity|].
  destruct (String.eqb k0 k) eqn:E; simpl; [exact IH|].
  rewrite E; exact IH.
Qed.

Lemma get_delete_ne o k k' :
  k <> k' -> JsObj.get k' (JsObj.delete k o) = JsObj.get k' o.
Proof.
  intros Hne. unfold JsObj.delete.
  induction o as [|[k0 v0] o IH]; simpl; [reflexivity|].
  destruct (String.eqb k0 k) eqn:E; simpl.
  - apply String.eqb_eq in E; subst k0.
    apply String.eqb_neq in Hne; rewrite Hne; exact IH.
  - destruct (String.eqb k0 k'); [reflexivity | exact IH].
Qed.

Lemma in_keys_get o k :
  In k (JsObj.keys o) <-> exists v, JsObj.get k o = Some v.
Proof.
  unfold JsObj.keys.
  induction o as [|[k0 v0] o IH]; simpl.
  - split; [intros [] | intros [v Hv]; discriminate].
  - destruct (String.eqb_spec k0 k) as [->|Hne].
    + split; eauto.
    + rewrite <- IH. split; [intros [H|H]; [contradiction | exact H] | auto].
Qed.

Lemma in_keys_has o k : In k (JsObj.keys o) <-> JsObj.has k o = true.
Proof. rewrite in_keys_get, has_get; reflexivity. Qed.

End JsObjFacts.

(** ** SandpackAdapter: writes that are refused *)

(** An extension is a dot followed by code units other than a dot. *)
Fixpoint dotFree (s : string) : bool :=
  match s with
  | EmptyString => true
  | String c s' => negb (Ascii.eqb c ".") && dotFree s'
  end.

Definition isExtension (e : string) : bool :=
  match e with
  | String c r => Ascii.eqb c "." && dotFree r
  | EmptyString => false
  end.

Lemma string_length_app (a b : string) :
  String.length (a +:+ b) = String.length a + String.length b.
Proof. induction a; simpl; [reflexivity | rewrite IHa; reflexivity]. Qed.

Lemma drop_app (a b : string) : Js.drop (String.length a) (a +:+ b) = b.
Proof. induction a; simpl; [destruct b; reflexivity | exact IHa]. Qed.

Lemma lastIndexOfFrom_app (c : ascii) (a s : string) (pos found : Z) :
  Js.lastIndexOfFrom c (a +:+ s) pos found
  = Js.lastIndexOfFrom c s (pos + Z.of_nat (String.length a))
      (Js.lastIndexOfFrom c a pos found).
Proof.
  revert pos found.
  induction a as [|c' a IH]; intros pos found.
  - simpl. f_equal. lia.
  - change (String c' a +:+ s) with (String c' (a +:+ s)).
    cbn [Js.lastIndexOfFrom String.length]. rewrite IH. f_equal. lia.
Qed.

Lemma lastIndexOfFrom_dotFree (r : string) (pos found : Z) :
  dotFree r = true -> Js.lastIndexOfFrom "." r pos found = found.
Proof.
  revert pos found.
  induction r as [|c r IH]; intros pos found H; simpl in *; [reflexivity|].
  apply andb_true_iff in H as [Hc Hr].
  rewrite IH by exact Hr.
  destruct (Ascii.eqb c "."); [discriminate | reflexivity].
Qed.

Lemma lastIndexOf_extension (a e : string) :
  isExtension e = true ->
  Js.lastIndexOf (a +:+ e) "." = Z.of_nat (String.length a).
Proof.
  destruct e as [|c r]; simpl; [discriminate|].
  intros H. apply andb_true_iff in H as [Hc Hr].
  unfold Js.lastIndexOf. rewrite lastIndexOfFrom_app.
  cbn [Js.lastIndexOfFrom]. rewrite Hc.
  rewrite lastIndexOfFrom_dotFree by exact Hr. lia.
Qed.

(** The suffix the adapter looks at is the extension itself. *)
Lemma sliceFrom_extension (a e : string) :
  isExtension e = true ->
  Js.sliceFrom (Js.lastIndexOf (a +:+ e) ".") (a +:+ e) = e.
Proof.
  intros H. rewrite lastIndexOf_extension by exact H.
  unfold Js.sliceFrom, Js.clampIndex.
  rewrite string_length_app.
  destruct (Z.ltb_spec (Z.of_nat (String.length a)) 0); [lia|].
  rewrite Z.min_l by lia.
  rewrite Nat2Z.id. apply drop_app.
Qed.

Lemma toLowerChar_dot (c : ascii) :
  Ascii.eqb (Js.toLowerChar c) "." = Ascii.eqb c ".".
Proof.
  destruct c as [b0 b1 b2 b3 b4 b5 b6 b7].
  destruct b0, b1, b2, b3, b4, b5, b6, b7; reflexivity.
Qed.

Lemma dotFree_lower (r : string) : dotFree (Js.toLowerCase r) = dotFree r.
Proof.
  induction r as [|c r IH]; simpl; [reflexivity|].
  rewrite toLowerChar_dot, IH; reflexivity.
Qed.

Lemma isExtension_lower (e : string) :
  isExtension (Js.toLowerCase e) = isExtension e.
Proof.
  destruct e as [|c r]; simpl; [reflexivity|].
  rewrite toLowerChar_dot, dotFree_lower; reflexivity.
Qed.

Lemma extensions_wellformed :
  forallb isExtension SandpackAdapter.BINARY_EXTENSIONS = true.
Proof. vm_compute; reflexivity. Qed.

(** A path that ends in one of the listed extensions, in any letter case,
    is a binary path. *)
Lemma isBinaryPath_extension (a e : string) :
  In (Js.toLowerCase e) SandpackAdapter.BINARY_EXTENSIONS ->
  SandpackAdapter.isBinaryPath (a +:+ e) = true.
Proof.
  intros Hin.
  assert (Hext : isExtension e = true).
  { rewrite <- isExtension_lower.
    pose proof extensions_wellformed as Hall.
    rewrite forallb_forall in Hall. apply Hall; exact Hin. }
  unfold SandpackAdapter.isBinaryPath.
  rewrite sliceFrom_extension by exact Hext.
  apply existsb_exists. exists (Js.toLowerCase e).
  split; [exact Hin | apply String.eqb_refl].
Qed.

Lemma normalizePath_keeps_suffix (stem e : string) :
  exists a, SandpackAdapter.normalizePath (stem +:+ e) = a +:+ e.
Proof.
  unfold SandpackAdapter.normalizePath.
  destruct (negb (Js.startsWith (stem +:+ e) "/")).
  - exists ("/" +:+ stem); reflexivity.
  - exists stem; reflexivity.
Qed.

(** C6.  Whatever the callbacks, [writeFile] with a [Uint8Array] returns
    normally and calls none of them, so the host state (and with it the
    file map) is what it was; the same holds for a string written to a path
    that ends in one of the binary extensions, in any letter case, such as
    [writeFile('/x.png', 'text')]. *)
Theorem writeFile_refuses_binary :
  forall (S R : Type) (callbacks : SandpackAdapter.SandpackAdapterCallbacks S R)
         (s : S),
    (forall path bytes,
        SandpackAdapter.writeFile callbacks path (SandpackAdapter.Binary bytes) s
        = (s, Return tt))
    /\ (forall stem ext text,
           In (Js.toLowerCase ext) SandpackAdapter.BINARY_EXTENSIONS ->
           SandpackAdapter.writeFile callbacks (stem +:+ ext)
             (SandpackAdapter.Text text) s
           = (s, Return tt))
    /\ SandpackAdapter.writeFile callbacks "/x.png" (SandpackAdapter.Text "text") s
       = (s, Return tt).
Proof.
  intros S R callbacks s.
  assert (Hext : forall stem ext text,
             In (Js.toLowerCase ext) SandpackAdapter.BINARY_EXTENSIONS ->
             SandpackAdapter.writeFile callbacks (stem +:+ ext)
               (SandpackAdapter.Text text) s = (s, Return tt)).
  { intros stem ext text Hin. unfold SandpackAdapter.writeFile.
    destruct (normalizePath_keeps_suffix stem ext) as [a ->].
    rewrite isBinaryPath_extension by exact Hin. reflexivity. }
  split; [reflexivity|]. split; [exact Hext|].
  apply (Hext "/x" ".png" "text"). vm_compute. auto.
Qed.

(** A text file is written: the refusal is about binary paths only. *)
Example writeFile_text_is_written :
  SandpackAdapter.files
    (fst (SandpackAdapter.writeFile SandpackAdapter.mapCallbacks "App.js"
            (SandpackAdapter.Text "new content") (SandpackAdapter.hostOf [])))
  = [("/App.js", "new content")].
Proof. reflexivity. Qed.

Lemma writeFile_refuses_binary_witness :
  SandpackAdapter.writeFile SandpackAdapter.mapCallbacks "/photo.JPG"
    (SandpackAdapter.Text "binary data")
    (SandpackAdapter.hostOf [("/App.js", "app")])
  = (SandpackAdapter.hostOf [("/App.js", "app")], Return tt).
Proof.
  apply (proj1 (proj2 (writeFile_refuses_binary SandpackAdapter.MapHost unit
                         SandpackAdapter.mapCallbacks
                         (SandpackAdapter.hostOf [("/App.js", "app")])))
           "/photo" ".JPG" "binary data").
  vm_compute. do 1 right. left. reflexivity.
Defined.

(** ** SandpackAdapter: renameFile *)

(** The example of the adapter's test-suite: a directory is renamed. *)
Example renameFile_directory_example :
  SandpackAdapter.files
    (fst (SandpackAdapter.renameFile SandpackAdapter.mapCallbacks "/src" "/lib"
            (SandpackAdapter.hostOf [("/src/a.js", "a"); ("/src/b.js", "b")])))
  = [("/lib/a.js", "a"); ("/lib/b.js", "b")].
Proof. reflexivity. Qed.


(** *** Renaming a directory into a free place *)

Lemma prefix_app (p r : string) : String.prefix p (p +:+ r) = true.
Proof.
  induction p as [|c p IH]; simpl; [destruct r; reflexivity|].
  destruct (ascii_dec c c) as [_|Hne]; [exact IH | contradiction].
Qed.

Lemma prefix_drop (p s : string) :
  String.prefix p s = true -> s = p +:+ Js.drop (String.length p) s.
Proof.
  revert s. induction p as [|c p IH]; intros s H.
  - reflexivity.
  - destruct s as [|c' s]; simpl in H; [discriminate|].
    destruct (ascii_dec c c') as [->|Hne]; [|discriminate].
    change (String c' s = String c' (p +:+ Js.drop (String.length p) s)).
    f_equal. apply IH. exact H.
Qed.

Lemma prefix_length (p s : string) :
  String.prefix p s = true -> String.length p <= String.length s.
Proof.
  intros H. rewrite (prefix_drop p s H), string_length_app. lia.
Qed.

Lemma append_inj_l (p a b : string) : p +:+ a = p +:+ b -> a = b.
Proof.
  induction p as [|c p IH]; simpl; intros H; [exact H|].
  inversion H. auto.
Qed.

Lemma sliceFrom_prefix (p s : string) :
  String.prefix p s = true ->
  Js.sliceFrom (Z.of_nat (String.length p)) s = Js.drop (String.length p) s.
Proof.
  intros H. apply prefix_length in H.
  unfold Js.sliceFrom, Js.clampIndex.
  destruct (Z.ltb_spec (Z.of_nat (String.length p)) 0); [lia|].
  rewrite Z.min_l by lia. rewrite Nat2Z.id. reflexivity.
Qed.

Section RenameDirectory.

Import SandpackAdapter.

(** The two prefixes of the directory branch. *)
Variables dirPrefix newDirPrefix : string.

(** Where the loop moves a child to. *)
Definition movedTo (filePath : string) : string :=
  newDirPrefix
  +:+ Js.sliceFrom (Z.of_nat (String.length dirPrefix)) filePath.

Lemma movedTo_starts (filePath : string) :
  Js.startsWith (movedTo filePath) newDirPrefix = true.
Proof. apply prefix_app. Qed.

Lemma movedTo_inj (k k' : string) :
  Js.startsWith k dirPrefix = true -> Js.startsWith k' dirPrefix = true ->
  movedTo k = movedTo k' -> k = k'.
Proof.
  unfold Js.startsWith, movedTo. intros Hk Hk' H.
  apply append_inj_l in H.
  rewrite !sliceFrom_prefix in H by assumption.
  rewrite (prefix_drop _ _ Hk), (prefix_drop _ _ Hk'), H. reflexivity.
Qed.

(** The loop, started on paths that are distinct, present, and outside the
    new directory: every child is found at its new path with its content,
    is gone from its old path, and every other path is untouched. *)
Lemma renameChildren_moves (todo : list string) :
  forall s : MapHost,
    List.NoDup todo ->
    (forall k, In k todo -> Js.startsWith k dirPrefix = true ->
               Js.startsWith k newDirPrefix = false
               /\ exists c, JsObj.get k (files s) = Some c) ->
    exists s',
      renameChildren mapCallbacks tt dirPrefix newDirPrefix todo s
      = (s', Return tt)
      /\ (forall k c, In k todo -> Js.startsWith k dirPrefix = true ->
                      JsObj.get k (files s) = Some c ->
                      JsObj.get (movedTo k) (files s') = Some c)
      /\ (forall k, In k todo -> Js.startsWith k dirPrefix = true ->
                    JsObj.get k (files s') = None)
      /\ (forall x,
             ~ (In x todo /\ Js.startsWith x dirPrefix = true) ->
             (forall k, In k todo -> Js.startsWith k dirPrefix = true ->
                        x <> movedTo k) ->
             JsObj.get x (files s') = JsObj.get x (files s)).
Proof.
  induction todo as [|k todo IH]; intros s Hnd Hpre.
  - exists s. split; [reflexivity|].
    split; [intros ? ? []|]. split; [intros ? []|]. reflexivity.
  - apply List.NoDup_cons_iff in Hnd as [Hk Hnd].
    cbn [renameChildren].
    destruct (Js.startsWith k dirPrefix) eqn:Hstart.
    + destruct (Hpre k (or_introl eq_refl) Hstart) as [Hout [c Hc]].
      cbn [filesAt mapCallbacks]. rewrite Hc.
      fold (movedTo k). cbn [onFileUpdate onFileDelete mapCallbacks files].
      set (s1 := {| files := JsObj.delete k (JsObj.set (movedTo k) c (files s));
                    deletedPaths := deletedPaths s ++ [k];
                    depsNotified := depsNotified s |}).
      assert (Hneq : movedTo k <> k).
      { intros Heq. pose proof (movedTo_starts k) as Hs. rewrite Heq in Hs. congruence. }
      assert (Hs1 : forall x, x <> k -> x <> movedTo k ->
                              JsObj.get x (files s1) = JsObj.get x (files s)).
      { intros x Hx Hx'. cbn [s1 files].
        rewrite get_delete_ne by congruence. apply get_set_ne. congruence. }
      assert (Hother : forall k', In k' todo -> Js.startsWith k' dirPrefix = true ->
                                  k' <> k /\ k' <> movedTo k).
      { intros k' Hin Hst. split; [intros ->; contradiction|].
        intros ->. destruct (Hpre (movedTo k) (or_intror Hin) Hst) as [Hno _].
        rewrite movedTo_starts in Hno. discriminate. }
      destruct (IH s1 Hnd) as (s' & Hrun & Hmoved & Hgone & Hrest).
      { intros k' Hin Hst. destruct (Hpre k' (or_intror Hin) Hst) as [Hno [c' Hc']].
        split; [exact Hno|]. exists c'.
        destruct (Hother k' Hin Hst). rewrite Hs1; assumption. }
      exists s'. split; [exact Hrun|]. split; [|split].
      * intros k' c' [<-|Hin] Hst Hget.
        -- rewrite Hrest.
           ++ cbn [s1 files]. rewrite get_delete_ne by congruence.
              rewrite get_set_eq. congruence.
           ++ intros [Hin Hst']. destruct (Hpre _ (or_intror Hin) Hst') as [Hno _].
              rewrite movedTo_starts in Hno. discriminate.
           ++ intros k' Hin Hst' Heq.
              apply movedTo_inj in Heq; try assumption. subst k'. contradiction.
        -- destruct (Hother k' Hin Hst) as [Hk1 Hk2].
           apply Hmoved; try assumption. rewrite Hs1; assumption.
      * intros k' [<-|Hin] Hst.
        -- rewrite Hrest.
           ++ cbn [s1 files]. apply get_delete_eq.
           ++ intros [Hin _]. contradiction.
           ++ intros k' Hin Hst' ->.
              destruct (Hother k' Hin Hst') as [_ Hk2].
              destruct (Hpre _ (or_introl eq_refl) Hstart) as [Hno _].
              rewrite movedTo_starts in Hno. discriminate.
        -- apply Hgone; assumption.
      * intros x Hx Hnot.
        rewrite Hrest.
        -- apply Hs1.
           ++ intros ->. apply Hx. split; [left; reflexivity | exact Hstart].
           ++ apply Hnot; [left; reflexivity | exact Hstart].
        -- intros [Hin Hst]. apply Hx. split; [right; exact Hin | exact Hst].
        -- intros k' Hin Hst. apply Hnot; [right; exact Hin | exact Hst].
    + destruct (IH s Hnd) as (s' & Hrun & Hmoved & Hgone & Hrest).
      { intros k' Hin Hst. apply Hpre; [right; exact Hin | exact Hst]. }
      exists s'. split; [exact Hrun|]. split; [|split].
      * intros k' c' [<-|Hin] Hst Hget; [congruence|]. apply Hmoved; assumption.
      * intros k' [<-|Hin] Hst; [congruence|]. apply Hgone; assumption.
      * intros x Hx Hnot. apply Hrest.
        -- intros [Hin Hst]. apply Hx. split; [right; exact Hin | exact Hst].
        -- intros k' Hin Hst. apply Hnot; [right; exact Hin | exact Hst].
Qed.

End RenameDirectory.


(** C7, at the input where the code departs from it.  Renaming the file
    [/a.js] to its own path writes it and then deletes it: the file map
    ends up empty, although [old] is an exact key and the claim has the file
    at [new] with its content. *)
Theorem renameFile_same_path_loses_file :
  SandpackAdapter.renameFile SandpackAdapter.mapCallbacks "/a.js" "/a.js"
    (SandpackAdapter.hostOf [("/a.js", "x")])
  = ({| SandpackAdapter.files := [];
        SandpackAdapter.deletedPaths := ["/a.js"];
        SandpackAdapter.depsNotified := [] |}, Return tt).
Proof. reflexivity. Qed.

(** The directory branch has the same defect: a directory renamed to its
    own path loses every file below it. *)
Example renameFile_same_directory_loses_children :
  SandpackAdapter.files
    (fst (SandpackAdapter.renameFile SandpackAdapter.mapCallbacks "/src" "/src"
            (SandpackAdapter.hostOf [("/src/a.js", "a"); ("/src/b.js", "b")])))
  = [].
Proof. reflexivity. Qed.

(** Where targets collide with files that are still to be moved, the
    result depends on whether the host mutates its file object in place: of
    the two files one survives, and which one differs. *)
Example renameFile_into_own_subdirectory :
  SandpackAdapter.files
    (fst (SandpackAdapter.renameFile SandpackAdapter.mapCallbacks "/a" "/a/a"
            (SandpackAdapter.hostOf [("/a/x", "1"); ("/a/a/x", "2")])))
  = [("/a/a/a/x", "1")]
  /\ SandpackAdapter.files
       (fst (SandpackAdapter.renameFile SandpackAdapter.replacingCallbacks
               "/a" "/a/a"
               (SandpackAdapter.hostOf [("/a/x", "1"); ("/a/a/x", "2")])))
     = [("/a/a/a/x", "2")].
Proof. split; reflexivity. Qed.

(** ** SandpackFileWatcher: one tick *)

(** Case analysis on a membership hypothesis made of disjunctions,
    conjunctions and equations between paths. *)
Ltac cases_in :=
  repeat match goal with
         | H : _ \/ _ |- _ => destruct H
         | H : _ /\ _ |- _ => destruct H
         | H : False |- _ => destruct H
         | H : @eq string _ _ |- _ => subst
         end;
  try congruence; try tauto.

Section DetectChanges.

Import SandpackFileWatcher.

Variables previous current : JsObj.t string.

Lemma scanCurrent_spec (pathsToVisit added changed : list string) (p : string) :
  (In p (fst (scanCurrent previous current pathsToVisit added changed))
   <-> In p added \/ (In p pathsToVisit /\ JsObj.has p previous = false))
  /\ (In p (snd (scanCurrent previous current pathsToVisit added changed))
      <-> In p changed
          \/ (In p pathsToVisit /\ JsObj.has p previous = true
              /\ differ (JsObj.get p current) (JsObj.get p previous) = true)).
Proof.
  revert added changed.
  induction pathsToVisit as [|q rest IH]; intros added changed; simpl.
  - split; split; intros H; cases_in.
  - destruct (JsObj.has q previous) eqn:Hq; simpl.
    + destruct (differ (JsObj.get q current) (JsObj.get q previous)) eqn:Hd.
      * destruct (IH added (changed ++ [q])) as [IHa IHc].
        rewrite IHa, IHc, in_app_iff. simpl.
        split; split; intros H; cases_in.
      * destruct (IH added changed) as [IHa IHc].
        rewrite IHa, IHc.
        split; split; intros H; cases_in.
    + destruct (IH (added ++ [q]) changed) as [IHa IHc].
      rewrite IHa, IHc, in_app_iff. simpl.
      split; split; intros H; cases_in.
Qed.

Lemma scanPrevious_spec (pathsToVisit removed : list string) (p : string) :
  In p (scanPrevious current pathsToVisit removed)
  <-> In p removed \/ (In p pathsToVisit /\ JsObj.has p current = false).
Proof.
  revert removed.
  induction pathsToVisit as [|q rest IH]; intros removed; simpl.
  - split; intros H; cases_in.
  - destruct (JsObj.has q current) eqn:Hq; simpl; rewrite IH.
    + split; intros H; cases_in.
    + rewrite in_app_iff. simpl. split; intros H; cases_in.
Qed.

Lemma differ_spec (p : string) :
  JsObj.has p current = true -> JsObj.has p previous = true ->
  (differ (JsObj.get p current) (JsObj.get p previous) = true
   <-> exists c c', JsObj.get p current = Some c
                    /\ JsObj.get p previous = Some c' /\ c <> c').
Proof.
  intros Hc Hp.
  apply has_get in Hc as [c Hc]. apply has_get in Hp as [c' Hp].
  rewrite Hc, Hp. simpl.
  destruct (String.eqb_spec c c') as [->|Hne]; simpl.
  - split; [discriminate|]. intros (x & y & Hx & Hy & Hxy). congruence.
  - split; [|reflexivity]. intros _. exists c, c'. auto.
Qed.

End DetectChanges.

Definition eventTypeEqb (a b : SandpackFileWatcher.EventType) : bool :=
  match a, b with
  | SandpackFileWatcher.add, SandpackFileWatcher.add
  | SandpackFileWatcher.change, SandpackFileWatcher.change
  | SandpackFileWatcher.remove, SandpackFileWatcher.remove => true
  | _, _ => false
  end.

(** The paths of one category. *)
Definition category (ty : SandpackFileWatcher.EventType)
           (previous current : JsObj.t string) : list string :=
  match ty with
  | SandpackFileWatcher.add => SandpackFileWatcher.addedPaths previous current
  | SandpackFileWatcher.change => SandpackFileWatcher.changedPaths previous current
  | SandpackFileWatcher.remove => SandpackFileWatcher.removedPaths previous current
  end.


(** ** SandpackFileWatcher: after stop *)

Section AfterStop.

Import SandpackFileWatcher.

(** A tick only calls callbacks that are registered when it runs. *)
Lemma detectChanges_calls_registered (current : JsObj.t string) (w : Watcher)
      (c : Callback) (e : WatchEvent) :
  In (c, e) (snd (detectChanges current w)) -> In c (callbacks w).
Proof.
  unfold detectChanges. cbn [snd]. rewrite in_concat.
  intros (calls & Hcalls & Hin).
  apply in_map_iff in Hcalls as (ev & <- & _).
  unfold emit in Hin. apply in_map_iff in Hin as (c' & Heq & Hc).
  inversion Heq; subst; exact Hc.
Qed.

Lemma detectChanges_keeps_callbacks (current : JsObj.t string) (w : Watcher) :
  callbacks (fst (detectChanges current w)) = callbacks w.
Proof. reflexivity. Qed.

Lemma registeredBy_cons (a : Action) (actions : list Action) :
  registeredBy (a :: actions) = registeredBy [a] ++ registeredBy actions.
Proof. unfold registeredBy. simpl. rewrite app_nil_r. reflexivity. Qed.

(** One step: the calls it makes go to callbacks registered before it, and
    the callbacks registered after it are those registered before it or by
    it. *)
Lemma step_deliveries (x : World) (a : Action) (known : list Callback) :
  incl (callbacks (watcher x)) known ->
  (exists calls, delivered (step x a) = delivered x ++ calls
                 /\ forall c e, In (c, e) calls -> In c known)
  /\ incl (callbacks (watcher (step x a))) (known ++ registeredBy [a]).
Proof.
  intros Hknown. destruct a as [files| |callback|t files]; cbn [step].
  - split.
    + exists []. rewrite app_nil_r. split; [reflexivity | intros c e []].
    + cbn. rewrite app_nil_r. exact Hknown.
  - split.
    + exists []. rewrite app_nil_r. split; [reflexivity | intros c e []].
    + cbn. intros c [].
  - split.
    + exists []. rewrite app_nil_r. split; [reflexivity | intros c e []].
    + cbn. intros c Hc. apply in_app_iff in Hc as [Hc|Hc].
      * apply in_app_iff. left. apply Hknown. exact Hc.
      * apply in_app_iff. right. exact Hc.
  - destruct (existsb (Pos.eqb t) (timers x)).
    + pose proof (detectChanges_calls_registered files (watcher x)) as Hcalls.
      pose proof (detectChanges_keeps_callbacks files (watcher x)) as Hkeep.
      destruct (detectChanges files (watcher x)) as [w' calls].
      cbn [fst snd] in *. cbn. split.
      * exists calls. split; [reflexivity|].
        intros c e Hin. apply Hknown. eapply Hcalls. exact Hin.
      * rewrite app_nil_r, Hkeep. exact Hknown.
    + split.
      * exists []. rewrite app_nil_r. split; [reflexivity | intros c e []].
      * cbn. rewrite app_nil_r. exact Hknown.
Qed.

Lemma run_deliveries (actions : list Action) :
  forall (x : World) (known : list Callback),
    incl (callbacks (watcher x)) known ->
    exists later,
      delivered (run x actions) = delivered x ++ later
      /\ forall c e, In (c, e) later -> In c (known ++ registeredBy actions).
Proof.
  induction actions as [|a actions IH]; intros x known Hknown.
  - exists []. rewrite app_nil_r. split; [reflexivity | intros c e []].
  - destruct (step_deliveries x a known Hknown) as [(calls & Hd & Hcalls) Hnext].
    destruct (IH (step x a) _ Hnext) as (later & Hrun & Hlater).
    exists (calls ++ later). split.
    + change (run x (a :: actions)) with (run (step x a) actions).
      rewrite Hrun, Hd, app_assoc. reflexivity.
    + intros c e Hin. rewrite registeredBy_cons.
      apply in_app_iff in Hin as [Hin|Hin].
      * apply in_app_iff. left. eapply Hcalls. exact Hin.
      * rewrite app_assoc. eapply Hlater. exact Hin.
Qed.


End AfterStop.

(** A run in which a callback registered before [stop] stays silent while
    one registered after it is called (the leaked first interval still
    ticks). *)
Example stop_then_restart :
  let x0 := {| SandpackFileWatcher.watcher := SandpackFileWatcher.create;
               SandpackFileWatcher.timers := [];
               SandpackFileWatcher.nextTimer := 1%positive;
               SandpackFileWatcher.delivered := [] |} in
  List.map fst
    (SandpackFileWatcher.delivered
       (SandpackFileWatcher.run x0
          [ SandpackFileWatcher.CallRegister 7;
            SandpackFileWatcher.CallStart [("a", "1")];
            SandpackFileWatcher.CallStart [("a", "1")];
            SandpackFileWatcher.CallStop;
            SandpackFileWatcher.TimerFires 1%positive [("a", "2")];
            SandpackFileWatcher.CallRegister 8;
            SandpackFileWatcher.TimerFires 1%positive [("a", "3"); ("b", "1")] ]))
  = [8; 8].
Proof. reflexivity. Qed.

(** ** UndoRedoManager: empty stacks *)

(** C9.  With an empty undo stack [undo()] returns normally and leaves the
    manager (both stacks included) and the document as they are; so does
    [redo()] with an empty redo stack. *)
Theorem undo_redo_on_empty_stack :
  forall (diff : Automerge.Doc -> Automerge.Heads -> Automerge.Heads
                 -> list Automerge.Patch)
         (x : UndoRedoManager.System),
    (UndoRedoManager.undoStack (UndoRedoManager.manager x) = [] ->
     UndoRedoManager.undo diff x = Return x)
    /\ (UndoRedoManager.redoStack (UndoRedoManager.manager x) = [] ->
        UndoRedoManager.redo diff x = Return x).
Proof.
  intros diff x. split; intros Hempty.
  - unfold UndoRedoManager.undo. rewrite Hempty. reflexivity.
  - unfold UndoRedoManager.redo. rewrite Hempty. reflexivity.
Qed.

(** ** UndoRedoManager: a text edited in place *)

(** A document with one text file. *)
Definition textDoc (content : string) : Automerge.Value :=
  Automerge.VMap [("files", Automerge.VMap [("/a.txt", Automerge.VStr content)])].

Definition textDoc0 : Automerge.Doc :=
  {| Automerge.base := textDoc "ab"; Automerge.changes := [] |}.

(** What [Automerge.diff] answers for this document once [c] has been
    inserted into the text at index 2 (state [[1]]): back to state [[0]] it
    is the deletion of one character, [{action: 'del', path: ['files',
    '/a.txt', 2]}]; forward it is the splice. *)
Definition textDiff (d : Automerge.Doc) (from to : Automerge.Heads)
  : list Automerge.Patch :=
  match from, to with
  | [1], [0] =>
      [Automerge.DelPatch
         [Automerge.Key "files"; Automerge.Key "/a.txt"; Automerge.Index 2] None]
  | [0], [1] =>
      [Automerge.SpliceTextPatch
         [Automerge.Key "files"; Automerge.Key "/a.txt"; Automerge.Index 2] "c"]
  | _, _ => []
  end.

(** The manager is created on the document and observes the edit. *)
Definition afterTextEdit : UndoRedoManager.System :=
  UndoRedoManager.edit (textDoc "abc") (UndoRedoManager.create (Some textDoc0)).

(** C1, at the input where the code departs from it.  After one edit that
    inserts a character into a text, [undo()] replays a [del] patch whose
    parent is the text itself; [applyPatch] reaches the string primitive and
    does nothing with it.  The manager then holds the heads of the state
    before the edit, the undo stack is empty, and the files projection is
    still the edited one, not the one before the edit. *)
Theorem undo_leaves_text_insertion :
  exists x : UndoRedoManager.System,
    UndoRedoManager.undoTimes textDiff 1 afterTextEdit = Return x
    /\ UndoRedoManager.undoStack (UndoRedoManager.manager x) = []
    /\ UndoRedoManager.currentHeads (UndoRedoManager.manager x) = Some [0]
    /\ option_map UndoRedoManager.filesOf (UndoRedoManager.documentValue x)
       = Some (UndoRedoManager.filesOf (textDoc "abc"))
    /\ option_map UndoRedoManager.filesOf (UndoRedoManager.documentValue x)
       <> Some (UndoRedoManager.filesOf (Automerge.valueOf textDoc0)).
Proof.
  eexists. split; [vm_compute; reflexivity|].
  repeat split; try reflexivity. vm_compute. discriminate.
Qed.

(** The patch itself: applied to the edited document it changes nothing. *)
Example applyPatch_text_del_is_dropped :
  UndoRedoManager.applyPatch (textDoc "abc")
    (Automerge.DelPatch
       [Automerge.Key "files"; Automerge.Key "/a.txt"; Automerge.Index 2] None)
  = Return None.
Proof. reflexivity. Qed.

(** The splice in the other direction is replayed. *)
Example applyPatch_text_splice :
  UndoRedoManager.applyPatch (textDoc "ab")
    (Automerge.SpliceTextPatch
       [Automerge.Key "files"; Automerge.Key "/a.txt"; Automerge.Index 2] "c")
  = Return (Some (textDoc "abc")).
Proof. reflexivity. Qed.

Lemma undo_redo_on_empty_stack_witness :
  UndoRedoManager.undo textDiff (UndoRedoManager.create (Some textDoc0))
  = Return (UndoRedoManager.create (Some textDoc0))
  /\ UndoRedoManager.redo textDiff afterTextEdit = Return afterTextEdit.
Proof.
  split.
  - apply (proj1 (undo_redo_on_empty_stack textDiff
                    (UndoRedoManager.create (Some textDoc0)))).
    reflexivity.
  - apply (proj2 (undo_redo_on_empty_stack textDiff afterTextEdit)).
    reflexivity.
Defined.

(** ** UndoRedoManager: the stacks, when the replay is exact

    The defect above sits in [applyPatch].  The rest of the manager, the
    two stacks and the suppression flag, does what is asked of it: for
    documents on which replaying [Automerge.diff] yields the target state,
    [n] calls of [undo()] after [n] observed edits restore the document, and
    [redo()] after [undo()] restores what the [undo()] removed. *)

Section UndoReplay.

Import Automerge UndoRedoManager.

Variable diff : Doc -> Heads -> Heads -> list Patch.

(** The documents considered: every state has the shape [shape]. *)
Variable shape : Value -> Prop.

Definition shaped (d : Doc) : Prop :=
  shape (base d) /\ Forall shape (changes d).

Hypothesis diff_replays :
  forall (d : Doc) (to : Heads) (v : Value),
    shaped d -> view d to = Some v ->
    exists ops,
      applyPatches (valueOf d) (diff d (getHeads d) to) 0 = Return (v, ops).

Lemma applyPatches_ops (ps : list Patch) :
  forall (doc v : Value) (n m : nat),
    applyPatches doc ps n = Return (v, m) -> n <= m /\ (m = n -> v = doc).
Proof.
  induction ps as [|p ps IH]; intros doc v n m H; simpl in H.
  - inversion H; subst. split; [lia | reflexivity].
  - destruct (applyPatch doc p) as [[doc'|]|e|]; try discriminate.
    + apply IH in H as [Hle _]. split; [lia | intros ->; lia].
    + apply IH in H. exact H.
Qed.

Lemma nth_error_last (A : Type) (l : list A) (a : A) :
  nth_error (a :: l) (List.length l) = Some (List.last l a).
Proof.
  destruct l as [|b l] using rev_ind; [reflexivity|].
  rewrite last_last.
  change (a :: l ++ [b]) with ((a :: l) ++ [b]).
  rewrite nth_error_app2; rewrite length_app; cbn [List.length]; [|lia].
  replace (List.length l + 1 - S (List.length l)) with 0 by lia.
  reflexivity.
Qed.

Lemma view_getHeads (d : Doc) : view d (getHeads d) = Some (valueOf d).
Proof. unfold view, getHeads, valueOf. apply nth_error_last. Qed.

Lemma view_commit (d : Doc) (w v : Value) (h : Heads) :
  view d h = Some v -> view (commit w d) h = Some v.
Proof.
  unfold view, commit. cbn [base changes].
  destruct h as [|i [|? ?]]; try discriminate.
  intros H. change (base d :: changes d ++ [w]) with ((base d :: changes d) ++ [w]).
  rewrite nth_error_app1; [exact H|].
  apply nth_error_Some. rewrite H. discriminate.
Qed.

Lemma view_below_heads (d : Doc) (h : Heads) (v : Value) :
  view d h = Some v -> exists i, h = [i] /\ i <= List.length (changes d).
Proof.
  unfold view. destruct h as [|i [|? ?]]; try discriminate.
  intros H. exists i. split; [reflexivity|].
  assert (i < List.length (base d :: changes d))
    by (apply nth_error_Some; rewrite H; discriminate).
  simpl in *. lia.
Qed.

Lemma view_shape (d : Doc) (h : Heads) (v : Value) :
  shaped d -> view d h = Some v -> shape v.
Proof.
  intros [Hb Hc] H. unfold view in H.
  destruct h as [|i [|? ?]]; try discriminate.
  apply nth_error_In in H. destruct H as [<-|H]; [exact Hb|].
  rewrite List.Forall_forall in Hc. apply Hc. exact H.
Qed.

Lemma shaped_commit (d : Doc) (v : Value) :
  shaped d -> shape v -> shaped (commit v d).
Proof.
  intros [Hb Hc] Hv. split; [exact Hb|].
  cbn [changes commit]. apply Forall_app. split; [exact Hc | repeat constructor; exact Hv].
Qed.

Lemma valueOf_commit (d : Doc) (v : Value) : valueOf (commit v d) = v.
Proof. unfold valueOf, commit. cbn [base changes]. apply last_last. Qed.

(** What the manager relies on between two calls. *)
Definition known (d : Doc) (h : Heads) : Prop := exists v, view d h = Some v.

Record Settled (x : System) (d : Doc) (current : Heads) : Prop := {
  settled_idle : isUndoingOrRedoing (manager x) = false;
  settled_handle : handle x = Some d;
  settled_shape : shaped d;
  settled_heads : currentHeads (manager x) = Some current;
  settled_view : view d current = Some (valueOf d);
  settled_undo : Forall (known d) (undoStack (manager x));
  settled_redo : Forall (known d) (redoStack (manager x))
}.

Lemma known_commit (d : Doc) (w : Value) (stack : list Heads) :
  Forall (known d) stack -> Forall (known (commit w d)) stack.
Proof.
  intros H. eapply List.Forall_impl; [|exact H].
  intros h [v Hv]. exists v. apply view_commit. exact Hv.
Qed.

(** [applyHeads] brings the document to the state named by the heads,
    by a change appended to it, and leaves the stacks as they are. *)
Lemma applyHeads_reaches (x : System) (d : Doc) (target : Heads) (v : Value) :
  isUndoingOrRedoing (manager x) = false ->
  handle x = Some d -> shaped d -> view d target = Some v ->
  exists d',
    applyHeads diff target x
    = Return {| manager := {| undoStack := undoStack (manager x);
                              redoStack := redoStack (manager x);
                              currentHeads := Some target;
                              isUndoingOrRedoing := false |};
                handle := Some d' |}
    /\ valueOf d' = v
    /\ (d' = d \/ d' = commit v d).
Proof.
  intros Hidle Hd Hshape Hview.
  destruct (diff_replays d target v Hshape Hview) as [ops Hops].
  unfold applyHeads. cbn [handle manager]. rewrite Hd.
  destruct (0 <? List.length (diff d (getHeads d) target)) eqn:Hlen.
  - unfold handleChange. cbn [handle manager]. rewrite Hops.
    destruct (ops =? 0) eqn:Hz.
    + apply Nat.eqb_eq in Hz. subst ops.
      apply applyPatches_ops in Hops as [_ Hsame].
      exists d. cbn. split; [reflexivity|]. split; [symmetry; auto | left; reflexivity].
    + exists (commit v d). cbn. split; [reflexivity|].
      split; [apply valueOf_commit | right; reflexivity].
  - destruct (diff d (getHeads d) target) as [|p ps]; [|discriminate].
    simpl in Hops. inversion Hops; subst.
    exists d. cbn. split; [reflexivity|]. split; [reflexivity | left; reflexivity].
Qed.

Lemma settled_moved (x : System) (d d' : Doc) (v : Value)
      (target : Heads) (undos redos : list Heads) :
  shaped d -> view d target = Some v -> valueOf d' = v ->
  d' = d \/ d' = commit v d ->
  Forall (known d) undos -> Forall (known d) redos ->
  Settled {| manager := {| undoStack := undos; redoStack := redos;
                           currentHeads := Some target;
                           isUndoingOrRedoing := false |};
             handle := Some d' |} d' target.
Proof.
  intros Hshape Hview Hval Hd' Hu Hr.
  destruct Hd' as [->| ->];
    constructor;
    cbn [manager handle isUndoingOrRedoing currentHeads undoStack redoStack];
    try reflexivity; try assumption.
  - rewrite Hval. exact Hview.
  - apply shaped_commit; [exact Hshape | eapply view_shape; eauto].
  - rewrite valueOf_commit. apply view_commit. exact Hview.
  - apply known_commit. exact Hu.
  - apply known_commit. exact Hr.
Qed.

Lemma undo_pops (x : System) (d : Doc) (current target : Heads)
      (rest : list Heads) :
  undoStack (manager x) = target :: rest ->
  handle x = Some d -> currentHeads (manager x) = Some current ->
  undo diff x
  = applyHeads diff target
      {| manager := {| undoStack := rest;
                       redoStack := current :: redoStack (manager x);
                       currentHeads := Some current;
                       isUndoingOrRedoing := isUndoingOrRedoing (manager x) |};
         handle := Some d |}.
Proof.
  intros Hstack Hd Hcur. unfold undo.
  rewrite Hstack, Hd. cbn [currentHeads].
  rewrite Hcur. reflexivity.
Qed.

Lemma redo_pops (x : System) (d : Doc) (current target : Heads)
      (rest : list Heads) :
  redoStack (manager x) = target :: rest ->
  handle x = Some d -> currentHeads (manager x) = Some current ->
  redo diff x
  = applyHeads diff target
      {| manager := {| undoStack := current :: undoStack (manager x);
                       redoStack := rest;
                       currentHeads := Some current;
                       isUndoingOrRedoing := isUndoingOrRedoing (manager x) |};
         handle := Some d |}.
Proof.
  intros Hstack Hd Hcur. unfold redo.
  rewrite Hstack, Hd. cbn [currentHeads].
  rewrite Hcur. reflexivity.
Qed.

(** One [undo()] with a non-empty stack. *)
Lemma undo_step (x : System) (d : Doc) (current target : Heads)
      (rest : list Heads) (v : Value) :
  Settled x d current ->
  undoStack (manager x) = target :: rest ->
  view d target = Some v ->
  exists x' d',
    undo diff x = Return x'
    /\ Settled x' d' target
    /\ undoStack (manager x') = rest
    /\ redoStack (manager x') = current :: redoStack (manager x)
    /\ valueOf d' = v
    /\ (forall h w, view d h = Some w -> view d' h = Some w).
Proof.
  intros [Hidle Hd Hshape Hcur Hview Hu Hr] Hstack Htarget.
  rewrite (undo_pops x d current target rest Hstack Hd Hcur).
  destruct (applyHeads_reaches
              {| manager := {| undoStack := rest;
                               redoStack := current :: redoStack (manager x);
                               currentHeads := Some current;
                               isUndoingOrRedoing := isUndoingOrRedoing (manager x) |};
                 handle := Some d |} d target v Hidle eq_refl Hshape Htarget)
    as (d' & Happly & Hval & Hd').
  rewrite Happly. cbn [manager undoStack redoStack].
  eexists _, d'. split; [reflexivity|].
  rewrite Hstack in Hu. inversion Hu; subst.
  split; [|split; [reflexivity|split; [reflexivity|split; [reflexivity|]]]].
  - apply (settled_moved x d d' (valueOf d')); auto.
    constructor; [exists (valueOf d); exact Hview | exact Hr].
  - intros h w Hw. destruct Hd' as [->| ->]; [exact Hw | apply view_commit; exact Hw].
Qed.

(** One [redo()] with a non-empty stack. *)
Lemma redo_step (x : System) (d : Doc) (current target : Heads)
      (rest : list Heads) (v : Value) :
  Settled x d current ->
  redoStack (manager x) = target :: rest ->
  view d target = Some v ->
  exists x' d',
    redo diff x = Return x'
    /\ Settled x' d' target
    /\ redoStack (manager x') = rest
    /\ undoStack (manager x') = current :: undoStack (manager x)
    /\ valueOf d' = v.
Proof.
  intros [Hidle Hd Hshape Hcur Hview Hu Hr] Hstack Htarget.
  rewrite (redo_pops x d current target rest Hstack Hd Hcur).
  destruct (applyHeads_reaches
              {| manager := {| undoStack := current :: undoStack (manager x);
                               redoStack := rest;
                               currentHeads := Some current;
                               isUndoingOrRedoing := isUndoingOrRedoing (manager x) |};
                 handle := Some d |} d target v Hidle eq_refl Hshape Htarget)
    as (d' & Happly & Hval & Hd').
  rewrite Happly. cbn [manager undoStack redoStack].
  eexists _, d'. split; [reflexivity|].
  rewrite Hstack in Hr. inversion Hr; subst.
  split; [|split; [reflexivity|split; [reflexivity|reflexivity]]].
  apply (settled_moved x d d' (valueOf d')); auto.
  constructor; [exists (valueOf d); exact Hview | exact Hu].
Qed.


(** The state a complete unwinding of the undo stack leads to. *)
Definition oldest (x : System) : option Value :=
  match handle x with
  | Some d =>
      match rev (undoStack (manager x)) with
      | [] => Some (valueOf d)
      | h :: _ => view d h
      end
  | None => None
  end.

Lemma undoTimes_reaches_oldest (n : nat) :
  forall (x : System) (d : Doc) (current : Heads),
    Settled x d current ->
    List.length (undoStack (manager x)) = n ->
    exists x', undoTimes diff n x = Return x' /\ documentValue x' = oldest x.
Proof.
  induction n as [|n IH]; intros x d current Hx Hlen.
  - exists x. split; [reflexivity|].
    unfold oldest, documentValue. rewrite (settled_handle _ _ _ Hx).
    destruct (undoStack (manager x)); [reflexivity | discriminate].
  - destruct (undoStack (manager x)) as [|target rest] eqn:Hstack; [discriminate|].
    assert (Hknown : known d target).
    { pose proof (settled_undo _ _ _ Hx) as Hu. rewrite Hstack in Hu.
      inversion Hu; assumption. }
    destruct Hknown as [v Hv].
    destruct (undo_step x d current target rest v Hx Hstack Hv)
      as (x1 & d1 & Hundo & Hx1 & Hu1 & _ & Hval1 & Hviews).
    destruct (IH x1 d1 target Hx1) as (x' & Htimes & Hdoc).
    { rewrite Hu1. simpl in Hlen. lia. }
    exists x'. split.
    + cbn [undoTimes]. rewrite Hundo. exact Htimes.
    + rewrite Hdoc. unfold oldest.
      rewrite (settled_handle _ _ _ Hx1), (settled_handle _ _ _ Hx), Hu1, Hstack.
      cbn [rev]. destruct (rev rest) as [|h hs] eqn:Hrev; cbn [app].
      * rewrite Hval1. symmetry. exact Hv.
      * assert (Hh : known d h).
        { pose proof (settled_undo _ _ _ Hx) as Hu. rewrite Hstack in Hu.
          rewrite List.Forall_forall in Hu. apply Hu. right.
          apply in_rev. rewrite Hrev. left. reflexivity. }
        destruct Hh as [w Hw]. rewrite Hw. apply Hviews. exact Hw.
Qed.

(** An observed edit pushes the heads it replaces and keeps the oldest
    state. *)
Lemma edit_settled (x : System) (d : Doc) (current : Heads) (v : Value) :
  Settled x d current -> shape v ->
  Settled (edit v x) (commit v d) (getHeads (commit v d))
  /\ undoStack (manager (edit v x)) = current :: undoStack (manager x)
  /\ oldest (edit v x) = oldest x.
Proof.
  intros [Hidle Hd Hshape Hcur Hview Hu Hr] Hv.
  destruct (view_below_heads d current _ Hview) as (i & -> & Hi).
  assert (Hneq : areHeadsEqual [i] (getHeads (commit v d)) = false).
  { unfold areHeadsEqual, getHeads, commit. cbn.
    rewrite length_app. cbn.
    destruct (Nat.eqb_spec (List.length (changes d) + 1) i); [lia | reflexivity]. }
  unfold edit. rewrite Hd. unfold onChange. rewrite Hidle, Hcur, Hneq.
  cbn [negb fst snd manager handle undoStack redoStack].
  split; [|split; [reflexivity|]].
  - constructor;
      cbn [manager handle isUndoingOrRedoing currentHeads undoStack redoStack];
      try reflexivity.
    + apply shaped_commit; assumption.
    + apply view_getHeads.
    + constructor; [exists (valueOf d); apply view_commit; exact Hview|].
      apply known_commit. exact Hu.
    + constructor.
  - unfold oldest. cbn [handle manager undoStack]. rewrite Hd. cbn [rev].
    destruct (rev (undoStack (manager x))) as [|h hs] eqn:Hrev; cbn [app].
    + apply view_commit. exact Hview.
    + assert (Hh : known d h).
      { rewrite List.Forall_forall in Hu. apply Hu.
        apply in_rev. rewrite Hrev. left. reflexivity. }
      destruct Hh as [w Hw]. rewrite Hw. apply view_commit. exact Hw.
Qed.

Lemma edits_settled (edits : list Value) :
  forall (x : System) (d : Doc) (current : Heads),
    Settled x d current -> Forall shape edits ->
    exists d' current',
      Settled (fold_left (fun y v => edit v y) edits x) d' current'
      /\ List.length (undoStack (manager (fold_left (fun y v => edit v y) edits x)))
         = List.length edits + List.length (undoStack (manager x))
      /\ oldest (fold_left (fun y v => edit v y) edits x) = oldest x.
Proof.
  induction edits as [|v edits IH]; intros x d current Hx Hshape.
  - exists d, current. auto.
  - inversion Hshape; subst.
    destruct (edit_settled x d current v Hx) as (Hx1 & Hu1 & Hold1); [assumption|].
    destruct (IH _ _ _ Hx1) as (d' & current' & Hx' & Hlen & Hold); [assumption|].
    exists d', current'. cbn [fold_left]. split; [exact Hx'|]. split.
    + rewrite Hlen, Hu1. simpl. lia.
    + rewrite Hold. exact Hold1.
Qed.


End UndoReplay.

(** Documents that hold the [files] member and nothing else, with a diff
    that puts the whole member, are documents on which the replay is
    exact: the assumption of the section can be met. *)
Definition filesOnly (v : Automerge.Value) : Prop :=
  exists fs, v = Automerge.VMap [("files", fs)].

Definition wholeFilesDiff (d : Automerge.Doc) (from to : Automerge.Heads)
  : list Automerge.Patch :=
  match Automerge.view d to with
  | Some (Automerge.VMap [(_, fs)]) =>
      [Automerge.PutPatch [Automerge.Key "files"] fs]
  | _ => []
  end.

Lemma wholeFilesDiff_replays (d : Automerge.Doc) (to : Automerge.Heads)
      (v : Automerge.Value) :
  shaped filesOnly d -> Automerge.view d to = Some v ->
  exists ops,
    UndoRedoManager.applyPatches (Automerge.valueOf d)
      (wholeFilesDiff d (Automerge.getHeads d) to) 0 = Return (v, ops).
Proof.
  intros Hd Hv.
  destruct (view_shape filesOnly d to v Hd Hv) as [fs ->].
  destruct (view_shape filesOnly d _ _ Hd (view_getHeads d)) as [fs0 Hfs0].
  unfold wholeFilesDiff. rewrite Hv, Hfs0.
  exists 1. reflexivity.
Qed.

(** ** SessionManager.start *)

Section SessionStart.

Import SessionManager.

(** The error an attempt ends with, if it fails. *)
Definition failure (o : AttemptOutcome) : option string :=
  match o with
  | Connected _ => None
  | ClientFailed error | TerminalsFailed _ error => Some (asError error)
  end.

(** The trace of [k] retries after the first attempt: a wait of
    [RETRY_DELAY_MS] before each retry. *)
Fixpoint retries (attempt count : nat) : list Event :=
  match count with
  | 0 => []
  | S count' => Wait RETRY_DELAY_MS :: Attempt attempt :: retries (S attempt) count'
  end.

Definition attemptsTrace (k : nat) : list Event := Attempt 0 :: retries 1 k.

Definition idle : Session :=
  {| provider := None; adapter := None; isConnecting := false |}.

Definition alwaysDown (attempt : nat) : AttemptOutcome :=
  ClientFailed (ErrorObject ("down " +:+ Js.natToString attempt)).

(** C4 as stated fails: when every attempt fails, the connection has been
    attempted four times, which is more than [MAX_RETRIES]. *)
Lemma start_attempts_exceed_MAX_RETRIES :
  ~ (attempts (snd (start alwaysDown idle)) <= MAX_RETRIES).
Proof. vm_compute. lia. Qed.

(** One turn of the loop. *)
Lemma connectLoop_turn (outcome : nat -> AttemptOutcome) (remaining attempt : nat)
      (lastError : option string) (s : Session) (trace : list Event) :
  connectLoop outcome (S remaining) attempt lastError s trace
  = match outcome attempt with
    | Connected p =>
        ({| provider := Some p; adapter := Some (LegacySandboxAdapter p);
            isConnecting := false |}, Return tt, trace ++ [Attempt attempt])
    | ClientFailed error =>
        connectLoop outcome remaining (S attempt) (Some (asError error))
          {| provider := None; adapter := adapter s;
             isConnecting := isConnecting s |}
          (if attempt <? MAX_RETRIES
           then (trace ++ [Attempt attempt]) ++ [Wait RETRY_DELAY_MS]
           else trace ++ [Attempt attempt])
    | TerminalsFailed p error =>
        connectLoop outcome remaining (S attempt) (Some (asError error))
          {| provider := None; adapter := Some (LegacySandboxAdapter p);
             isConnecting := isConnecting s |}
          (if attempt <? MAX_RETRIES
           then (trace ++ [Attempt attempt]) ++ [Wait RETRY_DELAY_MS]
           else trace ++ [Attempt attempt])
    end.
Proof. reflexivity. Qed.

(** The loop, entered at [attempt] with [remaining] iterations to go:
    it stops after [k] retries, at the first attempt that connects or at
    the last one allowed. *)
Lemma connectLoop_spec (outcome : nat -> AttemptOutcome) (remaining : nat) :
  forall (attempt : nat) (lastError : option string) (s : Session)
         (trace : list Event),
    attempt + S remaining = MAX_RETRIES + 1 ->
    exists k,
      k <= remaining
      /\ snd (connectLoop outcome (S remaining) attempt lastError s trace)
         = trace ++ Attempt attempt :: retries (S attempt) k
      /\ (forall i, i < k -> failure (outcome (attempt + i)) <> None)
      /\ isConnecting
           (fst (fst (connectLoop outcome (S remaining) attempt lastError s trace)))
         = false
      /\ match outcome (attempt + k) with
         | Connected p =>
             snd (fst (connectLoop outcome (S remaining) attempt lastError s trace))
             = Return tt
             /\ provider
                  (fst (fst (connectLoop outcome (S remaining) attempt lastError s trace)))
                = Some p
             /\ adapter
                  (fst (fst (connectLoop outcome (S remaining) attempt lastError s trace)))
                = Some (LegacySandboxAdapter p)
         | ClientFailed error | TerminalsFailed _ error =>
             k = remaining
             /\ snd (fst (connectLoop outcome (S remaining) attempt lastError s trace))
                = Throw (asError error)
             /\ provider
                  (fst (fst (connectLoop outcome (S remaining) attempt lastError s trace)))
                = None
         end
      /\ ((forall i, i <= remaining ->
                     exists error, outcome (attempt + i) = ClientFailed error) ->
          adapter
            (fst (fst (connectLoop outcome (S remaining) attempt lastError s trace)))
          = adapter s).
Proof.
  induction remaining as [|remaining IH]; intros attempt lastError s trace Hsum.
  - (* the last attempt allowed *)
    exists 0. rewrite Nat.add_0_r.
    assert (Hlast : (attempt <? MAX_RETRIES) = false)
      by (apply Nat.ltb_ge; unfold MAX_RETRIES in *; lia).
    rewrite connectLoop_turn, Hlast.
    destruct (outcome attempt) eqn:E;
      cbn [connectLoop fst snd provider adapter isConnecting];
      repeat split; try reflexivity; try lia;
      try (intros i Hi; lia).
    all: intros Hall; destruct (Hall 0 (Nat.le_refl 0)) as [e He];
      rewrite Nat.add_0_r in He; congruence.
  - assert (Hmore : (attempt <? MAX_RETRIES) = true)
      by (apply Nat.ltb_lt; unfold MAX_RETRIES in *; lia).
    rewrite connectLoop_turn, Hmore.
    destruct (outcome attempt) eqn:E.
    + exists 0. rewrite Nat.add_0_r, E. cbn [fst snd provider adapter isConnecting].
      repeat split; try reflexivity; try lia; try (intros i Hi; lia).
      intros Hall. destruct (Hall 0) as [e He]; [lia|].
      rewrite Nat.add_0_r in He. congruence.
    + destruct (IH (S attempt) (Some (asError error))
                  {| provider := None; adapter := adapter s;
                     isConnecting := isConnecting s |}
                  ((trace ++ [Attempt attempt]) ++ [Wait RETRY_DELAY_MS]))
        as (k & Hk & Htrace & Hfailed & Hidle & Hend & Hadapter); [lia|].
      exists (S k). split; [lia|]. split.
      { rewrite Htrace, <- !app_assoc. reflexivity. }
      split.
      { intros [|i] Hi.
        - rewrite Nat.add_0_r, E. discriminate.
        - replace (attempt + S i) with (S attempt + i) by lia. apply Hfailed. lia. }
      split; [exact Hidle|].
      replace (attempt + S k) with (S attempt + k) by lia.
      split.
      { destruct (outcome (S attempt + k)); [exact Hend| |];
          (destruct Hend as (-> & Hthrow & Hprov); repeat split; assumption). }
      intros Hall. rewrite Hadapter; [reflexivity|].
      intros i Hi. replace (S attempt + i) with (attempt + S i) by lia.
      apply Hall. lia.
    + destruct (IH (S attempt) (Some (asError error))
                  {| provider := None; adapter := Some (LegacySandboxAdapter provider0);
                     isConnecting := isConnecting s |}
                  ((trace ++ [Attempt attempt]) ++ [Wait RETRY_DELAY_MS]))
        as (k & Hk & Htrace & Hfailed & Hidle & Hend & _); [lia|].
      exists (S k). split; [lia|]. split.
      { rewrite Htrace, <- !app_assoc. reflexivity. }
      split.
      { intros [|i] Hi.
        - rewrite Nat.add_0_r, E. discriminate.
        - replace (attempt + S i) with (S attempt + i) by lia. apply Hfailed. lia. }
      split; [exact Hidle|].
      replace (attempt + S k) with (S attempt + k) by lia.
      split.
      { destruct (outcome (S attempt + k)); [exact Hend| |];
          (destruct Hend as (-> & Hthrow & Hprov); repeat split; assumption). }
      intros Hall. destruct (Hall 0) as [e He]; [lia|].
      rewrite Nat.add_0_r in He. congruence.
Qed.

Lemma attempts_retries (attempt k : nat) :
  attempts (retries attempt k) = k /\ waits (retries attempt k) = repeat RETRY_DELAY_MS k.
Proof.
  revert attempt. induction k as [|k IH]; intros attempt; [split; reflexivity|].
  destruct (IH (S attempt)) as [Ha Hw].
  unfold attempts, waits in *. cbn in *. rewrite Ha, Hw. split; reflexivity.
Qed.

(** C4, amended.  [start] does nothing when [isConnecting] is set or a
    provider exists.  Otherwise it makes [k + 1] attempts for some
    [k <= MAX_RETRIES], that is at most [MAX_RETRIES + 1], with a wait of
    [RETRY_DELAY_MS] before each retry; every attempt but the last one
    failed; [isConnecting] is reset.  When the last attempt connects,
    [start] returns with the provider and its adapter stored.  When it
    fails, all [MAX_RETRIES + 1] attempts have been made, the error of the
    last one is thrown and no provider is stored; and when every attempt
    failed in creating the provider client, the adapter is what it was
    before the call. *)
Theorem start_retries :
  forall (outcome : nat -> AttemptOutcome) (s : Session),
    (isConnecting s = true \/ provider s <> None ->
     start outcome s = (s, Return tt, []))
    /\ (isConnecting s = false -> provider s = None ->
        exists k,
          k <= MAX_RETRIES
          /\ snd (start outcome s) = attemptsTrace k
          /\ attempts (snd (start outcome s)) = S k
          /\ waits (snd (start outcome s)) = repeat RETRY_DELAY_MS k
          /\ (forall i, i < k -> failure (outcome i) <> None)
          /\ isConnecting (fst (fst (start outcome s))) = false
          /\ match outcome k with
             | Connected p =>
                 snd (fst (start outcome s)) = Return tt
                 /\ provider (fst (fst (start outcome s))) = Some p
                 /\ adapter (fst (fst (start outcome s)))
                    = Some (LegacySandboxAdapter p)
             | ClientFailed error | TerminalsFailed _ error =>
                 k = MAX_RETRIES
                 /\ snd (fst (start outcome s)) = Throw (asError error)
                 /\ provider (fst (fst (start outcome s))) = None
             end
          /\ ((forall i, i <= MAX_RETRIES ->
                         exists error, outcome i = ClientFailed error) ->
              adapter (fst (fst (start outcome s))) = adapter s)).
Proof.
  intros outcome s. split.
  - intros H. unfold start.
    destruct (isConnecting s); [reflexivity|].
    destruct (provider s); [reflexivity|].
    destruct H as [H|H]; [discriminate | contradiction].
  - intros Hc Hp. unfold start. rewrite Hc, Hp. cbn [orb isSome].
    change (MAX_RETRIES + 1) with (S MAX_RETRIES).
    destruct (connectLoop_spec outcome MAX_RETRIES 0 None
                {| provider := None; adapter := adapter s; isConnecting := true |}
                [] eq_refl)
      as (k & Hk & Htrace & Hfailed & Hidle & Hend & Hadapter).
    cbn [Nat.add app adapter] in *.
    destruct (attempts_retries 1 k) as [Ha Hw].
    exists k. split; [exact Hk|]. split; [exact Htrace|].
    rewrite Htrace. split; [unfold attempts in *; cbn; rewrite Ha; reflexivity|].
    split; [unfold waits in *; cbn; exact Hw|].
    split; [exact Hfailed|]. split; [exact Hidle|]. split; [exact Hend|].
    exact Hadapter.
Qed.

End SessionStart.

(** A session that is already connecting, and an idle session for which
    every attempt fails. *)
Lemma start_retries_witness :
  SessionManager.start alwaysDown
    {| SessionManager.provider := None; SessionManager.adapter := None;
       SessionManager.isConnecting := true |}
  = ({| SessionManager.provider := None; SessionManager.adapter := None;
        SessionManager.isConnecting := true |}, Return tt, [])
  /\ exists k,
       k <= SessionManager.MAX_RETRIES
       /\ snd (SessionManager.start alwaysDown idle) = attemptsTrace k
       /\ SessionManager.attempts (snd (SessionManager.start alwaysDown idle)) = S k.
Proof.
  split.
  - apply (proj1 (start_retries alwaysDown _)). left. reflexivity.
  - destruct (proj2 (start_retries alwaysDown idle) eq_refl eq_refl)
      as (k & Hk & Htrace & Hattempts & _).
    exists k. repeat split; assumption.
Defined.

(** The run behind the counterexample: four attempts, three waits, the
    error of the fourth attempt. *)
Example start_all_attempts_fail :
  SessionManager.start alwaysDown idle
  = ({| SessionManager.provider := None; SessionManager.adapter := None;
        SessionManager.isConnecting := false |},
     Throw "down 3",
     [ SessionManager.Attempt 0; SessionManager.Wait 2000;
       SessionManager.Attempt 1; SessionManager.Wait 2000;
       SessionManager.Attempt 2; SessionManager.Wait 2000;
       SessionManager.Attempt 3 ]).
Proof. reflexivity. Qed.

(** A failure after the adapter has been stored leaves that adapter in
    place, without a provider. *)
Example start_leaves_stale_adapter :
  fst (fst (SessionManager.start
              (fun _ => SessionManager.TerminalsFailed 9
                          (SessionManager.OtherValue "terminals")) idle))
  = {| SessionManager.provider := None;
       SessionManager.adapter := Some (SessionManager.LegacySandboxAdapter 9);
       SessionManager.isConnecting := false |}.
Proof. reflexivity. Qed.

(** ** SandpackAdapter: npm install *)

Section NpmInstall.

Import SandpackAdapter.

(** The version the tokens ask for a package name: the one of the last
    token, flags apart, that names it. *)
Fixpoint requestedVersion (name : string) (packages : list string)
  : option string :=
  match packages with
  | [] => None
  | pkg :: rest =>
      match requestedVersion name rest with
      | Some version => Some version
      | None =>
          if Js.startsWith pkg "-" then None
          else if String.eqb (fst (parsePackageSpec pkg)) name
               then Some (snd (parsePackageSpec pkg))
               else None
      end
  end.

(** Every token is upserted: afterwards a name holds the version the
    tokens ask for, and a name no token mentions holds what it held. *)
Lemma installPackages_get (name : string) (packages : list string) :
  forall (deps : JsObj.t Json.value) (installed : list string),
    JsObj.get name (fst (installPackages packages deps installed))
    = match requestedVersion name packages with
      | Some version => Some (Json.Str version)
      | None => JsObj.get name deps
      end.
Proof.
  induction packages as [|pkg rest IH]; intros deps installed; [reflexivity|].
  cbn [installPackages requestedVersion].
  destruct (Js.startsWith pkg "-").
  - rewrite IH. destruct (requestedVersion name rest); reflexivity.
  - destruct (parsePackageSpec pkg) as [n v]. cbn [fst snd].
    rewrite IH. destruct (requestedVersion name rest); [reflexivity|].
    destruct (String.eqb_spec n name) as [->|Hne].
    + apply get_set_eq.
    + apply get_set_ne. exact Hne.
Qed.

(** A code unit that does not occur. *)
Fixpoint lacks (c : ascii) (s : string) : bool :=
  match s with
  | EmptyString => true
  | String c' s' => negb (Ascii.eqb c' c) && lacks c s'
  end.

Lemma lastIndexOfFrom_lacks (c : ascii) (s : string) (pos found : Z) :
  lacks c s = true -> Js.lastIndexOfFrom c s pos found = found.
Proof.
  revert pos found.
  induction s as [|c' s IH]; intros pos found H; simpl in *; [reflexivity|].
  apply andb_true_iff in H as [Hc Hs].
  rewrite IH by exact Hs.
  destruct (Ascii.eqb c' c); [discriminate | reflexivity].
Qed.

(** A bare name gets the version [latest]. *)
Lemma parsePackageSpec_bare (pkg : string) :
  lacks "@" pkg = true -> parsePackageSpec pkg = (pkg, "latest").
Proof.
  intros H. unfold parsePackageSpec, Js.lastIndexOf.
  rewrite lastIndexOfFrom_lacks by exact H. reflexivity.
Qed.

Variable JSON_parse : string -> option Json.value.
Variable JSON_stringify : Json.value -> string.

(** [handleNpmInstall] on a manifest that is an object with a dependency
    table (or none yet). *)
Lemma handleNpmInstall_manifest (packagesStr : string) (s : MapHost)
      (members deps : JsObj.t Json.value) :
  ensureDependencies (loadPackageJson JSON_parse (files s))
  = Return (members, deps) ->
  let result :=
    installPackages (List.filter Js.truthyStr (Js.splitWs packagesStr)) deps [] in
  handleNpmInstall mapCallbacks JSON_parse JSON_stringify packagesStr s
  = ({| files :=
          JsObj.set "/package.json"
            (JSON_stringify
               (Json.Obj (JsObj.set "dependencies" (Json.Obj (fst result)) members)))
            (files s);
        deletedPaths := deletedPaths s;
        depsNotified := depsNotified s ++ [fst result] |},
     Return (installOutput (snd result))).
Proof.
  intros H result. unfold handleNpmInstall.
  cbn [filesAt getFiles mapCallbacks]. rewrite H.
  fold result. destruct result as [deps' installed]. reflexivity.
Qed.

Lemma loadPackageJson_missing (fs : JsObj.t string) :
  JsObj.get "/package.json" fs = None -> JsObj.get "package.json" fs = None ->
  loadPackageJson JSON_parse fs = defaultPackageJson.
Proof. intros H1 H2. unfold loadPackageJson. rewrite H1, H2. reflexivity. Qed.

Lemma loadPackageJson_parsed (fs : JsObj.t string) (text : string)
      (v : Json.value) :
  JsObj.get "/package.json" fs = Some text -> text <> EmptyString ->
  JSON_parse text = Some v ->
  loadPackageJson JSON_parse fs = v.
Proof.
  intros H1 Hne H2. unfold loadPackageJson. rewrite H1.
  unfold Js.truthyStr. apply String.eqb_neq in Hne. rewrite Hne. cbn.
  rewrite H2. reflexivity.
Qed.

End NpmInstall.

Definition lodashManifest : Json.value :=
  Json.Obj [("dependencies", Json.Obj [("lodash", Json.Str "4.17.21")])].


(** The manifest of the adapter's test-suite, as text. *)
Definition emptyDependenciesText : string :=
  "{" +:+ JsonText.quote +:+ "dependencies" +:+ JsonText.quote +:+ ":{}}".


(** Reading the persisted manifest back gives the installed version. *)
Example persisted_manifest_reads_back :
  match JsonText.parse (JsonText.stringify lodashManifest) with
  | Some (Json.Obj members) =>
      match JsObj.get "dependencies" members with
      | Some (Json.Obj deps) => JsObj.get "lodash" deps
      | _ => None
      end
  | _ => None
  end = Some (Json.Str "4.17.21").
Proof. vm_compute. reflexivity. Qed.

(** [npm install react] on an empty file set creates the manifest. *)
Example npm_install_creates_manifest :
  option_map JsonText.parse
    (JsObj.get "/package.json"
       (SandpackAdapter.files
          (fst (SandpackAdapter.runCommand SandpackAdapter.mapCallbacks
                  JsonText.parse JsonText.stringify "npm install react"
                  (SandpackAdapter.hostOf [])))))
  = Some (Some (Json.Obj [ ("name", Json.Str "sandbox");
                           ("version", Json.Str "1.0.0");
                           ("dependencies",
                            Json.Obj [("react", Json.Str "latest")]) ])).
Proof. vm_compute. reflexivity. Qed.

(** ** SandboxManager: restoring a snapshot *)

Section Snapshots.

Import SandboxManager.

Implicit Types (snap fs : gmap string string) (acc : gmap string string * nat).

(** The first loop deletes what the snapshot lacks, among the paths it
    visits. *)
Lemma removeStep_fold snap (paths : list string) :
  forall acc k,
    fst (fold_left (removeStep snap) paths acc) !! k
    = if decide (k ∈ paths /\ missingIn snap k = true) then None
      else fst acc !! k.
Proof.
  induction paths as [|p paths IH]; intros acc k; cbn [fold_left].
  - case_decide as H; [|reflexivity]. destruct H as [H _]. inversion H.
  - rewrite IH. unfold removeStep.
    destruct (missingIn snap k) eqn:Hk.
    + destruct (decide (k ∈ paths)) as [Hin|Hout].
      * rewrite !decide_True; [reflexivity | split; [right; exact Hin | reflexivity]
                              | split; [exact Hin | reflexivity]].
      * rewrite (decide_False (P := k ∈ paths /\ true = true)) by (intros [? _]; contradiction).
        destruct (decide (k = p)) as [->|Hne].
        -- rewrite Hk. cbn [fst]. rewrite lookup_delete_eq.
           rewrite decide_True by (split; [left | reflexivity]). reflexivity.
        -- rewrite decide_False.
           ++ destruct (missingIn snap p); cbn [fst]; [|reflexivity].
              apply lookup_delete_ne. congruence.
           ++ intros [Hin _]. apply elem_of_cons in Hin as [?|?]; contradiction.
    + rewrite !decide_False by (intros [_ ?]; discriminate).
      destruct (missingIn snap p) eqn:Hp; cbn [fst]; [|reflexivity].
      apply lookup_delete_ne. congruence.
Qed.

Lemma updateStep_lookup acc (p c : string) :
  fst (updateStep acc (p, c)) !! p = Some c
  /\ forall k, k <> p -> fst (updateStep acc (p, c)) !! k = fst acc !! k.
Proof.
  unfold updateStep. cbn [fst snd].
  destruct (fst acc !! p) as [content|] eqn:Hp.
  - destruct (String.eqb_spec content c) as [->|Hne]; cbn [fst].
    + split; [exact Hp | reflexivity].
    + split; [apply lookup_insert_eq | intros k Hk; apply lookup_insert_ne; congruence].
  - cbn [fst].
    split; [apply lookup_insert_eq | intros k Hk; apply lookup_insert_ne; congruence].
Qed.

(** The second loop sets every entry it visits. *)
Lemma updateStep_fold (entries : list (string * string)) :
  NoDup (entries.*1) ->
  forall acc k,
    (forall c, (k, c) ∈ entries ->
               fst (fold_left updateStep entries acc) !! k = Some c)
    /\ (k ∉ entries.*1 ->
        fst (fold_left updateStep entries acc) !! k = fst acc !! k).
Proof.
  induction entries as [|[p c] entries IH]; intros Hnd acc k; cbn [fold_left].
  - split; [intros c H; inversion H | reflexivity].
  - cbn in Hnd. apply NoDup_cons in Hnd as [Hp Hnd].
    destruct (IH Hnd (updateStep acc (p, c)) k) as [IHin IHout].
    destruct (updateStep_lookup acc p c) as [Hset Hother].
    split.
    + intros c' Hin. apply elem_of_cons in Hin as [Heq|Hin].
      * inversion Heq; subst. rewrite IHout by exact Hp. exact Hset.
      * apply IHin. exact Hin.
    + intros Hk. cbn in Hk. apply not_elem_of_cons in Hk as [Hne Hk].
      rewrite IHout by exact Hk. apply Hother. exact Hne.
Qed.

Lemma removeStep_ops snap (paths : list string) :
  forall acc,
    snd acc <= snd (fold_left (removeStep snap) paths acc)
    /\ (snd (fold_left (removeStep snap) paths acc) = snd acc ->
        fst (fold_left (removeStep snap) paths acc) = fst acc).
Proof.
  induction paths as [|p paths IH]; intros acc; cbn [fold_left]; [auto|].
  destruct (IH (removeStep snap acc p)) as [Hle Hsame].
  unfold removeStep in *. destruct (missingIn snap p); cbn [fst snd] in *.
  - split; [lia | intros; lia].
  - split; assumption.
Qed.

Lemma updateStep_ops (entries : list (string * string)) :
  forall acc,
    snd acc <= snd (fold_left updateStep entries acc)
    /\ (snd (fold_left updateStep entries acc) = snd acc ->
        fst (fold_left updateStep entries acc) = fst acc).
Proof.
  induction entries as [|e entries IH]; intros acc; cbn [fold_left]; [auto|].
  destruct (IH (updateStep acc e)) as [Hle Hsame].
  unfold updateStep in *.
  destruct (fst acc !! e.1) as [content|];
    [destruct (String.eqb content e.2)|]; cbn [fst snd] in *;
    try (split; [lia | intros; lia]).
  split; assumption.
Qed.

(** The callback of [restoreSnapshot] leaves exactly the snapshot's file
    map. *)
Lemma revertTo_files snap (d : OnlookDoc) :
  files (fst (revertTo snap d)) = snap.
Proof.
  unfold revertTo. cbn [fst files].
  apply map_eq. intros k.
  pose proof (updateStep_fold (map_to_list snap) (NoDup_fst_map_to_list snap)
                (fold_left (removeStep snap) (map_to_list (files d)).*1 (files d, 0)) k)
    as [Hin Hout].
  destruct (snap !! k) as [c|] eqn:Hk.
  - apply Hin. apply elem_of_map_to_list. exact Hk.
  - rewrite Hout.
    + rewrite removeStep_fold. cbn [fst].
      case_decide as Hcase; [reflexivity|].
      destruct (files d !! k) as [content|] eqn:Hd; [|reflexivity].
      exfalso. apply Hcase. split.
      * apply list_elem_of_fmap. exists (k, content).
        split; [reflexivity | apply elem_of_map_to_list; exact Hd].
      * unfold missingIn. rewrite Hk. reflexivity.
    + intros Hmem. apply list_elem_of_fmap in Hmem as ([k' c] & Heq & Hmem).
      cbn in Heq. subst k'. apply elem_of_map_to_list in Hmem. congruence.
Qed.

(** Without operations the callback has changed nothing. *)
Lemma revertTo_no_ops snap (d : OnlookDoc) :
  snd (revertTo snap d) = 0 -> files d = snap.
Proof.
  intros Hops. rewrite <- (revertTo_files snap d).
  unfold revertTo in *. cbn [fst snd files] in *.
  destruct (updateStep_ops (map_to_list snap)
              (fold_left (removeStep snap) (map_to_list (files d)).*1 (files d, 0)))
    as [Hle2 Hsame2].
  destruct (removeStep_ops snap (map_to_list (files d)).*1 (files d, 0))
    as [Hle1 Hsame1].
  cbn [fst snd] in *.
  rewrite Hsame2 by lia. rewrite Hsame1 by lia. reflexivity.
Qed.

Lemma currentDoc_app (doc : Doc) (state : HistoryState) :
  currentDoc (doc ++ [state]) = snapshot state.
Proof. unfold currentDoc. rewrite map_app. cbn. apply last_last. Qed.

(** The entry [restoreSnapshot] appends when it changes the document. *)
Definition revertState (target newHash : string) (now : Z)
           (doc : Doc) (found : HistoryState) : HistoryState :=
  {| change := {| hash := newHash;
                  message := Some ("Revert to " +:+ target);
                  time := now |};
     snapshot := {| files := files (snapshot found);
                    lastSnapshot := lastSnapshot (currentDoc doc) |} |}.

Lemma restoreSnapshot_found (m : Manager) (doc : Doc)
      (target newHash : string) (now : Z) (found : HistoryState) :
  handle m = Some (Some doc) ->
  findSnapshot target doc = Some found ->
  exists doc',
    restoreSnapshot target newHash now m
    = Return {| handle := Some (Some doc');
                memoryFiles := files (snapshot found) |}
    /\ files (currentDoc doc') = files (snapshot found)
    /\ ((doc' = doc /\ files (currentDoc doc) = files (snapshot found))
        \/ doc' = doc ++ [revertState target newHash now doc found]).
Proof.
  intros Hh Hfind. unfold restoreSnapshot. rewrite Hh, Hfind.
  unfold handleChange.
  pose proof (revertTo_files (files (snapshot found)) (currentDoc doc)) as Hfiles.
  pose proof (revertTo_no_ops (files (snapshot found)) (currentDoc doc)) as Hnone.
  destruct (revertTo (files (snapshot found)) (currentDoc doc)) as [d ops] eqn:Hrev.
  cbn [fst snd] in *.
  destruct (ops =? 0) eqn:Hops.
  - apply Nat.eqb_eq in Hops. exists doc.
    unfold afterChange. rewrite Nat.eqb_refl. cbn [handle].
    split; [reflexivity|]. split; [auto | left; auto].
  - exists (doc ++ [revertState target newHash now doc found]).
    assert (Hd : d = {| files := files (snapshot found);
                        lastSnapshot := lastSnapshot (currentDoc doc) |}).
    { unfold revertTo in Hrev. inversion Hrev; subst. cbn [files] in Hfiles.
      rewrite Hfiles. reflexivity. }
    subst d. unfold afterChange, onDocChange.
    rewrite length_app. cbn [List.length].
    destruct (Nat.eqb_spec (List.length doc) (List.length doc + 1)); [lia|].
    cbn [handle]. split; [reflexivity|].
    split; [rewrite currentDoc_app; reflexivity | right; reflexivity].
Qed.


End Snapshots.

(** ** SandboxManager: the snapshot before a restore *)

Section SafetySnapshot.

Import SandboxManager.

(** The history holds a snapshot taken right before the restore: an entry
    added after the entries there were, with the files as they were before
    the restore. *)
Definition backupInHistory (before after : list HistoryEntry)
           (filesBefore : gmap string string) : Prop :=
  exists e tail, after = before ++ e :: tail /\ entryFiles e = filesBefore.

(** The entry of [getHistory] for one state of the history. *)
Definition entryOf (state : HistoryState) : HistoryEntry :=
  {| oid := hash (change state);
     entryMessage :=
       match message (change state) with
       | Some text => if Js.truthyStr text then text else "No message"
       | None => "No message"
       end;
     timestamp := time (change state);
     author := "Onlook User";
     entryFiles := files (snapshot state) |}.

Lemma getHistory_entries (doc : Doc) (fs : gmap string string) :
  getHistory {| handle := Some (Some doc); memoryFiles := fs |}
  = List.map entryOf doc.
Proof. reflexivity. Qed.

(** The state [createSnapshot] appends. *)
Definition backupState (saveMessage newHash : string) (now : Z) (doc : Doc)
  : HistoryState :=
  {| change := {| hash := newHash; message := Some saveMessage; time := now |};
     snapshot := {| files := files (currentDoc doc); lastSnapshot := Some now |} |}.

Lemma createSnapshot_appends (m : Manager) (doc : Doc)
      (saveMessage newHash : string) (now : Z) :
  handle m = Some (Some doc) ->
  createSnapshot saveMessage newHash now m
  = Return {| handle := Some (Some (doc ++ [backupState saveMessage newHash now doc]));
              memoryFiles := files (currentDoc doc) |}.
Proof.
  intros Hh. unfold createSnapshot. rewrite Hh.
  unfold handleChange, stampSnapshot.
  assert (Hops : (match lastSnapshot (currentDoc doc) with
                  | Some _ => 1 | None => 2 end =? 0) = false)
    by (destruct (lastSnapshot (currentDoc doc)); reflexivity).
  rewrite Hops.
  unfold afterChange, onDocChange. rewrite length_app. cbn [List.length].
  destruct (Nat.eqb_spec (List.length doc) (List.length doc + 1)); [lia|].
  rewrite currentDoc_app. reflexivity.
Qed.

(** [restoreSnapshot] appends nothing but its own change. *)
Lemma restoreSnapshot_history (m : Manager) (doc : Doc)
      (target newHash : string) (now : Z) :
  handle m = Some (Some doc) ->
  exists m',
    restoreSnapshot target newHash now m = Return m'
    /\ (getHistory m' = getHistory m
        \/ exists found,
             findSnapshot target doc = Some found
             /\ getHistory m'
                = getHistory m ++ [entryOf (revertState target newHash now doc found)]).
Proof.
  intros Hh.
  destruct (findSnapshot target doc) as [found|] eqn:Hfind.
  - destruct (restoreSnapshot_found m doc target newHash now found Hh Hfind)
      as (doc' & Hrestore & _ & Hdoc).
    eexists. split; [exact Hrestore|].
    destruct m as [h fs]. cbn [handle] in Hh. subst h.
    rewrite !getHistory_entries.
    destruct Hdoc as [[-> _]| ->]; [left; reflexivity|].
    right. exists found. split; [reflexivity|].
    rewrite map_app. reflexivity.
  - exists m. split; [|left; reflexivity].
    unfold restoreSnapshot. rewrite Hh, Hfind. reflexivity.
Qed.

(** The history is only ever extended, so after a restore the state the
    document had before it is still there, as the last of the entries there
    were. *)
Lemma history_ends_with_current (doc : Doc) (state : HistoryState) :
  entryFiles (List.last (List.map entryOf (doc ++ [state])) (entryOf state))
  = files (currentDoc (doc ++ [state])).
Proof. rewrite map_app, currentDoc_app. cbn [List.map]. rewrite last_last. reflexivity. Qed.


End SafetySnapshot.

(** A document with two changes; the first is to be restored. *)
Definition stateA : SandboxManager.HistoryState :=
  {| SandboxManager.change :=
       {| SandboxManager.hash := "h0"; SandboxManager.message := Some "first";
          SandboxManager.time := 10 |};
     SandboxManager.snapshot :=
       {| SandboxManager.files := {[ "/a.js" := "one" ]};
          SandboxManager.lastSnapshot := None |} |}.

Definition stateB : SandboxManager.HistoryState :=
  {| SandboxManager.change :=
       {| SandboxManager.hash := "h1"; SandboxManager.message := None;
          SandboxManager.time := 20 |};
     SandboxManager.snapshot :=
       {| SandboxManager.files := <[ "/b.js" := "new" ]> {[ "/a.js" := "two" ]};
          SandboxManager.lastSnapshot := None |} |}.

Definition managerAB : SandboxManager.Manager :=
  {| SandboxManager.handle := Some (Some [stateA; stateB]);
     SandboxManager.memoryFiles :=
       SandboxManager.files (SandboxManager.snapshot stateB) |}.




(** The history after [checkoutAndSave] in this run: the two changes, the
    backup, the restore. *)
Example checkoutAndSave_history :
  match SandboxManager.checkoutAndSave "h0" "Backup before checkout" "h2" 30 "h3" 31
          managerAB with
  | Return m' =>
      List.map (fun e => (SandboxManager.oid e, SandboxManager.entryMessage e))
               (SandboxManager.getHistory m')
  | _ => []
  end
  = [ ("h0", "first"); ("h1", "No message");
      ("h2", "Backup before checkout"); ("h3", "Revert to h0") ].
Proof. vm_compute. reflexivity. Qed.

(* ===================================================================== *)
(** * Part III: further properties of the same programs                  *)
(* ===================================================================== *)

(** ** Strings, lists and dictionaries *)

Lemma sapp_cons (c : ascii) (a b : string) : String c a +:+ b = String c (a +:+ b).
Proof. reflexivity. Qed.

Lemma sapp_assoc (a b c : string) : (a +:+ b) +:+ c = a +:+ (b +:+ c).
Proof.
  induction a as [|x a IH]; [reflexivity|].
  rewrite !sapp_cons, IH. reflexivity.
Qed.

Lemma sapp_nil_r (a : string) : a +:+ EmptyString = a.
Proof. induction a as [|x a IH]; [reflexivity|]. rewrite sapp_cons, IH. reflexivity. Qed.

Lemma startsWith_iff (s p : string) :
  Js.startsWith s p = true <-> exists r, s = p +:+ r.
Proof.
  split.
  - intros H. exists (Js.drop (String.length p) s). apply prefix_drop. exact H.
  - intros [r ->]. apply prefix_app.
Qed.

(** A token: code units none of which is white space. *)
Fixpoint isToken (s : string) : bool :=
  match s with
  | EmptyString => true
  | String c s' => negb (Js.isWhiteSpace c) && isToken s'
  end.

Lemma splitWsFrom_token (tok : string) :
  isToken tok = true ->
  forall cur inWs, Js.splitWsFrom tok cur inWs = [cur +:+ tok].
Proof.
  induction tok as [|c tok IH]; intros Htok cur inWs; cbn [Js.splitWsFrom].
  - rewrite sapp_nil_r. reflexivity.
  - cbn [isToken] in Htok. apply andb_true_iff in Htok as [Hc Htok].
    apply negb_true_iff in Hc. rewrite Hc, IH by exact Htok.
    rewrite sapp_assoc. reflexivity.
Qed.

Lemma trimEnd_token (tok : string) : isToken tok = true -> Js.trimEnd tok = tok.
Proof.
  induction tok as [|c tok IH]; intros Htok; [reflexivity|].
  cbn [isToken] in Htok. apply andb_true_iff in Htok as [Hc Htok].
  apply negb_true_iff in Hc. cbn [Js.trimEnd]. rewrite IH by exact Htok.
  rewrite Hc, andb_false_r. reflexivity.
Qed.

Lemma trim_token (tok : string) : isToken tok = true -> Js.trim tok = tok.
Proof.
  intros Htok. unfold Js.trim.
  assert (Hstart : Js.trimStart tok = tok).
  { destruct tok as [|c tok]; [reflexivity|]. cbn [isToken] in Htok.
    apply andb_true_iff in Htok as [Hc _]. apply negb_true_iff in Hc.
    cbn [Js.trimStart]. rewrite Hc. reflexivity. }
  rewrite Hstart. apply trimEnd_token. exact Htok.
Qed.

Lemma filter_twice {A : Type} (f g : A -> bool) (l : list A) :
  List.filter f (List.filter g l) = List.filter (fun x => g x && f x) l.
Proof.
  induction l as [|x l IH]; [reflexivity|].
  cbn [List.filter]. destruct (g x); cbn [List.filter andb]; rewrite IH; reflexivity.
Qed.

Lemma existsb_eqb_in (x : string) (l : list string) :
  existsb (String.eqb x) l = true <-> In x l.
Proof.
  rewrite existsb_exists. split.
  - intros (y & Hy & Heq). apply String.eqb_eq in Heq. subst. exact Hy.
  - intros H. exists x. split; [exact H | apply String.eqb_refl].
Qed.

Lemma get_filter_key {V : Type} (p : string -> bool) (k : string) (o : JsObj.t V) :
  JsObj.get k (List.filter (fun kv => p (fst kv)) o)
  = if p k then JsObj.get k o else None.
Proof.
  induction o as [|[k' v] o IH]; [destruct (p k); reflexivity|].
  cbn [List.filter fst]. destruct (p k') eqn:Hk'; cbn [JsObj.get].
  - destruct (String.eqb_spec k' k) as [->|Hne]; [rewrite Hk'; reflexivity | exact IH].
  - rewrite IH. destruct (String.eqb_spec k' k) as [->|Hne]; [rewrite Hk'|]; reflexivity.
Qed.

Lemma keys_replace {V : Type} (k : string) (v : V) (o : JsObj.t V) :
  JsObj.keys (JsObj.replace k v o) = JsObj.keys o.
Proof.
  induction o as [|[k' v'] o IH]; [reflexivity|].
  cbn [JsObj.replace]. destruct (String.eqb k' k); cbn; [reflexivity|].
  f_equal. exact IH.
Qed.

(** Writing to a key that is present adds no key. *)
Lemma keys_set_present {V : Type} (k : string) (v w : V) (o : JsObj.t V) :
  JsObj.get k o = Some w -> JsObj.keys (JsObj.set k v o) = JsObj.keys o.
Proof.
  intros H. unfold JsObj.set, JsObj.has. rewrite H. apply keys_replace.
Qed.

Lemma in_setAdd (x y : string) (l : list string) :
  In x (SandpackAdapter.setAdd y l) <-> x = y \/ In x l.
Proof.
  unfold SandpackAdapter.setAdd. destruct (existsb (String.eqb y) l) eqn:E.
  - split; [auto|]. intros [->|H]; [|exact H]. apply existsb_eqb_in. exact E.
  - rewrite in_app_iff. cbn. split; [intros [H|[H|[]]]; auto | intros [H|H]; auto].
Qed.

Lemma NoDup_setAdd (y : string) (l : list string) :
  List.NoDup l -> List.NoDup (SandpackAdapter.setAdd y l).
Proof.
  intros H. unfold SandpackAdapter.setAdd.
  destruct (existsb (String.eqb y) l) eqn:E; [exact H|].
  apply List.NoDup_app; [exact H | repeat constructor; intros [] |].
  intros a Ha [Heq|[]]. subst a.
  apply existsb_eqb_in in Ha. congruence.
Qed.

(** ** SandpackAdapter: reading, deleting and inspecting files *)

Section AdapterFiles.

Import SandpackAdapter.

(** X1.  A text written to a path that is not a binary path is what
    [readFile] of the same path returns afterwards. *)
Theorem readFile_after_writeFile (path content : string) (s : MapHost) :
  isBinaryPath (normalizePath path) = false ->
  exists s',
    writeFile mapCallbacks path (Text content) s = (s', Return tt)
    /\ readFile mapCallbacks path s' = Return content.
Proof.
  intros Htext. unfold writeFile. rewrite Htext.
  eexists. split; [reflexivity|].
  unfold readFile. cbn [filesAt getFiles mapCallbacks onFileUpdate files].
  rewrite get_set_eq. reflexivity.
Qed.

(** A path the loop of [deleteFiles] deletes: one below the prefix, among
    those it visits. *)
Definition deletedBy (dirPrefix : string) (paths : list string) (k : string) : bool :=
  Js.startsWith k dirPrefix && existsb (String.eqb k) paths.

(** The loop of [deleteFiles] on the host that mutates its file object in
    place: the entries below the prefix are filtered out, and each path is
    reported as the loop meets it. *)
Lemma deleteChildren_files (dirPrefix : string) (paths : list string) :
  forall s : MapHost,
    files (deleteChildren _ _ mapCallbacks dirPrefix paths s)
    = List.filter (fun kv => negb (deletedBy dirPrefix paths (fst kv))) (files s)
    /\ deletedPaths (deleteChildren _ _ mapCallbacks dirPrefix paths s)
       = deletedPaths s ++ List.filter (fun k => Js.startsWith k dirPrefix) paths
    /\ depsNotified (deleteChildren _ _ mapCallbacks dirPrefix paths s) = depsNotified s.
Proof.
  induction paths as [|p paths IH]; intros s.
  - cbn [deleteChildren List.filter]. rewrite app_nil_r. repeat split.
    symmetry. rewrite <- (List.filter_ext (fun _ => true)).
    + induction (files s) as [|kv o IHo]; [reflexivity|]. cbn. f_equal. exact IHo.
    + intros kv. unfold deletedBy. cbn. rewrite andb_false_r. reflexivity.
  - cbn [deleteChildren List.filter].
    destruct (Js.startsWith p dirPrefix) eqn:Hp.
    + destruct (IH (onFileDelete mapCallbacks p s)) as (Hf & Hd & Hn).
      rewrite Hf, Hd, Hn.
      cbn [onFileDelete mapCallbacks files deletedPaths depsNotified].
      repeat split.
      * unfold JsObj.delete. rewrite filter_twice.
        apply List.filter_ext. intros [k v]. unfold deletedBy. cbn [fst existsb].
        destruct (String.eqb_spec k p) as [->|Hne]; cbn.
        -- rewrite Hp. reflexivity.
        -- reflexivity.
      * rewrite <- app_assoc. reflexivity.
    + destruct (IH s) as (Hf & Hd & Hn).
      rewrite Hf, Hd, Hn.
      repeat split.
      apply List.filter_ext. intros [k v]. unfold deletedBy. cbn [fst existsb].
      destruct (String.eqb_spec k p) as [->|Hne]; [rewrite Hp; reflexivity|].
      reflexivity.
Qed.

(** [deleteFiles], as equations between file maps. *)
Lemma deleteFiles_run (path : string) (s : MapHost) :
  let n := normalizePath path in
  let P := withTrailingSlash n in
  exists s',
    deleteFiles mapCallbacks path s = (s', Return tt)
    /\ depsNotified s' = depsNotified s
    /\ (JsObj.has n (files s) = true ->
        files s' = JsObj.delete n (files s)
        /\ deletedPaths s' = deletedPaths s ++ [n])
    /\ (JsObj.has n (files s) = false ->
        files s' = List.filter (fun kv => negb (Js.startsWith (fst kv) P)) (files s)
        /\ deletedPaths s'
           = deletedPaths s
             ++ List.filter (fun k => Js.startsWith k P) (JsObj.keys (files s))).
Proof.
  intros n P. unfold deleteFiles.
  cbn [filesAt getFiles mapCallbacks]. fold n. fold P.
  destruct (JsObj.has n (files s)) eqn:Hhas.
  - eexists. split; [reflexivity|].
    cbn [onFileDelete mapCallbacks files deletedPaths depsNotified].
    repeat split; intros; discriminate.
  - eexists. split; [reflexivity|].
    destruct (deleteChildren_files P (JsObj.keys (files s)) s) as (Hf & Hd & Hn).
    split; [exact Hn|]. split; [discriminate|]. intros _. split; [|exact Hd].
    rewrite Hf. apply List.filter_ext_in. intros kv Hin.
    unfold deletedBy.
    assert (Hkey : existsb (String.eqb (fst kv)) (JsObj.keys (files s)) = true).
    { apply existsb_eqb_in. unfold JsObj.keys. apply in_map. exact Hin. }
    rewrite Hkey, andb_true_r. reflexivity.
Qed.

(** X2.  [deleteFiles] never throws.  When the path is a key of the file
    map, that key is removed and nothing else, files below it included;
    otherwise every key that starts with the path followed by a separator
    is removed, each reported once in the order of enumeration, and every
    other key keeps its content (a path that matches nothing changes
    nothing). *)
Theorem deleteFiles_removes (path : string) (s : MapHost) :
  exists s',
    deleteFiles mapCallbacks path s = (s', Return tt)
    /\ (forall k,
           JsObj.get k (files s')
           = if JsObj.has (normalizePath path) (files s)
             then (if String.eqb k (normalizePath path) then None
                   else JsObj.get k (files s))
             else (if Js.startsWith k (withTrailingSlash (normalizePath path))
                   then None else JsObj.get k (files s)))
    /\ deletedPaths s'
       = deletedPaths s
         ++ (if JsObj.has (normalizePath path) (files s)
             then [normalizePath path]
             else List.filter
                    (fun k => Js.startsWith k (withTrailingSlash (normalizePath path)))
                    (JsObj.keys (files s)))
    /\ depsNotified s' = depsNotified s.
Proof.
  destruct (deleteFiles_run path s) as (s' & Hrun & Hn & Hexact & Hdir).
  exists s'. split; [exact Hrun|].
  destruct (JsObj.has (normalizePath path) (files s)).
  - destruct (Hexact eq_refl) as [Hf Hd]. split; [|split; assumption].
    intros k. rewrite Hf. destruct (String.eqb_spec k (normalizePath path)) as [->|Hne].
    + apply get_delete_eq.
    + apply get_delete_ne. congruence.
  - destruct (Hdir eq_refl) as [Hf Hd]. split; [|split; assumption].
    intros k. rewrite Hf.
    rewrite (get_filter_key
               (fun k => negb (Js.startsWith k (withTrailingSlash (normalizePath path))))).
    destruct (Js.startsWith k (withTrailingSlash (normalizePath path))); reflexivity.
Qed.

(** X4.  After [deleteFiles(path)], [statFile(path)] throws [Path not
    found], unless the path was a file with other files below it. *)
Theorem statFile_after_deleteFiles (path : string) (s : MapHost) :
  (JsObj.has (normalizePath path) (files s) = true ->
   forall k, In k (JsObj.keys (files s)) ->
             Js.startsWith k (withTrailingSlash (normalizePath path)) = false) ->
  statFile mapCallbacks path (fst (deleteFiles mapCallbacks path s))
  = Throw ("[SandpackAdapter] Path not found: " +:+ path).
Proof.
  set (n := normalizePath path). set (P := withTrailingSlash n).
  intros Hfile.
  destruct (deleteFiles_run path s) as (s' & Hrun & _ & Hexact & Hdir).
  fold n in Hexact, Hdir. fold P in Hdir.
  rewrite Hrun. cbn [fst].
  assert (Hget : JsObj.get n (files s') = None).
  { destruct (JsObj.has n (files s)) eqn:Hhas.
    - destruct (Hexact eq_refl) as [-> _]. apply get_delete_eq.
    - destruct (Hdir eq_refl) as [-> _].
      rewrite (get_filter_key (fun k => negb (Js.startsWith k P))).
      apply has_false_get in Hhas. rewrite Hhas. destruct (negb _); reflexivity. }
  assert (Hkeys : forall k, In k (JsObj.keys (files s')) -> Js.startsWith k P = false).
  { intros k Hk. destruct (JsObj.has n (files s)) eqn:Hhas.
    - destruct (Hexact eq_refl) as [Hf _]. rewrite Hf in Hk. apply (Hfile eq_refl).
      unfold JsObj.keys, JsObj.delete in *. apply in_map_iff in Hk as (kv & <- & Hin).
      apply filter_In in Hin as [Hin _]. apply in_map. exact Hin.
    - destruct (Hdir eq_refl) as [Hf _]. rewrite Hf in Hk.
      unfold JsObj.keys in Hk. apply in_map_iff in Hk as (kv & <- & Hin).
      apply filter_In in Hin as [_ Hneg]. apply negb_true_iff in Hneg. exact Hneg. }
  unfold statFile. cbn [filesAt getFiles mapCallbacks]. fold n. fold P.
  unfold JsObj.has. rewrite Hget.
  replace (existsb (fun filePath => Js.startsWith filePath P) (JsObj.keys (files s')))
    with false; [reflexivity|].
  symmetry. apply not_true_is_false. intros Hex.
  apply existsb_exists in Hex as (k & Hk & Hst). rewrite (Hkeys k Hk) in Hst. discriminate.
Qed.

End AdapterFiles.

Lemma readFile_after_writeFile_witness :
  exists s',
    SandpackAdapter.writeFile SandpackAdapter.mapCallbacks "App.js"
      (SandpackAdapter.Text "new content") (SandpackAdapter.hostOf [])
    = (s', Return tt)
    /\ SandpackAdapter.readFile SandpackAdapter.mapCallbacks "App.js" s'
       = Return "new content".
Proof.
  apply (readFile_after_writeFile "App.js" "new content" (SandpackAdapter.hostOf [])).
  reflexivity.
Defined.

(** The file map of the adapter's test-suite for [deleteFiles]. *)
Definition srcAndOther : SandpackAdapter.MapHost :=
  SandpackAdapter.hostOf [("/src/a.js", "a"); ("/src/b.js", "b"); ("/other.js", "other")].

Example deleteFiles_directory_example :
  SandpackAdapter.deleteFiles SandpackAdapter.mapCallbacks "/src" srcAndOther
  = ({| SandpackAdapter.files := [("/other.js", "other")];
        SandpackAdapter.deletedPaths := ["/src/a.js"; "/src/b.js"];
        SandpackAdapter.depsNotified := [] |}, Return tt).
Proof. reflexivity. Qed.

Lemma statFile_after_deleteFiles_witness :
  SandpackAdapter.statFile SandpackAdapter.mapCallbacks "/other.js"
    (fst (SandpackAdapter.deleteFiles SandpackAdapter.mapCallbacks "/other.js"
            srcAndOther))
  = Throw "[SandpackAdapter] Path not found: /other.js".
Proof.
  apply (statFile_after_deleteFiles "/other.js" srcAndOther).
  intros _ k [<-|[<-|[<-|[]]]]; reflexivity.
Defined.

(** A file that has files below its own path: after it is deleted the
    path is still a directory. *)
Example statFile_after_deleting_a_file_with_children :
  SandpackAdapter.statFile SandpackAdapter.mapCallbacks "/src"
    (fst (SandpackAdapter.deleteFiles SandpackAdapter.mapCallbacks "/src"
            (SandpackAdapter.hostOf [("/src", "x"); ("/src/a.js", "a")])))
  = Return SandpackAdapter.directory.
Proof. reflexivity. Qed.

(** ** SandpackAdapter: listings *)

Section AdapterListings.

Import SandpackAdapter.

Lemma normalizePath_rooted (p : string) : Js.startsWith (normalizePath p) "/" = true.
Proof.
  unfold normalizePath. destruct (Js.startsWith p "/") eqn:E; cbn [negb]; [exact E|].
  apply (prefix_app "/" p).
Qed.

(** The child of [dir] a file lies in or is. *)
Definition childOf (dir filePath : string) : string :=
  firstSegment (Js.sliceFrom (Z.of_nat (String.length dir)) (normalizePath filePath)).

Definition listed (dir filePath : string) : bool :=
  Js.startsWith (normalizePath filePath) dir && Js.truthyStr (childOf dir filePath).

(** The names [listEntries] collects are those the loop of [handleLs]
    collects. *)
Lemma listEntries_names (dir : string) (allDirs paths : list string) :
  forall entries,
    List.map name (listEntries dir allDirs paths entries)
    = lsEntries dir paths (List.map name entries).
Proof.
  induction paths as [|p paths IH]; intros entries; [reflexivity|].
  cbn [listEntries lsEntries].
  destruct (Js.startsWith (normalizePath p) dir); cbn [negb]; [|apply IH].
  set (seg := firstSegment _).
  destruct (Js.truthyStr seg); cbn [negb]; [|apply IH].
  unfold setAdd.
  assert (Hex : existsb (fun e => String.eqb (name e) seg) entries
                = existsb (String.eqb seg) (List.map name entries)).
  { clear. induction entries as [|e entries IHe]; [reflexivity|].
    cbn. rewrite IHe. rewrite (String.eqb_sym seg). reflexivity. }
  rewrite Hex.
  destruct (existsb (String.eqb seg) (List.map name entries)); [apply IH|].
  rewrite IH, map_app. reflexivity.
Qed.

Lemma lsEntries_spec (dir : string) (paths : list string) :
  forall entries,
    List.NoDup entries ->
    List.NoDup (lsEntries dir paths entries)
    /\ forall n, In n (lsEntries dir paths entries)
                 <-> In n entries
                     \/ exists k, In k paths /\ listed dir k = true /\ childOf dir k = n.
Proof.
  induction paths as [|p paths IH]; intros entries Hnd.
  - cbn. split; [exact Hnd|]. intros n. split; [auto|]. intros [H|(k & [] & _)]. exact H.
  - cbn [lsEntries]. fold (childOf dir p).
    destruct (Js.startsWith (normalizePath p) dir) eqn:Hst.
    + destruct (Js.truthyStr (childOf dir p)) eqn:Htr.
      * destruct (IH (setAdd (childOf dir p) entries) (NoDup_setAdd _ _ Hnd)) as [Hnd' Hin].
        split; [exact Hnd'|]. intros n. rewrite Hin, in_setAdd. split.
        -- intros [[->|H]|(k & Hk & Hl & Hc)]; auto.
           ++ right. exists p. repeat split; [left; reflexivity|].
              unfold listed. rewrite Hst, Htr. reflexivity.
           ++ right. exists k. repeat split; auto. right. exact Hk.
        -- intros [H|(k & [<-|Hk] & Hl & Hc)]; auto.
           right. exists k. auto.
      * destruct (IH entries Hnd) as [Hnd' Hin].
        split; [exact Hnd'|]. intros n. rewrite Hin. split.
        -- intros [H|(k & Hk & Hl & Hc)]; auto. right. exists k. repeat split; auto. right; auto.
        -- intros [H|(k & [<-|Hk] & Hl & Hc)]; auto.
           ++ unfold listed in Hl. rewrite Hst, Htr in Hl. discriminate.
           ++ right. exists k. auto.
    + destruct (IH entries Hnd) as [Hnd' Hin].
      split; [exact Hnd'|]. intros n. rewrite Hin. split.
      -- intros [H|(k & Hk & Hl & Hc)]; auto. right. exists k. repeat split; auto. right; auto.
      -- intros [H|(k & [<-|Hk] & Hl & Hc)]; auto.
         ++ unfold listed in Hl. rewrite Hst in Hl. discriminate.
         ++ right. exists k. auto.
Qed.

Lemma lsRootEntries_lsEntries (paths : list string) :
  forall entries, lsRootEntries paths entries = lsEntries "/" paths entries.
Proof.
  induction paths as [|p paths IH]; intros entries; [reflexivity|].
  cbn [lsRootEntries lsEntries]. rewrite normalizePath_rooted.
  change (Z.of_nat (String.length "/")) with 1%Z. apply IH.
Qed.

(** *** What [getDirectories] holds *)

Lemma splitCharFrom_cons (sep : ascii) (s cur : string) :
  exists part parts, Js.splitCharFrom sep s cur = part :: parts.
Proof.
  revert cur. induction s as [|c s IH]; intros cur; cbn [Js.splitCharFrom].
  - eauto.
  - destruct (Ascii.eqb c sep); [eauto | apply IH].
Qed.

Lemma addParents_acc (parts : list string) :
  forall current dirs D,
    In D (addParents parts current dirs)
    <-> In D dirs \/ In D (addParents parts current []).
Proof.
  induction parts as [|part rest IH]; intros current dirs D; cbn [addParents].
  - cbn. tauto.
  - destruct rest as [|part' rest']; [cbn; tauto|].
    rewrite IH. rewrite (IH _ (setAdd _ [])). rewrite !in_setAdd. cbn [In]. tauto.
Qed.

(** The directories one path contributes: its proper prefixes that end
    before a separator. *)
Lemma addParents_split (rest : string) :
  forall cur current D,
    In D (addParents (Js.splitCharFrom "/" rest cur) current [])
    <-> exists a b, rest = a +:+ "/" +:+ b /\ D = current +:+ "/" +:+ cur +:+ a.
Proof.
  induction rest as [|c rest IH]; intros cur current D; cbn [Js.splitCharFrom].
  - cbn. split; [intros []|]. intros (a & b & H & _).
    destruct a; discriminate.
  - destruct (Ascii.eqb_spec c "/") as [->|Hc].
    + destruct (splitCharFrom_cons "/" rest EmptyString) as (part & parts & Hsplit).
      cbn [addParents]. rewrite Hsplit. rewrite <- Hsplit.
      rewrite addParents_acc, in_setAdd, IH. cbn [In]. split.
      * intros [[->|[]]|(a & b & -> & ->)].
        -- exists EmptyString, rest. split; [reflexivity|].
           rewrite sapp_nil_r. reflexivity.
        -- exists ("/" +:+ a), b. split; [reflexivity|].
           change (EmptyString +:+ a) with a.
           rewrite !sapp_assoc. reflexivity.
      * intros (a & b & Hrest & ->).
        destruct a as [|x a].
        -- left. left. rewrite sapp_nil_r. reflexivity.
        -- rewrite sapp_cons in Hrest. inversion Hrest; subst.
           right. exists a, b. split; [reflexivity|].
           change (EmptyString +:+ a) with a.
           rewrite !sapp_assoc. reflexivity.
    + rewrite IH. split.
      * intros (a & b & -> & ->). exists (String c a), b. split; [reflexivity|].
        rewrite !sapp_assoc. reflexivity.
      * intros (a & b & Hrest & ->).
        destruct a as [|x a].
        -- change (EmptyString +:+ "/" +:+ b) with (String "/" b) in Hrest.
           inversion Hrest; subst. contradiction.
        -- rewrite sapp_cons in Hrest. inversion Hrest; subst.
           exists a, b. split; [reflexivity|].
           rewrite !sapp_assoc. reflexivity.
Qed.

Lemma parents_of_rooted (k D : string) :
  Js.startsWith k "/" = true ->
  In D (addParents (tl (Js.splitChar "/" k)) EmptyString [])
  <-> D <> EmptyString /\ Js.startsWith k (D +:+ "/") = true.
Proof.
  intros Hk. apply startsWith_iff in Hk as [rest ->].
  change (tl (Js.splitChar "/" ("/" +:+ rest))) with (Js.splitCharFrom "/" rest EmptyString).
  rewrite addParents_split, startsWith_iff. split.
  - intros (a & b & -> & ->). split; [discriminate|].
    exists b. change (EmptyString +:+ "/" +:+ EmptyString +:+ a) with ("/" +:+ a).
    rewrite !sapp_assoc. reflexivity.
  - intros [Hne [b Hb]]. destruct D as [|x D]; [contradiction|].
    rewrite sapp_assoc in Hb.
    change ("/" +:+ rest) with (String "/" rest) in Hb.
    rewrite sapp_cons in Hb. inversion Hb; subst.
    exists D, b. split; reflexivity.
Qed.

Lemma getDirectories_fold (paths : list string) :
  forall dirs D,
    In D (fold_left
            (fun dirs filePath =>
               addParents (tl (Js.splitChar "/" filePath)) EmptyString dirs)
            paths dirs)
    <-> In D dirs
        \/ exists k, In k paths
                     /\ In D (addParents (tl (Js.splitChar "/" k)) EmptyString []).
Proof.
  induction paths as [|p paths IH]; intros dirs D; cbn [fold_left].
  - split; [auto|]. intros [H|(k & [] & _)]. exact H.
  - rewrite IH, addParents_acc. split.
    + intros [[H|H]|(k & Hk & H)]; auto.
      * right. exists p. split; [left; reflexivity | exact H].
      * right. exists k. split; [right; exact Hk | exact H].
    + intros [H|(k & [<-|Hk] & H)]; auto. right. exists k. auto.
Qed.

(** Among paths that begin with a separator, a directory is the root or a
    non-empty path with a file below it. *)
Lemma getDirectories_rooted (fs : JsObj.t string) (D : string) :
  (forall k, In k (JsObj.keys fs) -> Js.startsWith k "/" = true) ->
  In D (getDirectories fs)
  <-> D = "/"
      \/ (D <> EmptyString
          /\ exists k, In k (JsObj.keys fs) /\ Js.startsWith k (D +:+ "/") = true).
Proof.
  intros Hrooted. unfold getDirectories. rewrite getDirectories_fold. cbn [In]. split.
  - intros [[<-|[]]|(k & Hk & H)]; [left; reflexivity|].
    right. apply parents_of_rooted in H as [Hne Hst]; [|apply Hrooted; exact Hk]. eauto.
  - intros [->|(Hne & k & Hk & Hst)]; [left; left; reflexivity|].
    right. exists k. split; [exact Hk|].
    apply parents_of_rooted; [apply Hrooted; exact Hk | auto].
Qed.

(** What [listEntries] records about a child. *)
Definition recorded (dir : string) (allDirs : list string)
           (e : ListFilesOutputFile) : Prop :=
  name e <> EmptyString
  /\ isSymlink e = false
  /\ type e = if existsb (String.eqb (dir +:+ name e)) allDirs then directory else file.

Lemma listEntries_recorded (dir : string) (allDirs paths : list string) :
  forall entries,
    Forall (recorded dir allDirs) entries ->
    Forall (recorded dir allDirs) (listEntries dir allDirs paths entries).
Proof.
  induction paths as [|p paths IH]; intros entries H; [exact H|].
  cbn [listEntries].
  destruct (Js.startsWith (normalizePath p) dir); cbn [negb]; [|apply IH; exact H].
  set (seg := firstSegment _).
  destruct (Js.truthyStr seg) eqn:Htr; cbn [negb]; [|apply IH; exact H].
  destruct (existsb _ entries); [apply IH; exact H|].
  apply IH. apply Forall_app. split; [exact H|].
  constructor; [|constructor].
  repeat split. cbn [name]. intros Heq. rewrite Heq in Htr. discriminate.
Qed.

Variables S R : Type.
Variable callbacks : SandpackAdapterCallbacks S R.

(** X3.  On a file map whose keys all begin with a separator, and for a
    path without a trailing separator: [statFile] answers [file] exactly for
    the keys of the map, and for any other path it answers [directory]
    exactly when [getDirectories] holds the path, and throws otherwise.  So
    [statFile] and the listing agree on what a directory is. *)
Theorem statFile_agrees_with_getDirectories (path : string) (s : S) :
  let fs := filesAt callbacks (getFiles callbacks s) s in
  (forall k, In k (JsObj.keys fs) -> Js.startsWith k "/" = true) ->
  Js.endsWith (normalizePath path) "/" = false ->
  statFile callbacks path s
  = if JsObj.has (normalizePath path) fs then Return file
    else if existsb (String.eqb (normalizePath path)) (getDirectories fs)
         then Return directory
         else Throw ("[SandpackAdapter] Path not found: " +:+ path).
Proof.
  intros fs Hrooted Hend. unfold statFile. fold fs.
  destruct (JsObj.has (normalizePath path) fs); [reflexivity|].
  set (n := normalizePath path) in *.
  assert (HP : withTrailingSlash n = n +:+ "/")
    by (unfold withTrailingSlash; rewrite Hend; reflexivity).
  rewrite HP.
  assert (Hiff : existsb (fun filePath => Js.startsWith filePath (n +:+ "/"))
                         (JsObj.keys fs) = true
                 <-> existsb (String.eqb n) (getDirectories fs) = true).
  { rewrite existsb_exists, existsb_eqb_in, (getDirectories_rooted fs n Hrooted). split.
    - intros H. right. split; [|exact H].
      intros Hn. subst n. pose proof (normalizePath_rooted path) as Hr.
      rewrite Hn in Hr. discriminate.
    - intros [Hroot|[_ H]]; [|exact H]. rewrite Hroot in Hend. discriminate. }
  destruct (existsb (fun filePath => Js.startsWith filePath (n +:+ "/")) (JsObj.keys fs)),
           (existsb (String.eqb n) (getDirectories fs));
    try reflexivity.
  - destruct Hiff as [H _]. specialize (H eq_refl). discriminate.
  - destruct Hiff as [_ H]. specialize (H eq_refl). discriminate.
Qed.

(** X5.  [listFiles] returns each child once: the names are distinct, and
    a name is listed exactly when it is the non-empty first segment, after
    the directory, of some file below the directory. *)
Theorem listFiles_names (path : string) (s : S) :
  let fs := filesAt callbacks (getFiles callbacks s) s in
  let dir := withTrailingSlash (normalizePath path) in
  let names := List.map name (listFiles callbacks path s) in
  List.NoDup names
  /\ forall n,
       In n names
       <-> exists filePath,
             In filePath (JsObj.keys fs)
             /\ Js.startsWith (normalizePath filePath) dir = true
             /\ firstSegment (Js.sliceFrom (Z.of_nat (String.length dir))
                                (normalizePath filePath)) = n
             /\ n <> EmptyString.
Proof.
  intros fs dir names. subst names. unfold listFiles. fold fs. fold dir.
  rewrite listEntries_names. cbn [List.map].
  destruct (lsEntries_spec dir (JsObj.keys fs) [] (List.NoDup_nil _)) as [Hnd Hin].
  split; [exact Hnd|]. intros n. rewrite Hin. split.
  - intros [[]|(k & Hk & Hl & Hc)]. exists k. unfold listed in Hl.
    apply andb_true_iff in Hl as [Hst Htr]. repeat split; auto.
    intros ->. rewrite Hc in Htr. discriminate.
  - intros (k & Hk & Hst & Hc & Hne). right. exists k. split; [exact Hk|].
    split; [|exact Hc]. unfold listed. fold (childOf dir k) in Hc. rewrite Hst, Hc.
    unfold Js.truthyStr. apply String.eqb_neq in Hne. rewrite Hne. reflexivity.
Qed.

(** X6.  On a file map whose keys all begin with a separator, an entry of
    [listFiles] is typed [directory] exactly when some file lies below it;
    no entry is a symbolic link. *)
Theorem listFiles_directory (path : string) (s : S) :
  let fs := filesAt callbacks (getFiles callbacks s) s in
  let dir := withTrailingSlash (normalizePath path) in
  (forall k, In k (JsObj.keys fs) -> Js.startsWith k "/" = true) ->
  forall e,
    In e (listFiles callbacks path s) ->
    isSymlink e = false
    /\ (type e = directory
        <-> exists k, In k (JsObj.keys fs)
                      /\ Js.startsWith k (dir +:+ name e +:+ "/") = true).
Proof.
  intros fs dir Hrooted e He.
  pose proof (listEntries_recorded dir (getDirectories fs) (JsObj.keys fs) []
                (List.Forall_nil _)) as Hall.
  rewrite List.Forall_forall in Hall.
  destruct (Hall e He) as (Hname & Hsym & Htype).
  split; [exact Hsym|].
  assert (Hdir : exists d, dir = String "/" d).
  { subst dir. pose proof (normalizePath_rooted path) as Hn.
    apply startsWith_iff in Hn as [r Hr]. rewrite Hr.
    unfold withTrailingSlash. destruct (Js.endsWith _ _); eexists; reflexivity. }
  destruct Hdir as [d Hd].
  rewrite Htype.
  destruct (existsb (String.eqb (dir +:+ name e)) (getDirectories fs)) eqn:Hex.
  - apply existsb_eqb_in in Hex.
    apply getDirectories_rooted in Hex; [|exact Hrooted].
    split; [intros _|reflexivity].
    destruct Hex as [Hroot|(_ & k & Hk & Hst)].
    + exfalso. rewrite Hd, sapp_cons in Hroot. inversion Hroot as [Hnil].
      destruct d; [|discriminate]. apply Hname. exact Hnil.
    + exists k. split; [exact Hk|]. rewrite <- sapp_assoc. exact Hst.
  - split; [discriminate|]. intros (k & Hk & Hst). exfalso.
    assert (Hin : In (dir +:+ name e) (getDirectories fs)).
    { apply getDirectories_rooted; [exact Hrooted|]. right. split.
      - rewrite Hd. discriminate.
      - exists k. split; [exact Hk|]. rewrite sapp_assoc. exact Hst. }
    apply existsb_eqb_in in Hin. congruence.
Qed.

(** X7.  [ls] prints the names [listFiles] returns for the same
    directory, sorted, one per line. *)
Theorem handleLs_prints_listFiles (command : string) (s : S) :
  handleLs callbacks command s
  = Js.join Js.LF
      (Js.sort (List.map name
                  (listFiles callbacks (nth 1 (Js.splitWs command) "/") s)))
    +:+ Js.LF.
Proof.
  unfold handleLs, listFiles. rewrite listEntries_names. cbn [List.map].
  set (fs := filesAt callbacks (getFiles callbacks s) s).
  set (target := normalizePath (nth 1 (Js.splitWs command) "/")).
  destruct (lsEntries (withTrailingSlash target) (JsObj.keys fs) []) as [|e es] eqn:E;
    [|reflexivity].
  destruct (String.eqb_spec target "/") as [Hroot|_]; [|reflexivity].
  rewrite lsRootEntries_lsEntries. rewrite Hroot in E.
  change (withTrailingSlash "/") with "/" in E. rewrite E. reflexivity.
Qed.

End AdapterListings.

(** The file map of the adapter's test-suite for [listFiles]. *)
Definition srcTree : SandpackAdapter.MapHost :=
  SandpackAdapter.hostOf [("/src/App.js", "app"); ("/src/utils/helper.js", "helper")].

Lemma srcTree_rooted (k : string) :
  In k (JsObj.keys (SandpackAdapter.files srcTree)) -> Js.startsWith k "/" = true.
Proof. intros [<-|[<-|[]]]; reflexivity. Qed.

Lemma statFile_agrees_with_getDirectories_witness :
  SandpackAdapter.statFile SandpackAdapter.mapCallbacks "/src/utils" srcTree
  = Return SandpackAdapter.directory.
Proof.
  exact (statFile_agrees_with_getDirectories _ _ SandpackAdapter.mapCallbacks
           "/src/utils" srcTree srcTree_rooted eq_refl).
Defined.

Lemma listFiles_directory_witness :
  SandpackAdapter.listFiles SandpackAdapter.mapCallbacks "/src" srcTree
  = [ {| SandpackAdapter.name := "App.js"; SandpackAdapter.type := SandpackAdapter.file;
         SandpackAdapter.isSymlink := false |};
      {| SandpackAdapter.name := "utils"; SandpackAdapter.type := SandpackAdapter.directory;
         SandpackAdapter.isSymlink := false |} ]
  /\ exists k,
       In k (JsObj.keys (SandpackAdapter.files srcTree))
       /\ Js.startsWith k "/src/utils/" = true.
Proof.
  split; [reflexivity|].
  apply (proj2 (listFiles_directory _ _ SandpackAdapter.mapCallbacks "/src" srcTree
                  srcTree_rooted
                  {| SandpackAdapter.name := "utils";
                     SandpackAdapter.type := SandpackAdapter.directory;
                     SandpackAdapter.isSymlink := false |}
                  (or_intror (or_introl eq_refl)))).
  reflexivity.
Defined.

(** A key without the leading separator: its directory is listed as a
    file. *)
Example listFiles_unrooted_key :
  SandpackAdapter.listFiles SandpackAdapter.mapCallbacks "src"
    (SandpackAdapter.hostOf [("src/utils/helper.js", "helper")])
  = [ {| SandpackAdapter.name := "utils"; SandpackAdapter.type := SandpackAdapter.file;
         SandpackAdapter.isSymlink := false |} ].
Proof. reflexivity. Qed.

(** The root is a directory for [getDirectories] and for the listing, but
    [statFile] finds it only once a file exists. *)
Example statFile_root_of_empty_map :
  SandpackAdapter.statFile SandpackAdapter.mapCallbacks "/" (SandpackAdapter.hostOf [])
  = Throw "[SandpackAdapter] Path not found: /"
  /\ SandpackAdapter.getDirectories [] = ["/"].
Proof. split; reflexivity. Qed.

(** ** SandpackAdapter: commands other than [npm install] *)

Section AdapterCommands.

Import SandpackAdapter.

Variables S R : Type.
Variable callbacks : SandpackAdapterCallbacks S R.
Variable JSON_parse : string -> option Json.value.
Variable JSON_stringify : Json.value -> string.

(** X8.  A command in which the [npm install] pattern does not occur never
    throws and leaves the host as it is: [pwd], [echo], [ls], [cat] (of a
    missing file too) and unknown commands only produce output. *)
Theorem runCommand_without_install (command : string) (s : S) :
  Regex.exec npmInstallRegex command = None ->
  exists output,
    runCommand callbacks JSON_parse JSON_stringify command s = (s, Return output).
Proof.
  intros Hno. unfold runCommand. rewrite Hno.
  destruct (String.eqb (Js.trim command) "pwd"); [eauto|].
  destruct (Js.startsWith (Js.trim command) "echo "); [eauto|].
  destruct (String.eqb (Js.trim command) "ls" || Js.startsWith (Js.trim command) "ls ");
    [eauto|].
  destruct (Js.startsWith (Js.trim command) "cat "); [|eauto].
  destruct (readFile callbacks _ s); eauto.
Qed.

Lemma trim_cat (filePath : string) :
  isToken filePath = true -> filePath <> EmptyString ->
  Js.trim ("cat " +:+ filePath) = "cat " +:+ filePath.
Proof.
  intros Htok Hne. unfold Js.trim.
  change (Js.trimStart ("cat " +:+ filePath)) with ("cat " +:+ filePath).
  change ("cat " +:+ filePath)
    with (String "c" (String "a" (String "t" (String " " filePath)))).
  cbn [Js.trimEnd]. rewrite (trimEnd_token filePath Htok).
  destruct filePath as [|c filePath]; [contradiction|]. reflexivity.
Qed.

(** X9.  [cat] of a path without white space prints what [readFile]
    returns for that path, and the [No such file] line when [readFile]
    throws. *)
Theorem cat_prints_readFile (filePath : string) (s : S) :
  isToken filePath = true -> filePath <> EmptyString ->
  Regex.exec npmInstallRegex ("cat " +:+ filePath) = None ->
  runCommand callbacks JSON_parse JSON_stringify ("cat " +:+ filePath) s
  = (s, Return match readFile callbacks filePath s with
               | Return content => content
               | _ => "cat: " +:+ filePath +:+ ": No such file or directory" +:+ Js.LF
               end).
Proof.
  intros Htok Hne Hno. unfold runCommand. rewrite Hno.
  rewrite (trim_cat filePath Htok Hne).
  change (String.eqb ("cat " +:+ filePath) "pwd") with false.
  change (Js.startsWith ("cat " +:+ filePath) "echo ") with false.
  change (String.eqb ("cat " +:+ filePath) "ls") with false.
  change (Js.startsWith ("cat " +:+ filePath) "ls ") with false.
  cbn [orb].
  replace (Js.startsWith ("cat " +:+ filePath) "cat ") with true
    by (symmetry; apply (prefix_app "cat " filePath)).
  change 4%Z with (Z.of_nat (String.length "cat ")).
  rewrite sliceFrom_prefix by apply (prefix_app "cat " filePath).
  rewrite drop_app, (trim_token filePath Htok).
  destruct (readFile callbacks filePath s); reflexivity.
Qed.

End AdapterCommands.

Lemma runCommand_without_install_witness :
  exists output,
    SandpackAdapter.runCommand SandpackAdapter.mapCallbacks
      JsonText.parse JsonText.stringify "git status" srcTree
    = (srcTree, Return output).
Proof.
  apply (runCommand_without_install _ _ SandpackAdapter.mapCallbacks
           JsonText.parse JsonText.stringify "git status" srcTree).
  vm_compute. reflexivity.
Defined.

Lemma cat_prints_readFile_witness :
  SandpackAdapter.runCommand SandpackAdapter.mapCallbacks
    JsonText.parse JsonText.stringify "cat /readme.txt"
    (SandpackAdapter.hostOf [("/readme.txt", "Hello README")])
  = (SandpackAdapter.hostOf [("/readme.txt", "Hello README")], Return "Hello README").
Proof.
  apply (cat_prints_readFile _ _ SandpackAdapter.mapCallbacks
           JsonText.parse JsonText.stringify "/readme.txt"
           (SandpackAdapter.hostOf [("/readme.txt", "Hello README")])).
  - reflexivity.
  - discriminate.
  - vm_compute. reflexivity.
Defined.

(** The pattern is searched for anywhere in the command: a command that
    merely mentions an installation performs it. *)
Example runCommand_echo_of_an_installation :
  JsObj.keys
    (SandpackAdapter.files
       (fst (SandpackAdapter.runCommand SandpackAdapter.mapCallbacks
               JsonText.parse JsonText.stringify "echo npm install left-pad"
               (SandpackAdapter.hostOf []))))
  = ["/package.json"].
Proof. vm_compute. reflexivity. Qed.

(** ** SandpackAdapter: renameFile on distinct paths *)



(** ** PseudoTerminal *)

Section TerminalListing.

Lemma rooted_normalizePath (p : string) :
  PseudoTerminal.rooted p = SandpackAdapter.normalizePath p.
Proof.
  unfold PseudoTerminal.rooted, SandpackAdapter.normalizePath.
  destruct (Js.startsWith p "/"); reflexivity.
Qed.

(** The second branch of the terminal's loop is never taken: the two
    loops collect the same names. *)
Lemma terminal_lsEntries (dir : string) (paths : list string) :
  Js.startsWith dir "/" = true ->
  forall entries,
    PseudoTerminal.lsEntries dir (SandpackAdapter.withTrailingSlash dir) paths entries
    = SandpackAdapter.lsEntries (SandpackAdapter.withTrailingSlash dir) paths entries.
Proof.
  intros Hdir. induction paths as [|p paths IH]; intros entries; [reflexivity|].
  cbn [PseudoTerminal.lsEntries SandpackAdapter.lsEntries].
  rewrite rooted_normalizePath.
  destruct (Js.startsWith (SandpackAdapter.normalizePath p)
              (SandpackAdapter.withTrailingSlash dir)) eqn:Hst; [apply IH|].
  destruct (String.eqb_spec dir "/") as [Hroot|_].
  - rewrite Hroot in Hst. change (SandpackAdapter.withTrailingSlash "/") with "/" in Hst.
    rewrite normalizePath_rooted in Hst. discriminate.
  - destruct (String.eqb_spec dir EmptyString) as [Hempty|_]; [|apply IH].
    rewrite Hempty in Hdir. discriminate.
Qed.

Variables S R : Type.
Variable callbacks : SandpackAdapter.SandpackAdapterCallbacks S R.

(** X12.  The terminal's [ls] lists the names the adapter's [listFiles]
    returns for the same files and the same target (the root when none is
    given), sorted and separated by two spaces; when there is none it
    prints the [cannot access] line. *)
Theorem terminal_ls_lists_listFiles (targetDir : option string) (s : S) :
  let fs := SandpackAdapter.filesAt callbacks (SandpackAdapter.getFiles callbacks s) s in
  let target := match targetDir with Some t => t | None => "/" end in
  PseudoTerminal.handleLs fs targetDir
  = match List.map SandpackAdapter.name (SandpackAdapter.listFiles callbacks target s) with
    | [] => "ls: cannot access '" +:+ target +:+ "': No such file or directory"
    | names => Js.join "  " (Js.sort names)
    end.
Proof.
  intros fs target. unfold PseudoTerminal.handleLs, SandpackAdapter.listFiles.
  fold fs. rewrite listEntries_names. cbn [List.map].
  set (dir := match targetDir with
              | Some t => if Js.truthyStr t then PseudoTerminal.rooted t else "/"
              | None => "/"
              end).
  assert (Hdir : dir = SandpackAdapter.normalizePath target).
  { subst dir target. destruct targetDir as [t|]; [|reflexivity].
    destruct t as [|c t]; [reflexivity|]. apply rooted_normalizePath. }
  fold (SandpackAdapter.withTrailingSlash dir).
  rewrite terminal_lsEntries by (rewrite Hdir; apply normalizePath_rooted).
  rewrite Hdir. reflexivity.
Qed.

End TerminalListing.

Section TerminalOutput.

Import PseudoTerminal.

Lemma executeCommand_callbacks (files : JsObj.t string) (command : string) (t : Terminal) :
  outputCallbacks (fst (executeCommand files command t)) = outputCallbacks t.
Proof.
  unfold executeCommand.
  repeat match goal with
         | |- context [if ?b then _ else _] => destruct b
         | |- context [match ?o with Some _ => _ | None => _ end] => destruct o
         end; reflexivity.
Qed.

Lemma write_callbacks (files : JsObj.t string) (input : string) (t : Terminal) :
  outputCallbacks (fst (write files input t)) = outputCallbacks t
  /\ Forall (fun call => In (fst call) (outputCallbacks t)) (snd (write files input t)).
Proof.
  unfold write. destruct (negb (Js.truthyStr (Js.trim input))).
  - split; [reflexivity | constructor].
  - pose proof (executeCommand_callbacks files (Js.trim input) t) as H.
    destruct (executeCommand files (Js.trim input) t) as [t' output].
    cbn [fst snd] in *. split; [exact H|].
    unfold emitOutput. rewrite H. apply List.Forall_forall.
    intros call Hin. apply in_map_iff in Hin as (c & <- & Hc). exact Hc.
Qed.

Lemma registeredBy_step (a : Action) (actions : list Action) :
  registeredBy (a :: actions)
  = match a with CallOnOutput callback => [callback] | _ => [] end
    ++ registeredBy actions.
Proof. reflexivity. Qed.

(** Every call goes to a callback that is registered at the time. *)
Lemma run_calls (allowed : Callback -> Prop) (actions : list Action) :
  forall x : World,
    (forall c, In c (outputCallbacks (terminal x)) -> allowed c) ->
    (forall c, In c (registeredBy actions) -> allowed c) ->
    exists calls,
      delivered (run x actions) = delivered x ++ calls
      /\ Forall (fun call => allowed (fst call)) calls.
Proof.
  induction actions as [|a actions IH]; intros x Hnow Hlater.
  - exists []. cbn. rewrite app_nil_r. split; [reflexivity | constructor].
  - rewrite registeredBy_step in Hlater.
    assert (Hrest : forall c, In c (registeredBy actions) -> allowed c)
      by (intros c Hc; apply Hlater; apply in_or_app; right; exact Hc).
    change (run x (a :: actions)) with (run (step x a) actions).
    destruct a as [files input| |callback|callback|message]; cbn [step].
    + destruct (write_callbacks files input (terminal x)) as [Hsame Hcalls].
      destruct (write files input (terminal x)) as [t' calls] eqn:Hw.
      cbn [fst snd] in *.
      destruct (IH {| terminal := t'; delivered := delivered x ++ calls |})
        as (calls' & Hrun & Hall); [cbn; rewrite Hsame; exact Hnow | exact Hrest |].
      exists (calls ++ calls'). rewrite Hrun. cbn [delivered]. rewrite app_assoc.
      split; [reflexivity|]. apply Forall_app. split; [|exact Hall].
      eapply List.Forall_impl; [|exact Hcalls]. intros call Hc. apply Hnow. exact Hc.
    + destruct (IH {| terminal := kill (terminal x); delivered := delivered x |})
        as (calls' & Hrun & Hall); [intros c [] | exact Hrest |].
      exists calls'. split; [exact Hrun | exact Hall].
    + destruct (IH {| terminal := onOutput callback (terminal x);
                      delivered := delivered x |})
        as (calls' & Hrun & Hall); [|exact Hrest|].
      { cbn. intros c Hc. apply in_app_or in Hc as [Hc|[<-|[]]]; [apply Hnow; exact Hc|].
        apply Hlater. left. reflexivity. }
      exists calls'. split; [exact Hrun | exact Hall].
    + destruct (IH {| terminal := unsubscribe callback (terminal x);
                      delivered := delivered x |})
        as (calls' & Hrun & Hall); [|exact Hrest|].
      { cbn. intros c Hc. apply filter_In in Hc as [Hc _]. apply Hnow. exact Hc. }
      exists calls'. split; [exact Hrun | exact Hall].
    + destruct (IH {| terminal := terminal x;
                      delivered := delivered x
                                   ++ pushConsoleOutput message (terminal x) |})
        as (calls' & Hrun & Hall); [exact Hnow | exact Hrest |].
      exists (pushConsoleOutput message (terminal x) ++ calls').
      rewrite Hrun. cbn [delivered]. rewrite app_assoc.
      split; [reflexivity|]. apply Forall_app. split; [|exact Hall].
      unfold pushConsoleOutput, emitOutput. apply List.Forall_forall.
      intros call Hin. apply in_map_iff in Hin as (c & <- & Hc). apply Hnow. exact Hc.
Qed.



Lemma trim_cd (target : string) :
  isToken target = true -> target <> EmptyString ->
  Js.trim ("cd " +:+ target) = "cd " +:+ target.
Proof.
  intros Htok Hne. unfold Js.trim.
  change (Js.trimStart ("cd " +:+ target)) with ("cd " +:+ target).
  change ("cd " +:+ target) with (String "c" (String "d" (String " " target))).
  cbn [Js.trimEnd]. rewrite (trimEnd_token target Htok).
  destruct target as [|c target]; [contradiction|]. reflexivity.
Qed.

Lemma splitWs_cd (target : string) :
  isToken target = true -> Js.splitWs ("cd " +:+ target) = ["cd"; target].
Proof.
  intros Htok. unfold Js.splitWs.
  change ("cd " +:+ target) with (String "c" (String "d" (String " " target))).
  cbn [Js.splitWsFrom Js.isWhiteSpace].
  change (Js.isWhiteSpace "c") with false.
  change (Js.isWhiteSpace "d") with false.
  change (Js.isWhiteSpace " ") with true. cbn iota.
  rewrite (splitWsFrom_token target Htok). reflexivity.
Qed.

(** X15.  [cd target] emits an empty output and changes the working
    directory: to the target when it begins with a separator, otherwise to
    the former directory followed by a separator and the target as it is
    written; [pwd] then prints that directory.  The file map is not
    consulted. *)
Theorem cd_then_pwd (files files' : JsObj.t string) (target : string) (t : Terminal) :
  isToken target = true -> target <> EmptyString ->
  let there := if Js.startsWith target "/" then target
               else cwd t +:+ "/" +:+ target in
  let t1 := {| outputCallbacks := outputCallbacks t; cwd := there |} in
  write files ("cd " +:+ target) t = (t1, emitOutput t EmptyString)
  /\ write files' "pwd" t1 = (t1, emitOutput t (there +:+ CRLF)).
Proof.
  intros Htok Hne there t1. split.
  - unfold write. rewrite (trim_cd target Htok Hne).
    assert (Htruthy : Js.truthyStr ("cd " +:+ target) = true) by reflexivity.
    rewrite Htruthy. cbn [negb].
    unfold executeCommand. rewrite (splitWs_cd target Htok).
    reflexivity.
  - reflexivity.
Qed.

End TerminalOutput.

(** A terminal on which the callback [1] has been registered twice and
    the callback [2] once. *)
Definition sharedTerminal : PseudoTerminal.World :=
  {| PseudoTerminal.terminal :=
       {| PseudoTerminal.outputCallbacks := [1; 2; 1];
          PseudoTerminal.cwd := "/project/sandbox" |};
     PseudoTerminal.delivered := [] |}.


Example unsubscribe_removes_every_registration :
  PseudoTerminal.delivered
    (PseudoTerminal.run
       (PseudoTerminal.step sharedTerminal (PseudoTerminal.CallUnsubscribe 1))
       [PseudoTerminal.CallWrite [] "pwd"])
  = [(2, "/project/sandbox" +:+ PseudoTerminal.CRLF)].
Proof. reflexivity. Qed.

Lemma cd_then_pwd_witness :
  PseudoTerminal.write [] "cd src" PseudoTerminal.create
  = ({| PseudoTerminal.outputCallbacks := [];
        PseudoTerminal.cwd := "/project/sandbox/src" |}, [])
  /\ PseudoTerminal.write [] "pwd"
       {| PseudoTerminal.outputCallbacks := [];
          PseudoTerminal.cwd := "/project/sandbox/src" |}
     = ({| PseudoTerminal.outputCallbacks := [];
           PseudoTerminal.cwd := "/project/sandbox/src" |}, []).
Proof.
  apply (cd_then_pwd [] [] "src" PseudoTerminal.create); [reflexivity | discriminate].
Defined.

(** ** DependencyPolyfill *)

Section Polyfill.

Import DependencyPolyfill.

Variable JSON_parse : string -> option Json.value.
Variable JSON_stringify : Json.value -> string.

(** The manifest [addDependency] writes. *)
Definition manifestWith (members deps : JsObj.t Json.value) : Json.value :=
  Json.Obj (JsObj.set "dependencies" (Json.Obj deps) members).

Lemma addDependency_run (files : JsObj.t string) (name : string)
      (version pkgJsonPath : option string) (members deps : JsObj.t Json.value) :
  SandpackAdapter.ensureDependencies
    (loadPackageJson JSON_parse files (defaultPath pkgJsonPath))
  = Return (members, deps) ->
  addDependency JSON_parse JSON_stringify files name version pkgJsonPath
  = (JsObj.set (defaultPath pkgJsonPath)
       (JSON_stringify
          (manifestWith members
             (JsObj.set name (Json.Str (defaultVersion version)) deps)))
       files,
     Return (JsObj.set name (Json.Str (defaultVersion version)) deps)).
Proof. intros H. unfold addDependency. rewrite H. reflexivity. Qed.

Lemma addDependency_returns (files files' : JsObj.t string) (name : string)
      (version pkgJsonPath : option string) (table : JsObj.t Json.value) :
  addDependency JSON_parse JSON_stringify files name version pkgJsonPath
  = (files', Return table) ->
  exists members deps,
    SandpackAdapter.ensureDependencies
      (loadPackageJson JSON_parse files (defaultPath pkgJsonPath))
    = Return (members, deps).
Proof.
  unfold addDependency.
  destruct (SandpackAdapter.ensureDependencies _) as [[members deps]|e|];
    intros H; inversion H. eauto.
Qed.

Lemma parseDependencies_manifest (members deps : JsObj.t Json.value) :
  JSON_parse (JSON_stringify (manifestWith members deps))
  = Some (manifestWith members deps) ->
  parseDependencies JSON_parse (JSON_stringify (manifestWith members deps)) = deps.
Proof.
  intros Hround. unfold parseDependencies. rewrite Hround.
  unfold manifestWith, tableOf. rewrite get_set_eq. reflexivity.
Qed.



(** X18.  [removeDependency] never adds a path to the file map and never
    removes one, whatever the manifest holds: a missing, empty or
    unparsable manifest is left alone, and a manifest is otherwise
    rewritten in place. *)
Theorem removeDependency_keeps_paths (files : JsObj.t string) (name : string)
        (pkgJsonPath : option string) :
  let result := removeDependency JSON_parse JSON_stringify files name pkgJsonPath in
  match snd result with
  | OutOfModel => True
  | _ => JsObj.keys (fst result) = JsObj.keys files
  end.
Proof.
  unfold removeDependency.
  destruct (JsObj.get (defaultPath pkgJsonPath) files) as [existing|] eqn:Hget;
    [|reflexivity].
  destruct (negb (Js.truthyStr existing)); [reflexivity|].
  destruct (JSON_parse existing) as [packageJson|]; [|reflexivity].
  pose proof (fun v => keys_set_present (defaultPath pkgJsonPath) v existing files Hget)
    as Hkeys.
  destruct packageJson as [|b|m e|t|l|o]; cbn [fst snd]; try apply Hkeys;
    try reflexivity.
  destruct (JsObj.get "dependencies" o) as [d|]; cbn [fst snd]; [|apply Hkeys].
  destruct (Json.truthy d); cbn [fst snd]; [|apply Hkeys].
  destruct d; cbn [fst snd]; try apply Hkeys; exact I.
Qed.

End Polyfill.

Section PolyfillAndAdapter.

Import SandpackAdapter.

Variable JSON_parse : string -> option Json.value.
Variable JSON_stringify : Json.value -> string.

Lemma loadPackageJson_agree (fs : JsObj.t string) :
  (JsObj.get "/package.json" fs = None -> JsObj.get "package.json" fs = None) ->
  ensureDependencies (loadPackageJson JSON_parse fs)
  = ensureDependencies (DependencyPolyfill.loadPackageJson JSON_parse fs "/package.json").
Proof.
  intros Hfallback. unfold loadPackageJson, DependencyPolyfill.loadPackageJson.
  destruct (JsObj.get "/package.json" fs) as [text|].
  - destruct (Js.truthyStr text); [|reflexivity].
    destruct (JSON_parse text); reflexivity.
  - rewrite Hfallback by reflexivity. reflexivity.
Qed.

Lemma splitWs_token (pkg : string) :
  isToken pkg = true -> pkg <> EmptyString ->
  List.filter Js.truthyStr (Js.splitWs pkg) = [pkg].
Proof.
  intros Htok Hne. unfold Js.splitWs. rewrite (splitWsFrom_token pkg Htok).
  change (EmptyString +:+ pkg) with pkg. cbn [List.filter].
  unfold Js.truthyStr. apply String.eqb_neq in Hne. rewrite Hne. reflexivity.
Qed.

(** X19.  The adapter's [npm install] of one package and the polyfill's
    [addDependency] of that package at the parsed version leave the same
    file map, and the adapter notifies the table the polyfill returns;
    when the manifest cannot take a dependency both throw and change
    nothing.  The manifest is [/package.json]: the adapter's fallback
    [package.json] is not in use. *)
Theorem npm_install_agrees_with_addDependency (pkg : string) (s : MapHost) :
  isToken pkg = true -> pkg <> EmptyString -> Js.startsWith pkg "-" = false ->
  (JsObj.get "/package.json" (files s) = None ->
   JsObj.get "package.json" (files s) = None) ->
  let installed := handleNpmInstall mapCallbacks JSON_parse JSON_stringify pkg s in
  let added :=
    DependencyPolyfill.addDependency JSON_parse JSON_stringify (files s)
      (fst (parsePackageSpec pkg)) (Some (snd (parsePackageSpec pkg))) None in
  match snd added with
  | Return table =>
      files (fst installed) = fst added
      /\ depsNotified (fst installed) = depsNotified s ++ [table]
      /\ snd installed
         = Return (installOutput
                     [fst (parsePackageSpec pkg) +:+ "@" +:+ snd (parsePackageSpec pkg)])
  | Throw e => snd installed = Throw e /\ fst installed = s /\ fst added = files s
  | OutOfModel => snd installed = OutOfModel
  end.
Proof.
  intros Htok Hne Hflag Hfallback installed added. subst installed added.
  unfold handleNpmInstall, DependencyPolyfill.addDependency.
  cbn [filesAt getFiles mapCallbacks DependencyPolyfill.defaultPath].
  rewrite (loadPackageJson_agree (files s) Hfallback).
  destruct (ensureDependencies _) as [[members deps]|e|]; cbn [fst snd];
    [|repeat split|reflexivity].
  rewrite (splitWs_token pkg Htok Hne). cbn [installPackages]. rewrite Hflag.
  destruct (parsePackageSpec pkg) as [name version]. cbn [fst snd installPackages].
  cbn [onFileUpdate onDependenciesChanged mapCallbacks files depsNotified
       DependencyPolyfill.defaultVersion app].
  repeat split.
Qed.

End PolyfillAndAdapter.

(** A manifest that depends on one package, as text. *)
Definition reactManifestText : string :=
  "{" +:+ JsonText.quote +:+ "dependencies" +:+ JsonText.quote
  +:+ ":{" +:+ JsonText.quote +:+ "react" +:+ JsonText.quote
  +:+ ":" +:+ JsonText.quote +:+ "18.0.0" +:+ JsonText.quote +:+ "}}".

Definition withLodash : JsObj.t string :=
  fst (DependencyPolyfill.addDependency JsonText.parse JsonText.stringify
         [("/index.js", "code"); ("/package.json", reactManifestText)]
         "lodash" (Some "4.17.21") None).


(** The text [addDependency] wrote reads back as the returned table. *)
Example addDependency_text_reads_back :
  option_map (DependencyPolyfill.parseDependencies JsonText.parse)
    (JsObj.get "/package.json" withLodash)
  = Some [("react", Json.Str "18.0.0"); ("lodash", Json.Str "4.17.21")].
Proof. vm_compute. reflexivity. Qed.


Lemma npm_install_agrees_with_addDependency_witness :
  match
    snd (DependencyPolyfill.addDependency JsonText.parse JsonText.stringify []
           "lodash" (Some "4.17.21") None)
  with
  | Return table =>
      SandpackAdapter.files
        (fst (SandpackAdapter.handleNpmInstall SandpackAdapter.mapCallbacks
                JsonText.parse JsonText.stringify "lodash@4.17.21"
                (SandpackAdapter.hostOf [])))
      = fst (DependencyPolyfill.addDependency JsonText.parse JsonText.stringify []
               "lodash" (Some "4.17.21") None)
      /\ table = [("lodash", Json.Str "4.17.21")]
  | _ => False
  end.
Proof.
  pose proof (npm_install_agrees_with_addDependency JsonText.parse JsonText.stringify
                "lodash@4.17.21" (SandpackAdapter.hostOf [])
                eq_refl ltac:(discriminate) eq_refl (fun H => H)) as Hagree.
  cbv zeta in Hagree.
  change (SandpackAdapter.parsePackageSpec "lodash@4.17.21")
    with ("lodash", "4.17.21") in Hagree.
  cbn [fst snd SandpackAdapter.files SandpackAdapter.hostOf] in Hagree.
  destruct (snd (DependencyPolyfill.addDependency JsonText.parse JsonText.stringify []
                   "lodash" (Some "4.17.21") None)) as [table|e|] eqn:Hadded.
  - split; [exact (proj1 Hagree)|].
    vm_compute in Hadded. inversion Hadded. reflexivity.
  - vm_compute in Hadded. discriminate.
  - vm_compute in Hadded. discriminate.
Defined.

(** With a manifest at [package.json] only, the adapter updates it in its
    own way and the polyfill creates [/package.json] beside it: the two
    differ without the condition on the fallback. *)
Example npm_install_and_addDependency_on_the_fallback :
  JsObj.keys
    (fst (DependencyPolyfill.addDependency JsonText.parse JsonText.stringify
            [("package.json", "{}")] "lodash" (Some "latest") None))
  = ["package.json"; "/package.json"]
  /\ option_map JsonText.parse
       (JsObj.get "/package.json"
          (SandpackAdapter.files
             (fst (SandpackAdapter.handleNpmInstall SandpackAdapter.mapCallbacks
                     JsonText.parse JsonText.stringify "lodash"
                     (SandpackAdapter.hostOf [("package.json", "{}")])))))
     = Some (Some (Json.Obj [("dependencies", Json.Obj [("lodash", Json.Str "latest")])])).
Proof. vm_compute. split; reflexivity. Qed.

(** ** SandpackFileWatcher: ticks without a change, and the interval of a
       second [start] *)

Section Quiescence.

Import SandpackFileWatcher.

Lemma differ_same (a : option string) : differ a a = false.
Proof. destruct a as [x|]; [|reflexivity]. cbn. rewrite String.eqb_refl. reflexivity. Qed.

Lemma scanCurrent_same (fs : JsObj.t string) (pathsToVisit : list string) :
  (forall p, In p pathsToVisit -> In p (JsObj.keys fs)) ->
  forall added changed,
    scanCurrent fs fs pathsToVisit added changed = (added, changed).
Proof.
  induction pathsToVisit as [|p rest IH]; intros Hin added changed; [reflexivity|].
  cbn [scanCurrent].
  assert (Hp : JsObj.has p fs = true) by (apply in_keys_has, Hin; left; reflexivity).
  rewrite Hp, differ_same. cbn [negb]. apply IH.
  intros q Hq. apply Hin. right. exact Hq.
Qed.

Lemma scanPrevious_same (fs : JsObj.t string) (pathsToVisit : list string) :
  (forall p, In p pathsToVisit -> In p (JsObj.keys fs)) ->
  forall removed, scanPrevious fs pathsToVisit removed = removed.
Proof.
  induction pathsToVisit as [|p rest IH]; intros Hin removed; [reflexivity|].
  cbn [scanPrevious].
  assert (Hp : JsObj.has p fs = true) by (apply in_keys_has, Hin; left; reflexivity).
  rewrite Hp. cbn [negb]. apply IH.
  intros q Hq. apply Hin. right. exact Hq.
Qed.

Lemma emitted_same (fs : JsObj.t string) : emitted fs fs = [].
Proof.
  unfold emitted, addedPaths, changedPaths, removedPaths.
  rewrite scanCurrent_same, scanPrevious_same by auto. reflexivity.
Qed.

Lemma tick_on_snapshot (x : World) (t : TimerId) (fs : JsObj.t string) :
  previousSnapshot (watcher x) = fs ->
  delivered (step x (TimerFires t fs)) = delivered x
  /\ previousSnapshot (watcher (step x (TimerFires t fs))) = fs.
Proof.
  intros Hsnap. cbn [step].
  destruct (existsb (Pos.eqb t) (timers x)); [|auto].
  unfold detectChanges. rewrite Hsnap, emitted_same. cbn.
  rewrite app_nil_r. auto.
Qed.

(** X20.  A tick that finds the file map as the previous tick of an armed
    interval found it calls no callback, whatever the map holds and
    whichever interval ticks; so does a tick that finds the map as
    [start] found it. *)
Theorem tick_without_change_is_silent (x : World) (fs : JsObj.t string)
        (t t' : TimerId) :
  In t (timers x) ->
  delivered (step (step x (TimerFires t fs)) (TimerFires t' fs))
  = delivered (step x (TimerFires t fs))
  /\ delivered (step (start fs x) (TimerFires t' fs)) = delivered x.
Proof.
  intros Harmed. split.
  - apply tick_on_snapshot.
    cbn [step].
    assert (Hex : existsb (Pos.eqb t) (timers x) = true).
    { apply existsb_exists. exists t. split; [exact Harmed | apply Pos.eqb_refl]. }
    rewrite Hex. reflexivity.
  - apply (tick_on_snapshot (start fs x) t' fs). reflexivity.
Qed.

(** X21.  [stop()] clears the interval of the latest [start()] only: after
    two calls of [start()] and one of [stop()] the watcher holds no
    interval, yet the interval of the first [start()] is still armed and
    its ticks go on replacing the snapshot. *)
Theorem stop_clears_the_latest_interval_only (x : World) (fs1 fs2 fs3 : JsObj.t string) :
  let y := stop (start fs2 (start fs1 x)) in
  intervalId (watcher y) = None
  /\ In (nextTimer x) (timers y)
  /\ previousSnapshot (watcher (step y (TimerFires (nextTimer x) fs3))) = fs3.
Proof.
  intros y.
  assert (Harmed : In (nextTimer x) (timers y)).
  { subst y. cbn [stop start watcher intervalId timers nextTimer List.filter].
    rewrite Pos.eqb_refl. cbn [negb].
    destruct (Pos.eqb_spec (nextTimer x) (Pos.succ (nextTimer x))) as [Heq|_]; [lia|].
    cbn [negb]. left. reflexivity. }
  split; [reflexivity|]. split; [exact Harmed|].
  cbn [step].
  assert (Hex : existsb (Pos.eqb (nextTimer x)) (timers y) = true).
  { apply existsb_exists. exists (nextTimer x). split; [exact Harmed | apply Pos.eqb_refl]. }
  rewrite Hex. reflexivity.
Qed.

End Quiescence.

(** A started watcher with one callback, after the file [a] has changed. *)
Definition watchedWorld : SandpackFileWatcher.World :=
  SandpackFileWatcher.run
    {| SandpackFileWatcher.watcher := SandpackFileWatcher.create;
       SandpackFileWatcher.timers := [];
       SandpackFileWatcher.nextTimer := 1%positive;
       SandpackFileWatcher.delivered := [] |}
    [ SandpackFileWatcher.CallRegister 7;
      SandpackFileWatcher.CallStart [("a", "1")] ].

Lemma tick_without_change_is_silent_witness :
  List.length
    (SandpackFileWatcher.delivered
       (SandpackFileWatcher.step
          (SandpackFileWatcher.step watchedWorld
             (SandpackFileWatcher.TimerFires 1%positive [("a", "2")]))
          (SandpackFileWatcher.TimerFires 1%positive [("a", "2")])))
  = 1.
Proof.
  rewrite (proj1 (tick_without_change_is_silent watchedWorld [("a", "2")]
                    1%positive 1%positive (or_introl eq_refl))).
  reflexivity.
Defined.

(** ** UndoRedoManager: comparing heads, and the redo stack *)

Section Heads.

Import Automerge UndoRedoManager.

Lemma areHeadsEqual_spec (heads1 heads2 : Heads) :
  areHeadsEqual heads1 heads2 = true
  <-> List.length heads1 = List.length heads2
      /\ forall h, In h heads2 -> In h heads1.
Proof.
  unfold areHeadsEqual.
  destruct (Nat.eqb_spec (List.length heads1) (List.length heads2)) as [Hlen|Hlen];
    cbn [negb].
  - rewrite forallb_forall. split.
    + intros H. split; [exact Hlen|]. intros h Hh.
      apply H in Hh. apply existsb_exists in Hh as (h' & Hin & Heq).
      apply Nat.eqb_eq in Heq. subst. exact Hin.
    + intros [_ H] h Hh. apply existsb_exists. exists h.
      split; [apply H; exact Hh | apply Nat.eqb_refl].
  - split; [discriminate | intros [? _]; contradiction].
Qed.

(** X22.  When the second array has no repeated head, [areHeadsEqual]
    answers [true] exactly when the two arrays hold the same heads in some
    order. *)
Theorem areHeadsEqual_permutation (heads1 heads2 : Heads) :
  List.NoDup heads2 ->
  (areHeadsEqual heads1 heads2 = true <-> Permutation heads1 heads2).
Proof.
  intros Hnd. rewrite areHeadsEqual_spec. split.
  - intros [Hlen Hincl]. symmetry.
    apply NoDup_Permutation_bis; [exact Hnd | lia | exact Hincl].
  - intros Hperm. split; [apply Permutation_length; exact Hperm|].
    intros h Hh. eapply Permutation_in; [symmetry; exact Hperm | exact Hh].
Qed.

(** With a repeated head the answer depends on the side it is on. *)
Example areHeadsEqual_repeated_head :
  areHeadsEqual [1; 2] [1; 1] = true /\ areHeadsEqual [1; 1] [1; 2] = false.
Proof. split; reflexivity. Qed.

End Heads.

Lemma areHeadsEqual_permutation_witness :
  UndoRedoManager.areHeadsEqual [1; 2; 3] [3; 1; 2] = true.
Proof.
  apply (proj2 (areHeadsEqual_permutation [1; 2; 3] [3; 1; 2]
                  ltac:(repeat constructor; cbn; lia))).
  apply Permutation_sym.
  change [3; 1; 2] with ([3] ++ [1; 2]). change [1; 2; 3] with ([1; 2] ++ [3]).
  apply Permutation_app_comm.
Defined.

Section RedoDiscarded.

Import Automerge UndoRedoManager.

Variable diff : Doc -> Heads -> Heads -> list Patch.
Variable shape : Value -> Prop.

Hypothesis diff_replays :
  forall (d : Doc) (to : Heads) (v : Value),
    shaped shape d -> view d to = Some v ->
    exists ops,
      applyPatches (valueOf d) (diff d (getHeads d) to) 0 = Return (v, ops).

Lemma edit_clears_redo (x : System) (d : Doc) (current : Heads) (v : Value) :
  Settled shape x d current ->
  redoStack (manager (edit v x)) = []
  /\ documentValue (edit v x) = Some v.
Proof.
  intros [Hidle Hd Hshape Hcur Hview Hu Hr].
  destruct (view_below_heads d current _ Hview) as (i & -> & Hi).
  assert (Hneq : areHeadsEqual [i] (getHeads (commit v d)) = false).
  { unfold areHeadsEqual, getHeads, commit. cbn.
    rewrite length_app. cbn.
    destruct (Nat.eqb_spec (List.length (changes d) + 1) i); [lia | reflexivity]. }
  unfold edit. rewrite Hd. unfold onChange. rewrite Hidle, Hcur, Hneq.
  cbn [negb fst snd manager handle undoStack redoStack].
  split; [reflexivity|].
  unfold documentValue. cbn [handle option_map]. rewrite valueOf_commit. reflexivity.
Qed.


End RedoDiscarded.

(** A document with the [files] member only, edited twice. *)
Definition filesDoc (fs : list (string * Automerge.Value)) : Automerge.Value :=
  Automerge.VMap [("files", Automerge.VMap fs)].

Definition emptyFilesDoc : Automerge.Doc :=
  {| Automerge.base := filesDoc []; Automerge.changes := [] |}.

Definition twoEdits : list Automerge.Value :=
  [ filesDoc [("/a.js", Automerge.VStr "one")];
    filesDoc [("/a.js", Automerge.VStr "two")] ].

Definition afterTwoEdits : UndoRedoManager.System :=
  fold_left (fun y v => UndoRedoManager.edit v y) twoEdits
            (UndoRedoManager.create (Some emptyFilesDoc)).

Lemma afterTwoEdits_settled :
  Settled filesOnly afterTwoEdits
    (Automerge.commit (filesDoc [("/a.js", Automerge.VStr "two")])
       (Automerge.commit (filesDoc [("/a.js", Automerge.VStr "one")]) emptyFilesDoc))
    [2].
Proof.
  constructor; try reflexivity.
  - split; [eexists; reflexivity|]. repeat constructor; eexists; reflexivity.
  - repeat constructor; eexists; reflexivity.
  - constructor.
Qed.




(** ** UndoRedoManager: patches addressed into a text *)

Section TextPatches.

Import Automerge UndoRedoManager.

(** [reaches parents doc v]: the navigation loop of [applyPatch], following
    [parents] from [doc], arrives at [v]. *)
Inductive reaches : list PathProp -> Value -> Value -> Prop :=
| reaches_here (doc : Value) : reaches [] doc doc
| reaches_child (p : PathProp) (rest : list PathProp) (doc child v : Value) :
    getProp doc p = Return (Some child) ->
    reaches rest child v ->
    reaches (p :: rest) doc v.

Lemma atParent_nothing (act : option Value -> Completion (option Value))
      (parents : list PathProp) (doc v : Value) :
  reaches parents doc v -> act (Some v) = Return None ->
  atParent parents doc act = Return None.
Proof.
  intros Hreach. induction Hreach as [doc|p rest doc child v Hget _ IH]; intros Hact.
  - exact Hact.
  - cbn [atParent]. rewrite Hget, (IH Hact). reflexivity.
Qed.

(** X26.  A [del] or an [insert] patch whose path leads into a string (a
    file's text, the last path element being the offset) changes nothing,
    wherever the string lies in the document; a list of such [del]
    patches leaves the document as it is and counts no operation. *)
Theorem text_patches_are_dropped (doc : Value) (parents : list PathProp)
        (key : PathProp) (text : string) :
  reaches parents doc (VStr text) ->
  (forall length, applyPatch doc (DelPatch (parents ++ [key]) length) = Return None)
  /\ (forall values, applyPatch doc (InsertPatch (parents ++ [key]) values) = Return None)
  /\ (forall patches ops,
         Forall (fun patch => exists length, patch = DelPatch (parents ++ [key]) length)
                patches ->
         applyPatches doc patches ops = Return (doc, ops)).
Proof.
  intros Hreach.
  assert (Hdel : forall length,
             applyPatch doc (DelPatch (parents ++ [key]) length) = Return None).
  { intros length. unfold applyPatch.
    destruct (parents ++ [key]) as [|p ps] eqn:Hpath;
      [destruct parents; discriminate|].
    rewrite <- Hpath, removelast_last, last_last.
    apply (atParent_nothing _ _ _ _ Hreach). reflexivity. }
  split; [exact Hdel|]. split.
  - intros values. unfold applyPatch.
    destruct (parents ++ [key]) as [|p ps] eqn:Hpath;
      [destruct parents; discriminate|].
    rewrite <- Hpath, removelast_last, last_last.
    apply (atParent_nothing _ _ _ _ Hreach). reflexivity.
  - intros patches ops Hall. induction Hall as [|patch patches [length ->] _ IH];
      [reflexivity|].
    cbn [applyPatches]. rewrite Hdel. exact IH.
Qed.

End TextPatches.

Lemma text_patches_are_dropped_witness :
  UndoRedoManager.applyPatch
    (filesDoc [("/a.txt", Automerge.VStr "abc")])
    (Automerge.DelPatch
       ([Automerge.Key "files"; Automerge.Key "/a.txt"] ++ [Automerge.Index 1]) (Some 1))
  = Return None.
Proof.
  apply (proj1 (text_patches_are_dropped
                  (filesDoc [("/a.txt", Automerge.VStr "abc")])
                  [Automerge.Key "files"; Automerge.Key "/a.txt"]
                  (Automerge.Index 1) "abc"
                  ltac:(repeat (eapply reaches_child; [reflexivity|]);
                        apply reaches_here))).
Defined.

(** ** SandboxManager: restoring the same snapshot again *)

Section RestoreTwice.

Import SandboxManager.

Implicit Types (snap fs : gmap string string) (acc : gmap string string * nat).

Lemma removeStep_kept snap (paths : list string) :
  (forall p, In p paths -> missingIn snap p = false) ->
  forall acc, fold_left (removeStep snap) paths acc = acc.
Proof.
  induction paths as [|p paths IH]; intros Hkept acc; [reflexivity|].
  cbn [fold_left]. unfold removeStep at 2.
  rewrite (Hkept p (or_introl eq_refl)). apply IH.
  intros q Hq. apply Hkept. right. exact Hq.
Qed.

Lemma updateStep_kept (entries : list (string * string)) :
  forall acc,
    (forall e, In e entries -> fst acc !! fst e = Some (snd e)) ->
    fold_left updateStep entries acc = acc.
Proof.
  induction entries as [|e entries IH]; intros acc Hsame; [reflexivity|].
  cbn [fold_left].
  assert (Hstep : updateStep acc e = acc).
  { unfold updateStep. rewrite (Hsame e (or_introl eq_refl)).
    rewrite String.eqb_refl. reflexivity. }
  rewrite Hstep. apply IH. intros e' He'. apply Hsame. right. exact He'.
Qed.

(** On a document that already holds the snapshot's files, none of them
    empty, the callback of [restoreSnapshot] performs no operation. *)
Lemma revertTo_same snap (d : OnlookDoc) :
  files d = snap ->
  (forall path content, snap !! path = Some content -> content <> EmptyString) ->
  revertTo snap d = (d, 0).
Proof.
  intros Hfiles Hfull. unfold revertTo. rewrite Hfiles.
  rewrite removeStep_kept.
  - rewrite updateStep_kept.
    + cbn [fst snd]. destruct d as [fs ls]. cbn in *. subst. reflexivity.
    + intros [k c] Hin. cbn [fst snd].
      apply elem_of_map_to_list. apply list_elem_of_In. exact Hin.
  - intros p Hp. apply list_elem_of_In in Hp.
    apply list_elem_of_fmap in Hp as ([k c] & -> & Hin).
    apply elem_of_map_to_list in Hin. cbn [fst].
    unfold missingIn. rewrite Hin.
    unfold Js.truthyStr. specialize (Hfull k c Hin).
    apply String.eqb_neq in Hfull. rewrite Hfull. reflexivity.
Qed.

Lemma findSnapshot_app (target : string) (doc more : Doc) (found : HistoryState) :
  findSnapshot target doc = Some found ->
  findSnapshot target (doc ++ more) = Some found.
Proof.
  unfold findSnapshot. induction doc as [|h doc IH]; [discriminate|].
  cbn [List.find app]. destruct (String.eqb (hash (change h)) target); auto.
Qed.


End RestoreTwice.


(** A snapshot with an empty file is restored by a new change every time:
    the first loop deletes the file, the second one puts it back. *)
Definition stateEmptyFile : SandboxManager.HistoryState :=
  {| SandboxManager.change :=
       {| SandboxManager.hash := "h0"; SandboxManager.message := None;
          SandboxManager.time := 10 |};
     SandboxManager.snapshot :=
       {| SandboxManager.files := {[ "/empty.txt" := EmptyString ]};
          SandboxManager.lastSnapshot := None |} |}.

Example restoreSnapshot_of_an_empty_file :
  option_map (List.map SandboxManager.oid)
    (match SandboxManager.restoreSnapshot "h0" "h1" 20
             {| SandboxManager.handle := Some (Some [stateEmptyFile]);
                SandboxManager.memoryFiles := {[ "/empty.txt" := EmptyString ]} |}
     with
     | Return m1 => Some (SandboxManager.getHistory m1)
     | _ => None
     end)
  = Some ["h0"; "h1"].
Proof. vm_compute. reflexivity. Qed.
